(** * Website automation: a shallow embedding of the content pipeline

    The TypeScript sources modelled here are
    - [lib/googleDoc.ts]            (document classifier),
    - [lib/googleSheets.ts]         (competitor lookup),
    - [lib/googleSheetsPrompts.ts]  (single prompt resolver),
    - [lib/promptsFromSheets.ts]    (whole-tab prompt loader),
    - [app/api/generate/[box]/route.ts], [app/api/generate/pictures/route.ts]
      and [app/api/generate/all/route.ts] (the generation endpoints),
    - [lib/apiKeys.ts] and [lib/startupValidation.ts] (the configuration),
    - [lib/tokenManager.ts]         (expiry and refresh of the token),
    - [app/api/classify/route.ts] and [app/api/competitors/route.ts]
      (the classification and competitor endpoints),
    - [app/page.tsx]                (the requests of the page).

    JavaScript strings are modelled by [string]: a sequence of code units.
    Case mapping and the white space class are those of the ASCII range;
    code units above 127 are carried around unchanged.  Remote services
    (Docs, Sheets, the language model, the random number generator) are
    inputs of the functions that call them. *)

From Stdlib Require Import String Ascii List ZArith Lia Bool Arith.
From Stdlib Require Import QArith Qround.
From Stdlib Require Import DecimalString.
Import ListNotations.

Close Scope Q_scope.
Local Open Scope string_scope.
Local Open Scope list_scope.
Local Open Scope nat_scope.

Infix "+++" := String.append (right associativity, at level 60).

(* ================================================================== *)
(** * Part I: definitions *)
(* ================================================================== *)

(** ** JavaScript string primitives *)

Module Js.

Definition dquote : string := String (ascii_of_nat 34) EmptyString.
Definition nl : string := String (ascii_of_nat 10) EmptyString.

(** White space and line terminators removed by [String.prototype.trim]
    and matched by the regular expression class [\s]. *)
Definition isWhiteSpace (c : ascii) : bool :=
  let n := nat_of_ascii c in
  ((9 <=? n) && (n <=? 13)) || (n =? 32).

Definition isUpper (c : ascii) : bool :=
  let n := nat_of_ascii c in (65 <=? n) && (n <=? 90).

Definition isLower (c : ascii) : bool :=
  let n := nat_of_ascii c in (97 <=? n) && (n <=? 122).

Definition isDigit (c : ascii) : bool :=
  let n := nat_of_ascii c in (48 <=? n) && (n <=? 57).

(** The regular expression class [\w]. *)
Definition isWordChar (c : ascii) : bool :=
  isUpper c || isLower c || isDigit c || (nat_of_ascii c =? 95).

Definition toLowerChar (c : ascii) : ascii :=
  if isUpper c then ascii_of_nat (nat_of_ascii c + 32) else c.

Definition toUpperChar (c : ascii) : ascii :=
  if isLower c then ascii_of_nat (nat_of_ascii c - 32) else c.

Fixpoint mapString (f : ascii -> ascii) (s : string) : string :=
  match s with
  | EmptyString => EmptyString
  | String c s' => String (f c) (mapString f s')
  end.

Definition toLowerCase : string -> string := mapString toLowerChar.
Definition toUpperCase : string -> string := mapString toUpperChar.

Fixpoint trimStart (s : string) : string :=
  match s with
  | EmptyString => EmptyString
  | String c s' => if isWhiteSpace c then trimStart s' else s
  end.

Fixpoint trimEnd (s : string) : string :=
  match s with
  | EmptyString => EmptyString
  | String c s' =>
      match trimEnd s' with
      | EmptyString => if isWhiteSpace c then EmptyString else String c EmptyString
      | r => String c r
      end
  end.

Definition trim (s : string) : string := trimEnd (trimStart s).

(** Truthiness of a string value: the empty string is the only falsy one. *)
Definition truthy (s : string) : bool :=
  match s with EmptyString => false | _ => true end.

(** [truthyOpt o] is the truthiness of a value that is either [undefined]
    or a string. *)
Definition truthyOpt (o : option string) : bool :=
  match o with Some s => truthy s | None => false end.

(** [a || b] on strings. *)
Definition orElse (a b : string) : string := if truthy a then a else b.

Definition startsWith (s p : string) : bool := String.prefix p s.

Fixpoint includes (s sub : string) : bool :=
  String.prefix sub s ||
  match s with
  | EmptyString => false
  | String _ s' => includes s' sub
  end.

Fixpoint indexOfFrom (i : Z) (s sub : string) : Z :=
  if String.prefix sub s then i
  else match s with
       | EmptyString => (-1)%Z
       | String _ s' => indexOfFrom (i + 1) s' sub
       end.

Definition indexOf (s sub : string) : Z := indexOfFrom 0 s sub.

(** [s.split(c)] for a one-character separator. *)
Fixpoint split (sep : ascii) (s : string) : list string :=
  match s with
  | EmptyString => [EmptyString]
  | String c s' =>
      if Ascii.eqb c sep then EmptyString :: split sep s'
      else match split sep s' with
           | w :: ws => String c w :: ws
           | [] => [String c EmptyString]
           end
  end.

(** [s.split(/[...]+/)] for a character class: runs of separators split. *)
Fixpoint splitRuns (isSep : ascii -> bool) (inSep : bool) (s : string) : list string :=
  match s with
  | EmptyString => [EmptyString]
  | String c s' =>
      if isSep c then
        if inSep then splitRuns isSep true s'
        else EmptyString :: splitRuns isSep true s'
      else match splitRuns isSep false s' with
           | w :: ws => String c w :: ws
           | [] => [String c EmptyString]
           end
  end.

Definition join (sep : string) (l : list string) : string := String.concat sep l.

Definition charAt0 (s : string) : string :=
  match s with
  | EmptyString => EmptyString
  | String c _ => String c EmptyString
  end.

Definition slice1 (s : string) : string :=
  match s with
  | EmptyString => EmptyString
  | String _ s' => s'
  end.

Fixpoint dropString (n : nat) (s : string) : string :=
  match n, s with
  | S n', String _ s' => dropString n' s'
  | _, _ => s
  end.

(** [s.replace(p, '')] with a string pattern: the first occurrence only. *)
Fixpoint removeFirst (p s : string) : string :=
  if String.prefix p s then
    dropString (String.length p) s
  else match s with
       | EmptyString => EmptyString
       | String c s' => String c (removeFirst p s')
       end.

(** [s.replace(/[...]/g, '')] for a character class. *)
Fixpoint removeChars (p : ascii -> bool) (s : string) : string :=
  match s with
  | EmptyString => EmptyString
  | String c s' => if p c then removeChars p s' else String c (removeChars p s')
  end.

Definition digitValue (c : ascii) : option Z :=
  if isDigit c then Some (Z.of_nat (nat_of_ascii c - 48))
  else if isLower c then Some (Z.of_nat (nat_of_ascii c - 87))
  else if isUpper c then Some (Z.of_nat (nat_of_ascii c - 55))
  else None.

(** The digits of [parseInt]: the longest prefix of digits below [radix];
    [None] when there is none. *)
Fixpoint parseDigits (radix : Z) (acc : option Z) (s : string) : option Z :=
  match s with
  | EmptyString => acc
  | String c s' =>
      match digitValue c with
      | Some d =>
          if (d <? radix)%Z
          then parseDigits radix
                 (Some (match acc with Some a => a * radix + d | None => d end)%Z) s'
          else acc
      | None => acc
      end
  end.

(** [parseInt(s)] with no radix argument; [None] stands for [NaN].  The
    result is the exact integer (JavaScript rounds it to a double beyond
    2^53). *)
Definition parseInt (s : string) : option Z :=
  let s := trimStart s in
  let '(neg, s) :=
    match s with
    | String "-"%char r => (true, r)
    | String "+"%char r => (false, r)
    | _ => (false, s)
    end in
  let mag :=
    match s with
    | String "0"%char (String "x"%char r) => parseDigits 16 None r
    | String "0"%char (String "X"%char r) => parseDigits 16 None r
    | _ => parseDigits 10 None s
    end in
  option_map (fun m => if neg then (- m)%Z else m) mag.

(** [String(n)] for an integer. *)
Definition numberToString (n : Z) : string :=
  NilEmpty.string_of_int (Z.to_int n).

(** A value of a parsed JSON body, as far as the handlers inspect it. *)
Inductive Value : Type :=
| VUndefined
| VNull
| VBool (b : bool)
| VNumber (n : Z)
| VString (s : string)
| VObject.

(** The first index whose element satisfies [p], with the element:
    [Array.prototype.find] and [findIndex] at once. *)
Fixpoint findFrom {A} (p : A -> bool) (i : nat) (l : list A) : option (nat * A) :=
  match l with
  | [] => None
  | x :: l' => if p x then Some (i, x) else findFrom p (S i) l'
  end.

Definition find {A} (p : A -> bool) (l : list A) : option (nat * A) := findFrom p 0 l.

(** [Array.prototype.includes] on strings. *)
Definition arrayIncludes (l : list string) (s : string) : bool :=
  existsb (String.eqb s) l.

Fixpoint takeString (n : nat) (s : string) : string :=
  match n, s with
  | S n', String c s' => String c (takeString n' s')
  | _, _ => EmptyString
  end.

Fixpoint lastChar (s : string) : option ascii :=
  match s with
  | EmptyString => None
  | String c EmptyString => Some c
  | String _ s' => lastChar s'
  end.

Fixpoint hasChar (c : ascii) (s : string) : bool :=
  match s with
  | EmptyString => false
  | String d s' => Ascii.eqb d c || hasChar c s'
  end.

(** *** [String.prototype.replace] with a global regular expression *)

(** The replacement text of one match (GetSubstitution, for a regular
    expression with no capture group): [$$] is a dollar sign, [$&] the
    match, [$`] the text before it and [$'] the text after it; any other
    dollar sign stands for itself. *)
Fixpoint getSubstitution (matched before after replacement : string) : string :=
  match replacement with
  | EmptyString => EmptyString
  | String c rest =>
      if Ascii.eqb c "$"%char then
        match rest with
        | String d rest' =>
            if Ascii.eqb d "$"%char
            then String "$"%char (getSubstitution matched before after rest')
            else if Ascii.eqb d "&"%char
            then matched +++ getSubstitution matched before after rest'
            else if Ascii.eqb d "`"%char
            then before +++ getSubstitution matched before after rest'
            else if Ascii.eqb d "'"%char
            then after +++ getSubstitution matched before after rest'
            else String c (getSubstitution matched before after rest)
        | EmptyString => String c EmptyString
        end
      else String c (getSubstitution matched before after rest)
  end.

(** A regular expression whose matches are never empty, as the length of
    its match at the head of the text that follows [before]'s last
    character; 0 when it does not match there. *)
Definition Matcher : Type := option ascii -> string -> nat.

(** The scan of [s.replace(re, replacement)] from the position after
    [before], with [skip] characters of the current match left to pass. *)
Fixpoint replaceFrom (m : Matcher) (replacement : string) (skip : nat)
    (before s : string) : string :=
  match s with
  | EmptyString => EmptyString
  | String c s' =>
      match skip with
      | S k => replaceFrom m replacement k (before +++ String c EmptyString) s'
      | 0 =>
          match m (lastChar before) s with
          | 0 => String c (replaceFrom m replacement 0 (before +++ String c EmptyString) s')
          | S k =>
              getSubstitution (takeString (S k) s) before (dropString (S k) s) replacement
              +++ replaceFrom m replacement k (before +++ String c EmptyString) s'
          end
      end
  end.

Definition replaceAll (m : Matcher) (replacement s : string) : string :=
  replaceFrom m replacement 0 EmptyString s.

(** *** Vocabulary for the facts about global replacement *)

(** The scan of a global replacement by a text that is taken literally:
    only the last character passed is remembered. *)
Fixpoint scan (m : Matcher) (k : string) (skip : nat) (prev : option ascii)
    (s : string) : string :=
  match s with
  | EmptyString => EmptyString
  | String c s' =>
      match skip with
      | S j => scan m k j (Some c) s'
      | 0 =>
          match m prev s with
          | 0 => String c (scan m k 0 (Some c) s')
          | S j => k +++ scan m k j (Some c) s'
          end
      end
  end.

(** The expression matches nowhere in [s], which follows [prev]. *)
Fixpoint quiet (m : Matcher) (prev : option ascii) (s : string) : Prop :=
  match s with
  | EmptyString => True
  | String c s' => m prev s = 0 /\ quiet m (Some c) s'
  end.

(** [s] is empty or starts with a character that is no word character. *)
Definition headNonWord (s : string) : Prop :=
  match s with
  | EmptyString => True
  | String c _ => isWordChar c = false
  end.

(** [m'] where [m] does not match: what a scan by [m] leaves to [m']. *)
Definition unlessMatched (m m' : Matcher) : Matcher :=
  fun prev s => match m prev s with 0 => m' prev s | S _ => 0 end.

(** The last character of [u], or [prev] when [u] is empty. *)
Definition lastOr (prev : option ascii) (u : string) : option ascii :=
  match lastChar u with Some c => Some c | None => prev end.

(** The names of the members every object inherits from
    [Object.prototype]. *)
Definition objectPrototypeKeys : list string :=
  ["constructor"; "hasOwnProperty"; "isPrototypeOf"; "propertyIsEnumerable";
   "toLocaleString"; "toString"; "valueOf"; "__proto__";
   "__defineGetter__"; "__defineSetter__"; "__lookupGetter__"; "__lookupSetter__"].

Inductive Lookup : Type :=
| Own (value : string)
| Inherited
| Absent.

Fixpoint ownProperty (table : list (string * string)) (key : string) : option string :=
  match table with
  | [] => None
  | (k, v) :: table' => if String.eqb k key then Some v else ownProperty table' key
  end.

(** Property lookup [table[key]] on an object literal whose own
    properties are [table]: own properties first, then the inherited
    members. *)
Definition recordGet (table : list (string * string)) (key : string) : Lookup :=
  match ownProperty table key with
  | Some v => Own v
  | None => if arrayIncludes objectPrototypeKeys key then Inherited else Absent
  end.

(** [record[key] = value] on a record built by assignments: an existing
    key keeps its place, a new one goes last. *)
Fixpoint recordSet {V : Type} (key : string) (value : V) (record : list (string * V))
  : list (string * V) :=
  match record with
  | [] => [(key, value)]
  | (k, v) :: record' =>
      if String.eqb k key then (k, value) :: record'
      else (k, v) :: recordSet key value record'
  end.

(** [row[i] || ''] on a row of strings. *)
Definition cell (i : nat) (row : list string) : string := nth i row EmptyString.

(** A string that is empty or starts with a character that is no space. *)
Definition noLeadingSpace (s : string) : Prop :=
  match s with
  | EmptyString => True
  | String c _ => isWhiteSpace c = false
  end.

End Js.

(** ** lib/googleDoc.ts: the document classifier *)

Module GoogleDoc.
Import Js.

Inductive Category : Type := WithSubtopics | NoSubtopics.

Definition categoryName (c : Category) : string :=
  match c with
  | WithSubtopics => "with subtopics"
  | NoSubtopics => "no subtopics"
  end.

(** [category = None] is the [null] of the source; an absent optional
    field is [None]. *)
Record ClassificationResult : Type := mkResult {
  category : option Category;
  reason : string;
  matchedLine : option string;
  lineNumber : option nat;
  subtopics : option (list string)
}.

Definition failure (why : string) : ClassificationResult :=
  mkResult None why None None None.

(** *** extractDocumentId *)

Definition isIdChar (c : ascii) : bool :=
  isUpper c || isLower c || isDigit c
  || Ascii.eqb c "-"%char || Ascii.eqb c "_"%char.

Fixpoint takeWhile (p : ascii -> bool) (s : string) : string :=
  match s with
  | EmptyString => EmptyString
  | String c s' => if p c then String c (takeWhile p s') else EmptyString
  end.

(** The capture of the leftmost match of [lit([a-zA-Z0-9-_]+)] in [s]. *)
Fixpoint matchIdAfter (lit s : string) : option string :=
  let here :=
    if String.prefix lit s
    then let id := takeWhile isIdChar (dropString (String.length lit) s) in
         if truthy id then Some id else None
    else None in
  match here with
  | Some id => Some id
  | None =>
      match s with
      | EmptyString => None
      | String _ s' => matchIdAfter lit s'
      end
  end.

Definition patterns : list string := ["/document/d/"; "/document/d/e/"].

Definition extractDocumentId (docUrl : string) : option string :=
  (fix loop (ps : list string) : option string :=
     match ps with
     | [] => None
     | p :: ps' =>
         match matchIdAfter p docUrl with
         | Some id => Some id
         | None => loop ps'
         end
     end) patterns.

(** *** The document, as the Docs API returns it *)

(** [elements]: for each paragraph element, the content of its text run
    when it has one.  An absent array is the empty list throughout. *)
Record Paragraph : Type := mkParagraph {
  namedStyleType : option string;
  elements : list (option string)
}.

(** The table of a structural element is rows of cells of content. *)
#[warnings="-register-all"]
Inductive StructuralElement : Type :=
| Element (paragraph : option Paragraph)
          (table : option (list (list (list StructuralElement)))).

Record Document : Type := mkDocument {
  body : option (option (list StructuralElement))
}.

(** The outcome of [docs.documents.get]: the call throws (an [Error] with
    its message, or some other value) or resolves to [response.data]. *)
Inductive DocsResponse : Type :=
| DocsThrows (message : option string)
| DocsReturns (data : option Document).

Record DocumentTextElement : Type := mkText {
  text : string;
  isHeading : bool;
  level : Z
}.

Definition paragraphText (p : Paragraph) : string :=
  fold_left
    (fun acc elem =>
       match elem with
       | Some content => if truthy content then acc +++ content else acc
       | None => acc
       end)
    (elements p) EmptyString.

Definition headingOf (p : Paragraph) : bool * Z :=
  match namedStyleType p with
  | Some styleType =>
      if truthy styleType && includes styleType "HEADING"
      then (true,
            match parseInt (removeFirst "HEADING_" styleType) with
            | Some n => if (n =? 0)%Z then 1%Z else n
            | None => 1%Z
            end)
      else (false, 0%Z)
  | None => (false, 0%Z)
  end.

Definition extractParagraph (p : Paragraph) : list DocumentTextElement :=
  let '(isHeading, headingLevel) := headingOf p in
  let text := trim (paragraphText p) in
  if truthy text then [mkText text isHeading headingLevel] else [].

(** The elements pushed on [textElements] by one call, in order. *)
Fixpoint extractContentFromElement (element : StructuralElement)
  : list DocumentTextElement :=
  match element with
  | Element paragraph table =>
      (match paragraph with
       | Some p => extractParagraph p
       | None => []
       end)
      ++
      (match table with
       | Some tableRows =>
           flat_map (fun row =>
             flat_map (fun cell =>
               flat_map extractContentFromElement cell) row) tableRows
       | None => []
       end)
  end.

Definition flatten (content : list StructuralElement) : list DocumentTextElement :=
  flat_map extractContentFromElement content.

(** *** Classification of the flattened document *)

Definition keywordLower (keyword : string) : string :=
  trim (toLowerCase keyword).

Definition containsKeyword (keyword : string) (element : DocumentTextElement) : bool :=
  includes (trim (toLowerCase (text element))) (keywordLower keyword).

(** The loop that collects subtopics, run on the elements after the match. *)
Fixpoint collectSubtopics (keyword : string) (rest : list DocumentTextElement)
  : list string :=
  match rest with
  | [] => []
  | element :: rest' =>
      if isHeading element then []
      else
        let trimmedText := trim (text element) in
        if negb (isHeading element) && truthy trimmedText
        then if negb (String.eqb (toLowerCase trimmedText) (keywordLower keyword))
             then trimmedText :: collectSubtopics keyword rest'
             else collectSubtopics keyword rest'
        else collectSubtopics keyword rest'
  end.

(** The backward loop: the text of the nearest heading before the match,
    searched in [before], the elements before the match, nearest first. *)
Fixpoint parentHeadingOf (before : list DocumentTextElement) : string :=
  match before with
  | [] => EmptyString
  | element :: before' =>
      if isHeading element then text element else parentHeadingOf before'
  end.

Definition classify (textElements : list DocumentTextElement) (keyword : string)
  : ClassificationResult :=
  match find (containsKeyword keyword) textElements with
  | None =>
      failure ("Keyword " +++ dquote +++ keyword +++ dquote +++ " not found in document")
  | Some (elementIndex, foundElement) =>
      let '(category, reason, subtopics) :=
        if isHeading foundElement then
          (WithSubtopics,
           dquote +++ keyword +++ dquote +++ " found as heading level "
             +++ numberToString (level foundElement) +++ " (with subtopics)",
           collectSubtopics keyword (skipn (elementIndex + 1) textElements))
        else
          let parentHeading := parentHeadingOf (rev (firstn elementIndex textElements)) in
          (NoSubtopics,
           if truthy parentHeading
           then dquote +++ keyword +++ dquote +++ " found under heading "
                  +++ dquote +++ parentHeading +++ dquote +++ " (no subtopics)"
           else dquote +++ keyword +++ dquote +++ " found as regular content (no subtopics)",
           []) in
      mkResult (Some category) reason (Some (text foundElement))
               (Some (elementIndex + 1))
               (if 0 <? List.length subtopics then Some subtopics else None)
  end.

(** *** detectCategoryFromDoc *)

Record Env : Type := mkEnv {
  GOOGLE_DOC_ID : option string;
  GOOGLE_DOC_ID_dashed : option string;
  GOOGLE_CLIENT_ID : option string;
  GOOGLE_CLIENT_SECRET : option string
}.

(** [process.env.X?.trim()], kept when truthy. *)
Definition trimmed (v : option string) : option string :=
  match v with
  | Some s => if truthy (trim s) then Some (trim s) else None
  | None => None
  end.

Definition resolveDocumentId (env : Env) (docUrl : string) : option string :=
  match trimmed (GOOGLE_DOC_ID env) with
  | Some id => Some id
  | None =>
      match trimmed (GOOGLE_DOC_ID_dashed env) with
      | Some id => Some id
      | None => extractDocumentId docUrl
      end
  end.

Definition isQuote (c : ascii) : bool :=
  (nat_of_ascii c =? 39) || (nat_of_ascii c =? 34).

Definition cleanDocumentId (documentId : string) : string :=
  trim (removeChars isQuote documentId).

Definition detectCategoryFromDoc
    (env : Env) (documentsGet : string -> DocsResponse)
    (docUrl keyword : string) (accessToken : option string)
  : ClassificationResult :=
  match resolveDocumentId env docUrl with
  | None => failure "Could not extract document ID from URL and GOOGLE_DOC_ID not set"
  | Some documentId =>
      let documentId := cleanDocumentId documentId in
      if negb (truthyOpt (trimmed (GOOGLE_CLIENT_ID env)))
         || negb (truthyOpt (trimmed (GOOGLE_CLIENT_SECRET env)))
      then failure "Google OAuth credentials not configured"
      else if negb (truthyOpt accessToken)
      then failure "No access token provided. User needs to authenticate with Google."
      else
        match documentsGet documentId with
        | DocsThrows thrown =>
            let errorMessage :=
              match thrown with Some m => m | None => "Unknown error" end in
            if includes errorMessage "not found"
            then failure ("Document not accessible via API. This may be a published document that requires the actual document ID for API access. Error: " +++ errorMessage)
            else failure ("Google Docs API error: " +++ errorMessage)
        | DocsReturns None => failure "Document not found or has no content"
        | DocsReturns (Some document) =>
            match body document with
            | None => failure "Document not found or has no content"
            | Some content =>
                classify
                  (match content with Some c => flatten c | None => [] end)
                  keyword
            end
        end
  end.

(** *** Vocabulary of the specification *)

(** The elements from the head of [rest] up to, not including, the next
    heading. *)
Fixpoint beforeNextHeading (rest : list DocumentTextElement)
  : list DocumentTextElement :=
  match rest with
  | [] => []
  | element :: rest' =>
      if isHeading element then [] else element :: beforeNextHeading rest'
  end.

(** The trimmed text of [element] equals the keyword up to case. *)
Definition equalsKeyword (keyword : string) (element : DocumentTextElement) : bool :=
  String.eqb (toLowerCase (trim (text element))) (keywordLower keyword).

(** The subtopics the specification describes for a heading matched at
    index [i]. *)
Definition expectedSubtopics (keyword : string) (i : nat)
    (textElements : list DocumentTextElement) : list string :=
  map (fun element => trim (text element))
      (filter (fun element => negb (equalsKeyword keyword element))
              (beforeNextHeading (skipn (i + 1) textElements))).

(** [element] at index [i] is the first one that contains the keyword. *)
Definition firstMatchAt (keyword : string) (textElements : list DocumentTextElement)
    (i : nat) (element : DocumentTextElement) : Prop :=
  nth_error textElements i = Some element /\
  containsKeyword keyword element = true /\
  forall j other, j < i -> nth_error textElements j = Some other ->
                  containsKeyword keyword other = false.

(** The flattened document the classifier works on, when every step up to
    and including the fetch succeeds. *)
Definition fetchedElements (env : Env) (documentsGet : string -> DocsResponse)
    (docUrl : string) : option (list DocumentTextElement) :=
  match resolveDocumentId env docUrl with
  | None => None
  | Some documentId =>
      match documentsGet (cleanDocumentId documentId) with
      | DocsReturns (Some document) =>
          match body document with
          | Some (Some c) => Some (flatten c)
          | Some None => Some []
          | None => None
          end
      | _ => None
      end
  end.

(** The hard errors: no document id, no credentials, no token, or no
    document content fetched. *)
Definition hardError (env : Env) (documentsGet : string -> DocsResponse)
    (docUrl : string) (accessToken : option string) : bool :=
  match resolveDocumentId env docUrl with None => true | Some _ => false end
  || negb (truthyOpt (trimmed (GOOGLE_CLIENT_ID env)))
  || negb (truthyOpt (trimmed (GOOGLE_CLIENT_SECRET env)))
  || negb (truthyOpt accessToken)
  || match fetchedElements env documentsGet docUrl with None => true | Some _ => false end.

(** *** A sample document *)

Definition plain (line : string) : StructuralElement :=
  Element (Some (mkParagraph (Some "NORMAL_TEXT") [Some line; Some nl])) None.

Definition heading (style line : string) : StructuralElement :=
  Element (Some (mkParagraph (Some style) [Some line; Some nl])) None.

(** A title line, the heading "Mattress Removal" followed by two lines, an
    empty paragraph, a repetition of the heading text and a table cell, then
    the heading "Other" and one more line. *)
Definition sampleContent : list StructuralElement :=
  [ plain "Junk services";
    heading "HEADING_2" "Mattress Removal";
    plain "Queen mattress pickup";
    plain "  ";
    plain " MATTRESS removal ";
    Element None (Some [[[plain "Box spring disposal"]]]);
    plain "Same day haul away";
    heading "HEADING_2" "Other";
    plain "Couch removal" ].

Definition sampleEnv : Env :=
  mkEnv (Some "doc-1") None (Some "client") (Some "secret").

Definition sampleDocs (documentId : string) : DocsResponse :=
  if String.eqb documentId "doc-1"
  then DocsReturns (Some (mkDocument (Some (Some sampleContent))))
  else DocsThrows (Some "Requested entity was not found.").

End GoogleDoc.

(** ** The Sheets API, as the three sheet readers see it *)

Module Sheets.

(** The outcome of [sheets.spreadsheets.values.get]: the call throws (an
    [Error] with its message, or some other value) or resolves to
    [response.data.values], which is absent for an empty range. *)
Inductive Response : Type :=
| Throws (message : option string)
| Returns (values : option (list (list string))).

Definition errorMessageOf (thrown : option string) : string :=
  match thrown with Some m => m | None => "Unknown error" end.

Record Env : Type := mkEnv {
  GOOGLE_SHEET_ID : option string;
  GOOGLE_CLIENT_ID : option string;
  GOOGLE_CLIENT_SECRET : option string
}.

(** [process.env.X?.trim()] *)
Definition trimmedVar (v : option string) : option string := option_map Js.trim v.

End Sheets.

(** ** lib/googleSheets.ts: the competitor lookup *)

Module GoogleSheets.
Import Js Sheets.

Record GoogleSheetsResult : Type := mkResult {
  found : bool;
  rowNumber : option nat;
  keywordCell : option string;
  competitorUrls : list string;
  error : option string;
  totalRows : nat;
  accessMethod : string
}.

Definition isUrlSeparator (c : ascii) : bool :=
  (nat_of_ascii c =? 10) || (nat_of_ascii c =? 13)
  || Ascii.eqb c ","%char || Ascii.eqb c ";"%char.

(** The URLs of a column H cell. *)
Definition urlsOf (cellH : string) : list string :=
  if truthy (trim cellH)
  then filter (fun url => (0 <? String.length url)
                          && (startsWith url "http" || includes url "."))
              (map trim (splitRuns isUrlSeparator false cellH))
  else [].

Definition rowMatches (keyword : string) (row : list string) : bool :=
  includes (toLowerCase (cell 0 row)) (toLowerCase keyword).

Definition getCompetitorUrlsFromSheets
    (env : Env) (valuesGet : string -> string -> Response)
    (keyword : string) (accessToken : option string) : GoogleSheetsResult :=
  if negb (truthyOpt (trimmedVar (GOOGLE_CLIENT_ID env)))
     || negb (truthyOpt (trimmedVar (GOOGLE_CLIENT_SECRET env)))
  then mkResult false None None [] 
         (Some "Google OAuth credentials not configured. Need GOOGLE_CLIENT_ID and GOOGLE_CLIENT_SECRET in environment variables.")
         0 "Google Sheets API v4 (OAuth credentials not configured)"
  else
  match trimmedVar (GOOGLE_SHEET_ID env) with
  | None | Some EmptyString =>
      mkResult false None None []
        (Some "GOOGLE_SHEET_ID not configured in environment variables.")
        0 "Google Sheets API v4 (sheet ID not configured)"
  | Some sheetId =>
      if negb (truthyOpt accessToken)
      then mkResult false None None []
             (Some "No access token provided. User needs to authenticate with Google.")
             0 "Google Sheets API v4 (no access token)"
      else
        match valuesGet sheetId "D:H" with
        | Throws thrown =>
            mkResult false None None []
              (Some ("API Error: " +++ errorMessageOf thrown))
              0 "Google Sheets API v4 OAuth (failed)"
        | Returns values =>
            let rows := match values with Some rows => rows | None => [] end in
            if List.length rows =? 0
            then mkResult false None None []
                   (Some "No data found in the spreadsheet")
                   0 "Google Sheets API v4 OAuth"
            else
              match find (rowMatches keyword) rows with
              | Some (i, row) =>
                  mkResult true (Some (i + 1)) (Some (cell 0 row))
                    (urlsOf (cell 4 row)) None
                    (List.length rows) "Google Sheets API v4 OAuth"
              | None =>
                  mkResult false None None []
                    (Some ("Keyword " +++ dquote +++ keyword +++ dquote
                             +++ " not found in column D"))
                    (List.length rows) "Google Sheets API v4 OAuth"
              end
        end
  end.

(** *** Vocabulary of the specification *)

(** Every guard before the search passes and the sheet holds [rows]. *)
Definition sheetRead (env : Env) (valuesGet : string -> string -> Response)
    (accessToken : option string) (rows : list (list string)) : Prop :=
  truthyOpt (trimmedVar (GOOGLE_CLIENT_ID env)) = true /\
  truthyOpt (trimmedVar (GOOGLE_CLIENT_SECRET env)) = true /\
  truthyOpt accessToken = true /\
  exists sheetId, trimmedVar (GOOGLE_SHEET_ID env) = Some sheetId /\
                  truthy sheetId = true /\
                  valuesGet sheetId "D:H" = Returns (Some rows).

(** Column D of [row] equals the keyword up to case. *)
Definition rowEquals (keyword : string) (row : list string) : bool :=
  String.eqb (toLowerCase (cell 0 row)) (toLowerCase keyword).

Definition sampleEnv : Env := mkEnv (Some "sheet-1") (Some "client") (Some "secret").

Definition sheetOf (rows : list (list string)) (_ _ : string) : Response :=
  Returns (Some rows).

Definition sampleRows : list (list string) :=
  [ ["Keyword"; "Volume"; "Notes"; "Owner"; "Competitors"];
    ["King mattress removal service"; "10"; ""; ""; "https://x.example/king"];
    ["Mattress Removal"; "90"; ""; ""; "a.com, b.com"] ].

(** A sheet whose only keyword merely contains the one looked up. *)
Definition partialRows : list (list string) :=
  [ ["Keyword"; "Volume"; "Notes"; "Owner"; "Competitors"];
    ["King mattress removal service"; "10"; ""; ""; "https://x.example/king"] ].

(** [row] at index [i] is the first row whose column D contains the keyword. *)
Definition firstRowAt (keyword : string) (rows : list (list string))
    (i : nat) (row : list string) : Prop :=
  nth_error rows i = Some row /\
  rowMatches keyword row = true /\
  forall j other, j < i -> nth_error rows j = Some other ->
                  rowMatches keyword other = false.

End GoogleSheets.

(** ** lib/googleSheetsPrompts.ts: the prompt resolver *)

Module GoogleSheetsPrompts.
Import Js Sheets.

Record PromptResult : Type := mkPromptResult {
  prompt : option string;
  example : option string;
  found : bool;
  error : option string
}.

Definition notFound (why : string) : PromptResult :=
  mkPromptResult None None false (Some why).

Definition mappings : list (string * string) :=
  [ ("title", "Title"); ("intro", "Intro");
    ("pic1", "Pic1"); ("pic2", "Pic2"); ("pic3", "Pic3"); ("pic4", "Pic4");
    ("pictures", "Pictures"); ("subtopics", "Subtopics");
    ("cost", "Cost"); ("why", "Why"); ("faq", "FAQ") ].

(** The value of [mappings[fieldId] || fieldId]: a string, or for the name
    of an inherited member the function or object found there. *)
Inductive Mapped : Type :=
| MappedName (name : string)
| MappedObject.

Definition mapFieldId (fieldId : string) : Mapped :=
  match recordGet mappings fieldId with
  | Own v => MappedName (orElse v fieldId)
  | Inherited => MappedObject
  | Absent => MappedName fieldId
  end.

(** The result of the search loop over the rows after the header; [None]
    when the comparison throws (the mapped value is no string).  The text
    an engine prints for such a value in the last message is not modelled:
    "[object]" stands for it. *)
Fixpoint searchRows (fieldId : string) (mappedFieldId : Mapped)
    (rows : list (list string)) : option PromptResult :=
  match rows with
  | [] =>
      Some (notFound
        ("Field " +++ dquote +++ fieldId +++ dquote +++ " (mapped to " +++ dquote
           +++ match mappedFieldId with
               | MappedName m => m
               | MappedObject => "[object]"
               end
           +++ dquote +++ ") not found in Prompts tab"))
  | row :: rows' =>
      if List.length row <? 2 then searchRows fieldId mappedFieldId rows'
      else
        match mappedFieldId with
        | MappedObject => None
        | MappedName m =>
            if String.eqb (trim (toLowerCase (cell 0 row))) (toLowerCase m)
            then
              let prompt := cell 1 row in
              let example := cell 2 row in
              if negb (truthy prompt)
              then Some (notFound ("Field " +++ dquote +++ fieldId +++ dquote
                                     +++ " found but prompt is empty"))
              else Some (mkPromptResult (Some prompt)
                           (if truthy example then Some example else None)
                           true None)
            else searchRows fieldId mappedFieldId rows'
        end
  end.

(** The message reported by the [catch] block. *)
Definition caughtMessage (thrown : option string) : string :=
  match thrown with
  | None => "Unknown error"
  | Some errorMessage =>
      if includes errorMessage "invalid_grant"
         || includes errorMessage "Token has been expired"
      then "Authentication expired. Please re-authenticate."
      else if includes errorMessage "Permission denied"
              || includes errorMessage "Forbidden"
      then "Permission denied. Ensure the sheet is shared with your account."
      else errorMessage
  end.

Definition getPromptFromSheets
    (env : Env) (valuesGet : string -> string -> Response)
    (fieldId : string) (accessToken : option string) : PromptResult :=
  if negb (truthyOpt (trimmedVar (GOOGLE_CLIENT_ID env)))
     || negb (truthyOpt (trimmedVar (GOOGLE_CLIENT_SECRET env)))
  then notFound "Google OAuth credentials not configured"
  else
  match trimmedVar (GOOGLE_SHEET_ID env) with
  | None | Some EmptyString => notFound "GOOGLE_SHEET_ID not configured"
  | Some sheetId =>
      if negb (truthyOpt accessToken)
      then notFound "No access token provided"
      else
        match valuesGet sheetId "Prompts!B:D" with
        | Throws thrown => notFound (caughtMessage thrown)
        | Returns values =>
            let rows := match values with Some rows => rows | None => [] end in
            if List.length rows =? 0
            then notFound "No data found in Prompts tab"
            else
              match searchRows fieldId (mapFieldId fieldId) (tl rows) with
              | Some result => result
              | None =>
                  notFound (caughtMessage
                              (Some "mappedFieldId.toLowerCase is not a function"))
              end
        end
  end.

(** *** Vocabulary of the specification *)

Inductive Guard : Type :=
| CredentialsUnset
| SheetIdUnset
| NoAccessToken
| RequestFailed (thrown : option string)
| SheetRead (rows : list (list string)).

(** What the guards before the search let through. *)
Definition guard (env : Env) (valuesGet : string -> string -> Response)
    (accessToken : option string) : Guard :=
  if negb (truthyOpt (trimmedVar (GOOGLE_CLIENT_ID env)))
     || negb (truthyOpt (trimmedVar (GOOGLE_CLIENT_SECRET env)))
  then CredentialsUnset
  else
  match trimmedVar (GOOGLE_SHEET_ID env) with
  | None | Some EmptyString => SheetIdUnset
  | Some sheetId =>
      if negb (truthyOpt accessToken) then NoAccessToken
      else match valuesGet sheetId "Prompts!B:D" with
           | Throws thrown => RequestFailed thrown
           | Returns values =>
               SheetRead (match values with Some rows => rows | None => [] end)
           end
  end.

(** [row] holds at least the key and the prompt column, and its key
    column, lower-cased and trimmed, equals the lower-cased [name]. *)
Definition keyedRow (name : string) (row : list string) : bool :=
  (2 <=? List.length row)
  && String.eqb (trim (toLowerCase (cell 0 row))) (toLowerCase name).

(** The key column of [row] equals [name] up to case, whatever else the
    row holds. *)
Definition keyEquals (name : string) (row : list string) : bool :=
  String.eqb (trim (toLowerCase (cell 0 row))) (toLowerCase name).

Definition emptyPromptError (fieldId : string) : string :=
  "Field " +++ dquote +++ fieldId +++ dquote +++ " found but prompt is empty".

Definition noRowError (fieldId name : string) : string :=
  "Field " +++ dquote +++ fieldId +++ dquote +++ " (mapped to " +++ dquote
    +++ name +++ dquote +++ ") not found in Prompts tab".

Definition sampleEnv : Env := mkEnv (Some "sheet-1") (Some "client") (Some "secret").

Definition sheetOf (rows : list (list string)) (_ _ : string) : Response :=
  Returns (Some rows).

Definition samplePrompts : list (list string) :=
  [ ["Field"; "Prompt"; "Example"];
    ["Title"; "Write a title for {{keyword}}"; "Fast KEYWORD pickup"];
    ["Intro"; "Introduce {{keyword}}"];
    ["Cost"];
    ["Why"; ""; "We care"];
    [" cost "; "What does KEYWORD cost?"] ].

(** A tab whose only cost row has no prompt cell: the Sheets API leaves
    trailing empty cells out of a row. *)
Definition blankCostPrompts : list (list string) :=
  [ ["Field"; "Prompt"; "Example"];
    ["Title"; "Write a title for {{keyword}}"];
    ["Cost"] ].

End GoogleSheetsPrompts.

(** ** lib/promptsFromSheets.ts: the loader of the whole Prompts tab *)

Module PromptsFromSheets.
Import Js Sheets.

(** A field id is a string of [titleMappings], or the function or object a
    title that names an inherited member finds there. *)
Inductive FieldId : Type :=
| FieldName (name : string)
| FieldObject.

Definition fieldIdEqb (a b : FieldId) : bool :=
  match a, b with
  | FieldName x, FieldName y => String.eqb x y
  | FieldObject, FieldObject => true
  | _, _ => false
  end.

Record PromptData : Type := mkPromptData {
  fieldId : FieldId;
  fieldTitle : string;
  prompt : string;
  example : string;
  isSubtitlesOnly : bool
}.

Record PromptsResult : Type := mkPromptsResult {
  prompts : list PromptData;
  error : option string;
  accessMethod : string
}.

Definition titleMappings : list (string * string) :=
  [ ("title", "title"); ("wtitle", "title");
    ("introduction", "intro"); ("intro", "intro"); ("entro", "intro");
    ("wentro", "intro");
    ("picture 1", "pic1"); ("picture 2", "pic2"); ("picture 3", "pic3");
    ("picture 4", "pic4");
    ("pic1", "pic1"); ("pic2", "pic2"); ("pic3", "pic3"); ("pic4", "pic4");
    ("wpic1", "pic1"); ("wpic2", "pic2"); ("wpic3", "pic3"); ("wpic4", "pic4");
    ("cost", "cost"); ("cost information", "cost"); ("wcost", "cost");
    ("why", "why"); ("why choose us", "why"); ("wwhy", "why");
    ("faq", "faq"); ("faqs", "faq"); ("wfaq", "faq");
    ("subtopics", "subtopics"); ("sub", "subtopics") ].

(** The row 17 restriction on a mapped id. *)
Definition restrict (isSubtitlesOnly : bool) (fieldId : string) : option FieldId :=
  if isSubtitlesOnly
  then if String.eqb fieldId "subtopics" then Some (FieldName "subtopics") else None
  else Some (FieldName fieldId).

(** The loop over [Object.entries(titleMappings)]: the first key that the
    title contains or that contains the title. *)
Fixpoint partialMatch (title : string) (entries : list (string * string))
  : option string :=
  match entries with
  | [] => None
  | (key, fieldId) :: entries' =>
      if includes title key || includes key title then Some fieldId
      else partialMatch title entries'
  end.

Definition mapFieldTitleToId (fieldTitle : string) (isSubtitlesOnly : bool)
  : option FieldId :=
  let title := trim (toLowerCase fieldTitle) in
  match recordGet titleMappings title with
  | Own fieldId => restrict isSubtitlesOnly fieldId
  | Inherited => if isSubtitlesOnly then None else Some FieldObject
  | Absent =>
      match partialMatch title titleMappings with
      | Some fieldId => restrict isSubtitlesOnly fieldId
      | None => None
      end
  end.

Definition pictureFields : list string := ["pic1"; "pic2"; "pic3"; "pic4"].

(** [pictureFields.includes(fieldMapping)] *)
Definition isPictureField (fieldMapping : FieldId) : bool :=
  match fieldMapping with
  | FieldName name => arrayIncludes pictureFields name
  | FieldObject => false
  end.

(** The row is skipped as empty: no title or no prompt once trimmed. *)
Definition blankRow (row : list string) : bool :=
  negb (truthy (trim (cell 0 row))) || negb (truthy (trim (cell 1 row))).

(** The entries pushed on [prompts] by the rows from index [i] on. *)
Fixpoint processRows (i : nat) (rows : list (list string)) : list PromptData :=
  match rows with
  | [] => []
  | row :: rows' =>
      let fieldTitle := cell 0 row in
      let prompt := cell 1 row in
      let example := cell 2 row in
      if blankRow row then processRows (S i) rows'
      else
        let isSubtitlesOnly := (i + 1 =? 17) in
        if i + 1 =? 13
        then map (fun picField =>
                    mkPromptData (FieldName picField) picField
                                 (trim prompt) (trim example) false)
                 pictureFields
             ++ processRows (S i) rows'
        else
          match mapFieldTitleToId fieldTitle isSubtitlesOnly with
          | Some fieldMapping =>
              if isPictureField fieldMapping then processRows (S i) rows'
              else mkPromptData fieldMapping (trim fieldTitle) (trim prompt)
                                (trim example) isSubtitlesOnly
                   :: processRows (S i) rows'
          | None => processRows (S i) rows'
          end
  end.

(** The module reads the environment variables as they are.  The token is
    refreshed by [getValidAccessToken] before the request; the request's
    outcome is [valuesGet]'s whichever token it is made with. *)
Definition getPromptsFromSheet
    (env : Env) (valuesGet : string -> string -> Response)
    (accessToken : option string) : PromptsResult :=
  if negb (truthyOpt (GOOGLE_CLIENT_ID env))
     || negb (truthyOpt (GOOGLE_CLIENT_SECRET env))
  then mkPromptsResult []
         (Some "Google OAuth credentials not configured. Need GOOGLE_CLIENT_ID and GOOGLE_CLIENT_SECRET in environment variables.")
         "Google Sheets API v4 (OAuth credentials not configured)"
  else
  match GOOGLE_SHEET_ID env with
  | None | Some EmptyString =>
      mkPromptsResult []
        (Some "GOOGLE_SHEET_ID not configured in environment variables.")
        "Google Sheets API v4 (sheet ID not configured)"
  | Some sheetId =>
      if negb (truthyOpt accessToken)
      then mkPromptsResult []
             (Some "No access token provided. User needs to authenticate with Google.")
             "Google Sheets API v4 (no access token)"
      else
        match valuesGet sheetId "Prompts!B:D" with
        | Throws thrown =>
            mkPromptsResult [] (Some ("API Error: " +++ errorMessageOf thrown))
              "Google Sheets API v4 OAuth (failed)"
        | Returns values =>
            let rows := match values with Some rows => rows | None => [] end in
            if List.length rows =? 0
            then mkPromptsResult [] (Some "No data found in the Prompts sheet")
                   "Google Sheets API v4 OAuth"
            else mkPromptsResult (processRows 0 rows) None "Google Sheets API v4 OAuth"
        end
  end.

(** *** Vocabulary of the specification *)

(** The rows the loop runs over: those of the tab when the guards pass and
    the request succeeds, none otherwise. *)
Definition rowsRead (env : Env) (valuesGet : string -> string -> Response)
    (accessToken : option string) : list (list string) :=
  if negb (truthyOpt (GOOGLE_CLIENT_ID env))
     || negb (truthyOpt (GOOGLE_CLIENT_SECRET env))
  then []
  else
  match GOOGLE_SHEET_ID env with
  | None | Some EmptyString => []
  | Some sheetId =>
      if negb (truthyOpt accessToken) then []
      else match valuesGet sheetId "Prompts!B:D" with
           | Returns (Some rows) => rows
           | _ => []
           end
  end.

(** The entries for [id] that do not carry the row 17 mark. *)
Definition nonSentinel (id : FieldId) (entry : PromptData) : bool :=
  fieldIdEqb (fieldId entry) id && negb (isSubtitlesOnly entry).

Definition nonSentinelCount (id : FieldId) (entries : list PromptData) : nat :=
  List.length (filter (nonSentinel id) entries).

(** The number of filled rows at sheet row 13, from index [i] on: the rows
    that fan out. *)
Fixpoint fanOutRows (i : nat) (rows : list (list string)) : nat :=
  match rows with
  | [] => 0
  | row :: rows' =>
      (if negb (blankRow row) && (i + 1 =? 13) then 1 else 0) + fanOutRows (S i) rows'
  end.

(** The number of filled rows, other than rows 13 and 17, whose title
    maps to [id], from index [i] on. *)
Fixpoint rowsMappedTo (id : FieldId) (i : nat) (rows : list (list string)) : nat :=
  match rows with
  | [] => 0
  | row :: rows' =>
      (if negb (blankRow row) && negb (i + 1 =? 13) && negb (i + 1 =? 17)
       then match mapFieldTitleToId (cell 0 row) false with
            | Some mapped => if fieldIdEqb mapped id then 1 else 0
            | None => 0
            end
       else 0)
      + rowsMappedTo id (S i) rows'
  end.

Definition sampleEnv : Env := mkEnv (Some "sheet-1") (Some "client") (Some "secret").

Definition sheetOf (rows : list (list string)) (_ _ : string) : Response :=
  Returns (Some rows).

(** A tab with a header and two rows for the title, one per flow. *)
Definition twoTitleRows : list (list string) :=
  [ ["Field"; "Prompt"; "Example"];
    ["Title (no subtopics)"; "Write a title for {{keyword}}"; "Fast KEYWORD pickup"];
    ["Title (with subtopics)"; "Write a title that covers the subtopics of {{keyword}}"] ].

End PromptsFromSheets.

(** ** app/api/generate/[box]/route.ts: the single-field generator *)

Module GenerateBox.
Import Js.

(** *** Keyword placeholders *)

(** [/{{keyword}}/gi] *)
Definition keywordBracesAnyCase : Matcher :=
  fun _ s => if String.prefix "{{keyword}}" (toLowerCase s) then 11 else 0.

(** [/{{KEYWORD}}/g] *)
Definition keywordBracesUpper : Matcher :=
  fun _ s => if String.prefix "{{KEYWORD}}" s then 11 else 0.

Definition isWordBefore (prev : option ascii) : bool :=
  match prev with Some c => isWordChar c | None => false end.

Definition isWordAt (n : nat) (s : string) : bool :=
  match String.get n s with Some c => isWordChar c | None => false end.

(** [/\bKEYWORD\b/g] *)
Definition keywordWord : Matcher :=
  fun prev s =>
    if String.prefix "KEYWORD" s && negb (isWordBefore prev) && negb (isWordAt 7 s)
    then 7 else 0.

(** The three replacements applied to the prompt, to the example and to
    the generated content. *)
Definition substituteKeyword (text keyword : string) : string :=
  replaceAll keywordWord keyword
    (replaceAll keywordBracesUpper keyword
       (replaceAll keywordBracesAnyCase keyword text)).

(** *** Vocabulary of the specification of the substitution *)

(** A keyword that the replacement takes literally and that cannot form a
    placeholder with the text around it: no dollar sign, no brace, not a
    part of the word keyword in any case, and without the word KEYWORD. *)
Definition plainKeyword (keyword : string) : bool :=
  negb (hasChar "$"%char keyword)
  && negb (hasChar "{"%char keyword)
  && negb (hasChar "}"%char keyword)
  && negb (includes "keyword" (toLowerCase keyword))
  && negb (includes keyword "KEYWORD").

(** The parts of the placeholder in braces: its [n] characters from
    offset [i]. *)
Definition placeholderPart (i n : nat) : string :=
  takeString n (dropString i "{{keyword}}").

(** Each part of the placeholder is empty, holds a brace, or is a part of
    the word keyword. *)
Definition partChecked (i n : nat) : bool :=
  let part := placeholderPart i n in
  (String.length part =? 0) || hasChar "{"%char part || hasChar "}"%char part
  || includes "keyword" part.

Definition partsChecked : bool :=
  forallb (fun i => forallb (partChecked i) (seq 0 12)) (seq 0 11).

(** *** Title case *)

Definition smallWords : list string :=
  ["a"; "an"; "the"; "and"; "or"; "but"; "in"; "on"; "at"; "to"; "for"; "of";
   "with"; "by"].

Definition capitalize (word : string) : string :=
  toUpperCase (charAt0 word) +++ toLowerCase (slice1 word).

(** The callback of [map] in the title branch: [content] is the whole
    text, searched for the word. *)
Definition titleWord (content word : string) : string :=
  if arrayIncludes smallWords (toLowerCase word) && (0 <? indexOf content word)%Z
  then toLowerCase word
  else capitalize word.

Definition capitalizeFirst (content : string) : string :=
  if 0 <? String.length content
  then toUpperCase (charAt0 content) +++ slice1 content
  else content.

Definition applyTitleCase (content : string) : string :=
  capitalizeFirst (join " " (map (titleWord content) (split " "%char content))).

(** The end of [generateContentWithOpenAI], from the content with its
    markdown marks removed. *)
Definition finishContent (fieldId keyword content : string) : string :=
  let content := substituteKeyword content keyword in
  if String.eqb fieldId "title" then applyTitleCase content else content.

(** *** The handler *)

Record Request : Type := mkRequest {
  keyword : Value;
  flow : Value;
  accessToken : option string
}.

Inductive Body : Type :=
| ErrorBody (error : string)
| OutputBody (output fieldId flow : string).

Record Response : Type := mkResponse {
  status : nat;
  body : Body
}.

Definition validFields : list string :=
  ["title"; "intro"; "pic1"; "pic2"; "pic3"; "pic4"; "subtopics"; "cost"; "why"; "faq"].

(** [!keyword || typeof keyword !== 'string' || keyword.trim().length === 0] *)
Definition keywordRejected (keyword : Value) : bool :=
  match keyword with
  | VString s => negb (truthy s) || (String.length (trim s) =? 0)
  | _ => true
  end.

(** [!flow || (flow !== 'with subtopics' && flow !== 'no subtopics')] *)
Definition flowRejected (flow : Value) : bool :=
  match flow with
  | VString s =>
      negb (truthy s)
      || (negb (String.eqb s "with subtopics") && negb (String.eqb s "no subtopics"))
  | _ => true
  end.

Definition stringOf (v : Value) : string :=
  match v with VString s => s | _ => EmptyString end.

(** [draft fieldId keyword flow prompt example] is the completion of the
    language model for the prompt built from these, with its markdown marks
    removed and trimmed; [None] when the call throws. *)
Definition POST
    (OPENAI_API_KEY : option string)
    (sheetsEnv : Sheets.Env) (valuesGet : string -> string -> Sheets.Response)
    (draft : string -> string -> string -> string -> option string -> option string)
    (box : string) (request : Request) : Response :=
  let fieldId := box in
  if keywordRejected (keyword request)
  then mkResponse 400 (ErrorBody "Keyword is required and must be a non-empty string")
  else if flowRejected (flow request)
  then mkResponse 400
         (ErrorBody ("Invalid flow. Must be " +++ dquote +++ "with subtopics" +++ dquote
                       +++ " or " +++ dquote +++ "no subtopics" +++ dquote))
  else if negb (arrayIncludes validFields fieldId)
  then mkResponse 400 (ErrorBody ("Invalid field " +++ dquote +++ fieldId +++ dquote))
  else if String.eqb fieldId "subtopics"
          && negb (String.eqb (stringOf (flow request)) "with subtopics")
  then mkResponse 400
         (ErrorBody ("Subtopics field is only available for " +++ dquote
                       +++ "with subtopics" +++ dquote +++ " classification"))
  else if negb (truthyOpt OPENAI_API_KEY)
  then mkResponse 500 (ErrorBody "OpenAI API key not configured")
  else if negb (truthyOpt (accessToken request))
  then mkResponse 401
         (ErrorBody "Authentication required. Please authenticate with Google to access prompts.")
  else
    let promptResult :=
      GoogleSheetsPrompts.getPromptFromSheets sheetsEnv valuesGet fieldId
        (accessToken request) in
    match GoogleSheetsPrompts.found promptResult, GoogleSheetsPrompts.prompt promptResult with
    | true, Some (String c p as prompt) =>
        let keyword := stringOf (keyword request) in
        let flow := stringOf (flow request) in
        match draft fieldId keyword flow prompt (GoogleSheetsPrompts.example promptResult) with
        | Some content =>
            mkResponse 200 (OutputBody (finishContent fieldId keyword content) fieldId flow)
        | None =>
            mkResponse 500 (ErrorBody "Internal server error during content generation")
        end
    | _, _ =>
        mkResponse 404
          (ErrorBody
             (match GoogleSheetsPrompts.error promptResult with
              | Some (String c e as error) => error
              | _ => "No prompt found for field " +++ dquote +++ fieldId +++ dquote
                       +++ ". Please ensure this field has a prompt in the Prompts tab."
              end))
    end.

End GenerateBox.

(** ** app/api/generate/all/route.ts: the bulk generator *)

Module GenerateAll.
Import Js.

Inductive Body : Type :=
| ErrorBody (error : string)
| SummaryBody (results : list (string * option string))
              (errors : option (list (string * string)))
              (flow : string) (fieldCount successCount : nat).

Record Response : Type := mkResponse {
  status : nat;
  body : Body
}.

(** The outcome of one [fetch] of a field endpoint followed by
    [response.json()]: either throws, or there is a response. *)
Inductive Fetched : Type :=
| FetchThrows (message : option string)
| FetchReturns (response : GenerateBox.Response).

Definition withSubtopicsFields : list string :=
  ["wtitle"; "wentro"; "wpic1"; "wpic2"; "wpic3"; "wpic4"; "sub"; "wcost"; "wwhy"; "wfaq"].

Definition noSubtopicsFields : list string :=
  ["title"; "entro"; "pic1"; "pic2"; "pic3"; "pic4"; "cost"; "why"; "faq"].

Definition fieldIdsOf (flow : string) : list string :=
  if String.eqb flow "with subtopics" then withSubtopicsFields else noSubtopicsFields.

(** [response.ok] *)
Definition ok (response : GenerateBox.Response) : bool :=
  (200 <=? GenerateBox.status response) && (GenerateBox.status response <=? 299).

(** One turn of the loop, on the pair of [results] and [errors]; a result
    is [None] when the body of an accepted response has no output. *)
Definition step (fetch : string -> GenerateBox.Request -> Fetched)
    (request : GenerateBox.Request)
    (state : list (string * option string) * list (string * string))
    (fieldId : string)
  : list (string * option string) * list (string * string) :=
  let '(results, errors) := state in
  match fetch fieldId request with
  | FetchReturns response =>
      match GenerateBox.body response with
      | GenerateBox.OutputBody output _ _ =>
          if ok response then (recordSet fieldId (Some output) results, errors)
          else (results, recordSet fieldId "Generation failed" errors)
      | GenerateBox.ErrorBody error =>
          if ok response then (recordSet fieldId None results, errors)
          else (results, recordSet fieldId (orElse error "Generation failed") errors)
      end
  | FetchThrows (Some message) => (results, recordSet fieldId message errors)
  | FetchThrows None => (results, recordSet fieldId "Unknown error" errors)
  end.

Definition POST (fetch : string -> GenerateBox.Request -> Fetched)
    (request : GenerateBox.Request) : Response :=
  if GenerateBox.keywordRejected (GenerateBox.keyword request)
  then mkResponse 400 (ErrorBody "Keyword is required and must be a non-empty string")
  else if GenerateBox.flowRejected (GenerateBox.flow request)
  then mkResponse 400
         (ErrorBody ("Invalid flow. Must be " +++ dquote +++ "with subtopics" +++ dquote
                       +++ " or " +++ dquote +++ "no subtopics" +++ dquote))
  else
    let flow := GenerateBox.stringOf (GenerateBox.flow request) in
    let fieldIds := fieldIdsOf flow in
    let '(results, errors) := fold_left (step fetch request) fieldIds ([], []) in
    mkResponse 200
      (SummaryBody results
         (if 0 <? List.length errors then Some errors else None)
         flow (List.length fieldIds) (List.length results)).

(** The deployment in which the request to [/api/generate/{fieldId}]
    reaches the single-field handler of this application, unless the
    request itself fails: [outage fieldId] is then what [fetch] throws. *)
Definition ownFetch
    (outage : string -> option (option string))
    (OPENAI_API_KEY : option string)
    (sheetsEnv : Sheets.Env) (valuesGet : string -> string -> Sheets.Response)
    (draft : string -> string -> string -> string -> option string -> option string)
    (fieldId : string) (request : GenerateBox.Request) : Fetched :=
  match outage fieldId with
  | Some thrown => FetchThrows thrown
  | None =>
      FetchReturns
        (GenerateBox.POST OPENAI_API_KEY sheetsEnv valuesGet draft fieldId request)
  end.

Definition sampleRequest (flow : string) : GenerateBox.Request :=
  GenerateBox.mkRequest (VString "mattress removal") (VString flow) (Some "token").

(** A deployment with a key, the sample Prompts tab, a language model
    that always answers the same, and a network that fails for one field. *)
Definition sampleDraft (_ _ _ _ : string) (_ : option string) : option string :=
  Some "the cost of KEYWORD in the city".

Definition sampleOutage (fieldId : string) : option (option string) :=
  if String.eqb fieldId "wcost" then Some (Some "fetch failed") else None.

Definition sampleFetch : string -> GenerateBox.Request -> Fetched :=
  ownFetch sampleOutage (Some "sk-test") GoogleSheetsPrompts.sampleEnv
    (GoogleSheetsPrompts.sheetOf GoogleSheetsPrompts.samplePrompts) sampleDraft.

End GenerateAll.

(** ** app/api/generate/pictures/route.ts: the picture batch *)

Module GeneratePictures.
Import Js.

Record Combination : Type := mkCombination {
  title : string;
  summary : string
}.

Record Outputs : Type := mkOutputs {
  pic1 : string;
  pic2 : string;
  pic3 : string;
  pic4 : string
}.

Inductive Body : Type :=
| ErrorBody (error : string)
| OutputsBody (outputs : Outputs) (totalCombinations : nat)
              (selectedIndices : list nat).

Record Response : Type := mkResponse {
  status : nat;
  body : Body
}.

(** *** Title case of the first line *)

Definition titleWord (index : nat) (word : string) : string :=
  if arrayIncludes GenerateBox.smallWords (toLowerCase word) && (0 <? index)
  then toLowerCase word
  else GenerateBox.capitalize word.

(** [words.map((word, index) => ...)] from index [i] on. *)
Fixpoint mapIndexed {A B} (f : nat -> A -> B) (i : nat) (l : list A) : list B :=
  match l with
  | [] => []
  | x :: l' => f i x :: mapIndexed f (S i) l'
  end.

Definition titleCaseLine (line : string) : string :=
  GenerateBox.capitalizeFirst
    (join " " (mapIndexed titleWord 0 (split " "%char line))).

Definition newline : ascii := ascii_of_nat 10.

(** The loop over the keys of [pictureOutputs], for one output. *)
Definition properCase (output : string) : string :=
  match split newline output with
  | first :: others => join nl (titleCaseLine first :: others)
  | [] => output
  end.

(** *** Selection *)

(** [Math.floor(r * bound)] for a draw [r] of [Math.random()]. *)
Definition randomIndex (bound : nat) (r : Q) : nat :=
  Z.to_nat (Qfloor (r * inject_Z (Z.of_nat bound))).

(** [selectedIndices.add(i)]: a set keeps its elements in insertion order. *)
Definition setAdd (i : nat) (selected : list nat) : list nat :=
  if existsb (Nat.eqb i) selected then selected else selected ++ [i].

(** The [while] loop on the draws [Math.random()] returns one after the
    other; [None] when the loop is still running after the last of them. *)
Fixpoint selectIndices (count : nat) (draws : list Q) (selected : list nat)
  : option (list nat) :=
  if (List.length selected <? 4) && (List.length selected <? count)
  then match draws with
       | [] => None
       | r :: draws' =>
           selectIndices count draws' (setAdd (randomIndex (Nat.min count 13) r) selected)
       end
  else Some selected.

Definition formatted (c : Combination) : string :=
  title c +++ nl +++ summary c.

(** The handler from the point where [combinations] has been parsed from
    the completion.  [None]: the selection loop is still running after the
    given draws. *)
Definition respond (combinations : list Combination) (draws : list Q)
  : option Response :=
  if List.length combinations <? 4
  then Some (mkResponse 500
               (ErrorBody ("Only found " +++ numberToString (Z.of_nat (List.length combinations))
                             +++ " combinations. Need at least 4. Response may not be in expected format.")))
  else
    match selectIndices (List.length combinations) draws [] with
    | None => None
    | Some selectedIndices =>
        match map (fun i => nth_error combinations i) selectedIndices with
        | Some c0 :: Some c1 :: Some c2 :: Some c3 :: _ =>
            Some (mkResponse 200
                    (OutputsBody
                       (mkOutputs (properCase (formatted c0)) (properCase (formatted c1))
                                  (properCase (formatted c2)) (properCase (formatted c3)))
                       (List.length combinations) selectedIndices))
        | _ =>
            Some (mkResponse 500
                    (ErrorBody "Internal server error during pictures generation"))
        end
    end.

(** *** Vocabulary of the specification *)

(** Each draw is a value of [Math.random()]: at least 0 and below 1. *)
Definition unitDraws (draws : list Q) : Prop :=
  Forall (fun r => (0 <= r)%Q /\ (r < 1)%Q) draws.

(** The draws hit at least four different indices. *)
Definition fourDistinct (count : nat) (draws : list Q) : Prop :=
  4 <= List.length (nodup Nat.eq_dec (map (randomIndex (Nat.min count 13)) draws)).

(** The response carries the four outputs built from the combinations at
    the indices [i1] to [i4]. *)
Definition carries (combinations : list Combination) (response : Response)
    (i1 i2 i3 i4 : nat) : Prop :=
  exists c1 c2 c3 c4,
    nth_error combinations i1 = Some c1 /\ nth_error combinations i2 = Some c2 /\
    nth_error combinations i3 = Some c3 /\ nth_error combinations i4 = Some c4 /\
    response =
      mkResponse 200
        (OutputsBody
           (mkOutputs (properCase (formatted c1)) (properCase (formatted c2))
                      (properCase (formatted c3)) (properCase (formatted c4)))
           (List.length combinations) [i1; i2; i3; i4]).

(** What the loop maintains about the set of selected indices. *)
Definition selection (bound : nat) (selected : list nat) : Prop :=
  NoDup selected /\ List.length selected <= 4 /\
  Forall (fun i => i < bound) selected.

Definition sampleCombinations : list Combination :=
  [ mkCombination "fast pickup for the home" "We arrive the same day.";
    mkCombination "Licensed and insured" "Every crew is covered.";
    mkCombination "Upfront pricing" "No hidden fees.";
    mkCombination "Local team" "Family owned since 1999.";
    mkCombination "Weekend slots" "Book a Saturday." ].

Definition sampleDraws : list Q :=
  [ 3 # 10; 3 # 10; 9 # 10; 0; 1 # 2; 7 # 10 ]%Q.

End GeneratePictures.

(** ** lib/promptsFromSheets.ts: the prompt of one field *)

Module PromptForField.
Import Js Sheets PromptsFromSheets.

Record FieldPrompt : Type := mkFieldPrompt {
  fieldPrompt : string;
  fieldExample : string;
  fieldError : option string
}.

(** The callback of [find]: an entry with the row 17 mark counts in the
    with subtopics flow only. *)
Definition serves (fieldId : string) (flow : GoogleDoc.Category) (p : PromptData) : bool :=
  if isSubtitlesOnly p
  then match flow with
       | GoogleDoc.WithSubtopics => fieldIdEqb (PromptsFromSheets.fieldId p) (FieldName fieldId)
       | GoogleDoc.NoSubtopics => false
       end
  else fieldIdEqb (PromptsFromSheets.fieldId p) (FieldName fieldId).

Definition getPromptForField
    (env : Env) (valuesGet : string -> string -> Response)
    (fieldId : string) (flow : GoogleDoc.Category) (accessToken : option string)
  : FieldPrompt :=
  let result := getPromptsFromSheet env valuesGet accessToken in
  if truthyOpt (error result)
  then mkFieldPrompt EmptyString EmptyString (error result)
  else
    match find (serves fieldId flow) (prompts result) with
    | None =>
        mkFieldPrompt EmptyString EmptyString
          (Some ("No prompt found for field " +++ dquote +++ fieldId +++ dquote
                   +++ " in flow " +++ dquote +++ GoogleDoc.categoryName flow +++ dquote))
    | Some (_, promptData) =>
        mkFieldPrompt (prompt promptData) (example promptData) None
    end.

(** *** Vocabulary of the specification *)

(** What every entry of the loaded list satisfies. *)
Definition wellFormed (entry : PromptData) : Prop :=
  prompt entry <> EmptyString /\
  trim (prompt entry) = prompt entry /\
  trim (example entry) = example entry /\
  fieldTitle entry <> EmptyString /\
  (isSubtitlesOnly entry = true -> PromptsFromSheets.fieldId entry = FieldName "subtopics") /\
  (isPictureField (PromptsFromSheets.fieldId entry) = true ->
     isSubtitlesOnly entry = false /\
     fieldTitle entry = match PromptsFromSheets.fieldId entry with
                        | FieldName name => name
                        | FieldObject => EmptyString
                        end).

(** The prompt and the example of row 13 of the tab, trimmed, when that
    row is filled; [i] is the index of the first of [rows]. *)
Fixpoint fanOutPrompt (i : nat) (rows : list (list string)) : option (string * string) :=
  match rows with
  | [] => None
  | row :: rows' =>
      if negb (blankRow row) && (i + 1 =? 13)
      then Some (trim (cell 1 row), trim (cell 2 row))
      else fanOutPrompt (S i) rows'
  end.

(** The prompt and the example of a found entry. *)
Definition served (found : option (nat * PromptData)) : option (string * string) :=
  match found with
  | Some (_, p) => Some (prompt p, example p)
  | None => None
  end.

(** A tab whose rows 13 and 17 are filled: sixteen rows, the thirteenth
    being the shared picture prompt, then the subtopics prompt. *)
Definition fullTab : list (list string) :=
  [ ["Field"; "Prompt"; "Example"];
    ["Title"; "Write a title for {{keyword}}"; "Fast KEYWORD pickup"];
    ["Intro"; "Introduce {{keyword}}"];
    ["Pic1"; "An old prompt for the first picture"];
    []; []; []; []; []; []; []; [];
    ["Pictures"; " Give 13 titles and summaries for KEYWORD "; "Title: summary"];
    ["Cost"; "What does KEYWORD cost?"];
    ["Why"; "Why choose us for KEYWORD?"];
    ["FAQ"; "Questions about KEYWORD"];
    ["Subtopics"; "Cover each subtopic of KEYWORD"] ].

End PromptForField.

(** ** app/api/competitors/route.ts: the competitor endpoint *)

Module CompetitorsRoute.
Import Js Sheets.

Inductive Body : Type :=
| ErrorBody (error : string)
| LookupBody (found : bool) (competitorUrls : list string)
             (matchedKeyword : option string) (rowNumber : option nat)
             (error : option string).

Record Response : Type := mkResponse {
  status : nat;
  body : Body
}.

(** [request] is the parsed body, [None] when [req.json()] throws or the
    body is no object. *)
Definition POST
    (env : Env) (valuesGet : string -> string -> Sheets.Response)
    (request : option (Value * option string)) : Response :=
  match request with
  | None => mkResponse 500 (ErrorBody "Internal server error during competitor lookup")
  | Some (keyword, accessToken) =>
      if GenerateBox.keywordRejected keyword
      then mkResponse 400 (ErrorBody "Keyword is required and must be a non-empty string")
      else
        let result :=
          GoogleSheets.getCompetitorUrlsFromSheets env valuesGet
            (GenerateBox.stringOf keyword) accessToken in
        mkResponse 200
          (LookupBody (GoogleSheets.found result) (GoogleSheets.competitorUrls result)
                      (GoogleSheets.keywordCell result) (GoogleSheets.rowNumber result)
                      (GoogleSheets.error result))
  end.

(** *** Vocabulary of the facts about the lookup *)

(** A URL as the lookup hands it on: not empty, without white space at
    either end, free of the characters that separate URLs in a cell, and
    starting with http or holding a dot. *)
Definition cleanUrl (url : string) : Prop :=
  url <> EmptyString /\
  trim url = url /\
  (forall c, GoogleSheets.isUrlSeparator c = true -> hasChar c url = false) /\
  (startsWith url "http" = true \/ includes url "." = true).

(** What a result of the lookup always satisfies. *)
Definition consistent (found : bool) (competitorUrls : list string)
    (matchedKeyword : option string) (rowNumber : option nat)
    (error : option string) : Prop :=
  (found = true <-> error = None) /\
  (found = false ->
     competitorUrls = [] /\ matchedKeyword = None /\ rowNumber = None) /\
  (found = true ->
     (exists cellD, matchedKeyword = Some cellD) /\
     (exists n, rowNumber = Some n /\ 1 <= n)) /\
  Forall cleanUrl competitorUrls.

End CompetitorsRoute.

(** ** lib/apiKeys.ts and lib/startupValidation.ts: the configuration *)

Module ApiKeys.
Import Js.

(** [process.env]: the value of a variable, when it is set. *)
Definition Env : Type := string -> option string.

(** [process.env.X || d] *)
Definition orDefault (v : option string) (d : string) : string :=
  match v with Some s => orElse s d | None => d end.

Record ApiKeys : Type := mkApiKeys {
  anthropicApiKey : string;
  anthropicModel : string;
  freepikApiKey : string;
  freepikWebhookSecret : string;
  freepikImageModel : string;
  freepikAspectRatio : string;
  googleDocUrl : string;
  appPassword : option string;
  appOriginAllowlist : option string;
  appPublicUrl : string
}.

Definition requiredKeys (env : Env) : ApiKeys :=
  mkApiKeys
    (orDefault (env "ANTHROPIC_API_KEY") EmptyString)
    (orDefault (env "ANTHROPIC_MODEL") "claude-3-5-sonnet-20241022")
    (orDefault (env "FREEPIK_API_KEY") EmptyString)
    (orDefault (env "FREEPIK_WEBHOOK_SECRET") EmptyString)
    (orDefault (env "FREEPIK_IMAGE_MODEL") "imagen nano banana")
    (orDefault (env "FREEPIK_ASPECT_RATIO") "original")
    (orDefault (env "GOOGLE_DOC_URL") EmptyString)
    (env "APP_PASSWORD")
    (env "ORIGIN_ALLOWLIST")
    (orDefault (env "NEXT_PUBLIC_APP_URL") "http://localhost:3000").

(** [if (!value) missingKeys.push(name)] *)
Definition pushMissing (value name : string) (missingKeys : list string) : list string :=
  if negb (truthy value) then missingKeys ++ [name] else missingKeys.

Definition missingKeys (keys : ApiKeys) : list string :=
  pushMissing (googleDocUrl keys) "GOOGLE_DOC_URL"
    (pushMissing (freepikWebhookSecret keys) "FREEPIK_WEBHOOK_SECRET"
       (pushMissing (freepikApiKey keys) "FREEPIK_API_KEY"
          (pushMissing (anthropicApiKey keys) "ANTHROPIC_API_KEY" []))).

(** The outcome of a call that may throw an [Error]. *)
Inductive Outcome (A : Type) : Type :=
| Thrown (message : string)
| Returned (value : A).
Arguments Thrown {A} message.
Arguments Returned {A} value.

Definition missingMessage (missing : list string) : string :=
  "Missing required environment variables: " +++ join ", " missing +++ nl
    +++ "Please check your .env.local file and ensure all required keys are set.".

Definition getApiKeys (env : Env) : Outcome ApiKeys :=
  let keys := requiredKeys env in
  let missing := missingKeys keys in
  if 0 <? List.length missing then Thrown (missingMessage missing) else Returned keys.

(** [keyof ApiKeys] *)
Inductive KeyName : Type := anthropic | freepik | google | app.

(** The own properties of [keys[keyName]]; [None] is [undefined]. *)
Definition section (keys : ApiKeys) (keyName : KeyName) : list (string * option string) :=
  match keyName with
  | anthropic => [("apiKey", Some (anthropicApiKey keys)); ("model", Some (anthropicModel keys))]
  | freepik => [("apiKey", Some (freepikApiKey keys));
                ("webhookSecret", Some (freepikWebhookSecret keys));
                ("imageModel", Some (freepikImageModel keys));
                ("aspectRatio", Some (freepikAspectRatio keys))]
  | google => [("docUrl", Some (googleDocUrl keys))]
  | app => [("password", appPassword keys);
            ("originAllowlist", appOriginAllowlist keys);
            ("publicUrl", Some (appPublicUrl keys))]
  end.

Fixpoint ownValue (table : list (string * option string)) (key : string)
  : option (option string) :=
  match table with
  | [] => None
  | (k, v) :: table' => if String.eqb k key then Some v else ownValue table' key
  end.

(** [!!(keys[keyName] as any)[subKey]]: an inherited member is a function
    or an object. *)
Definition memberTruthy (table : list (string * option string)) (subKey : string) : bool :=
  match ownValue table subKey with
  | Some v => truthyOpt v
  | None => arrayIncludes objectPrototypeKeys subKey
  end.

Definition validateApiKey (env : Env) (keyName : KeyName) (subKey : option string) : bool :=
  match getApiKeys env with
  | Thrown _ => false
  | Returned keys =>
      if truthyOpt subKey
      then memberTruthy (section keys keyName)
             (match subKey with Some s => s | None => EmptyString end)
      else true
  end.

(** *** startupValidation *)

Record Validation : Type := mkValidation {
  isValid : bool;
  errors : list string;
  warnings : list string
}.

(** [if (!process.env[name]) warnings.push(warning)] *)
Definition pushWarning (env : Env) (name warning : string) (warnings : list string)
  : list string :=
  if negb (truthyOpt (env name)) then warnings ++ [warning] else warnings.

Definition validateStartupKeys (env : Env) : Validation :=
  match getApiKeys env with
  | Returned _ =>
      mkValidation true []
        (pushWarning env "FREEPIK_ASPECT_RATIO"
           "FREEPIK_ASPECT_RATIO not set - using default aspect ratio"
        (pushWarning env "FREEPIK_IMAGE_MODEL"
           "FREEPIK_IMAGE_MODEL not set - using default model"
        (pushWarning env "ANTHROPIC_MODEL"
           "ANTHROPIC_MODEL not set - using default model"
        (pushWarning env "ORIGIN_ALLOWLIST"
           "ORIGIN_ALLOWLIST not set - CORS restrictions disabled"
        (pushWarning env "APP_PASSWORD"
           "APP_PASSWORD not set - authentication disabled" [])))))
  | Thrown errorMessage => mkValidation false [errorMessage] []
  end.

Inductive KeyType : Type := required | optional.

Record KeyStatus : Type := mkKeyStatus {
  configured : bool;
  type : KeyType
}.

Definition statusOf (env : Env) (name : string) (type : KeyType) : string * KeyStatus :=
  (name, mkKeyStatus (truthyOpt (env name)) type).

Definition getKeyStatus (env : Env) : list (string * KeyStatus) :=
  [ statusOf env "ANTHROPIC_API_KEY" required;
    statusOf env "FREEPIK_API_KEY" required;
    statusOf env "FREEPIK_WEBHOOK_SECRET" required;
    statusOf env "GOOGLE_DOC_URL" required;
    statusOf env "APP_PASSWORD" optional;
    statusOf env "ORIGIN_ALLOWLIST" optional;
    statusOf env "ANTHROPIC_MODEL" optional;
    statusOf env "FREEPIK_IMAGE_MODEL" optional;
    statusOf env "FREEPIK_ASPECT_RATIO" optional ].

(** *** Vocabulary of the facts about the configuration *)

Definition isRequired (entry : string * KeyStatus) : bool :=
  match type (snd entry) with required => true | optional => false end.

(** The names that [getKeyStatus] reports with the given type and as not
    configured, in its order. *)
Definition unconfigured (env : Env) (wanted : bool) : list string :=
  map fst (filter (fun entry => Bool.eqb (isRequired entry) wanted
                                && negb (configured (snd entry)))
                  (getKeyStatus env)).

(** An environment from a list of settings. *)
Definition envOf (settings : list (string * string)) : Env := ownProperty settings.

(** [env] with the variable [name] set to [value]. *)
Definition withSetting (name value : string) (env : Env) : Env :=
  fun asked => if String.eqb asked name then Some value else env asked.

Definition sampleSettings : list (string * string) :=
  [ ("ANTHROPIC_API_KEY", "sk-ant"); ("FREEPIK_API_KEY", "fp");
    ("FREEPIK_WEBHOOK_SECRET", "whs");
    ("GOOGLE_DOC_URL", "https://docs.google.com/document/d/doc-1/edit");
    ("GOOGLE_DOC_ID", "doc-1");
    ("GOOGLE_CLIENT_ID", "client"); ("GOOGLE_CLIENT_SECRET", "secret") ].

End ApiKeys.

(** ** app/api/classify/route.ts: the classification endpoint *)

Module ClassifyRoute.
Import Js.

Inductive Body : Type :=
| ErrorBody (error : string)
| ResultBody (result : GoogleDoc.ClassificationResult).

Record Response : Type := mkResponse {
  status : nat;
  body : Body
}.

(** The variables [lib/googleDoc.ts] reads from [process.env]. *)
Definition docEnv (env : ApiKeys.Env) : GoogleDoc.Env :=
  GoogleDoc.mkEnv (env "GOOGLE_DOC_ID") (env "GOOGLE-DOC-ID")
    (env "GOOGLE_CLIENT_ID") (env "GOOGLE_CLIENT_SECRET").

(** [request] is the parsed body, [None] when [req.json()] throws or the
    body is no object. *)
Definition POST
    (env : ApiKeys.Env) (documentsGet : string -> GoogleDoc.DocsResponse)
    (request : option (Value * option string)) : Response :=
  match request with
  | None => mkResponse 500 (ErrorBody "Internal server error during classification")
  | Some (keyword, accessToken) =>
      if GenerateBox.keywordRejected keyword
      then mkResponse 400 (ErrorBody "Keyword is required and must be a non-empty string")
      else if negb (ApiKeys.validateApiKey env ApiKeys.google (Some "docUrl"))
      then mkResponse 500 (ErrorBody "Google Doc URL not configured")
      else
        match ApiKeys.getApiKeys env with
        | ApiKeys.Thrown _ =>
            mkResponse 500 (ErrorBody "Internal server error during classification")
        | ApiKeys.Returned apiKeys =>
            mkResponse 200
              (ResultBody
                 (GoogleDoc.detectCategoryFromDoc (docEnv env) documentsGet
                    (ApiKeys.googleDocUrl apiKeys) (GenerateBox.stringOf keyword)
                    accessToken))
        end
  end.

(** The four variables without which [getApiKeys] throws. *)
Definition requiredNames : list string :=
  ["ANTHROPIC_API_KEY"; "FREEPIK_API_KEY"; "FREEPIK_WEBHOOK_SECRET"; "GOOGLE_DOC_URL"].

End ClassifyRoute.

(** ** lib/tokenManager.ts: expiry and refresh of the access token *)

Module TokenManager.
Import Js Sheets.

(** Times are in milliseconds; an absent field is [None]. *)
Record TokenData : Type := mkTokenData {
  accessToken : string;
  refreshToken : option string;
  expiryDate : option Z;
  timestamp : option Z
}.


(** [now] is [Date.now()]. *)
Definition isTokenExpired (now : Z) (tokenData : TokenData) : bool :=
  let withoutExpiry :=
    let oneHourAgo := (now - 60 * 60 * 1000)%Z in
    (match timestamp tokenData with Some t => t | None => 0%Z end <? oneHourAgo)%Z in
  match expiryDate tokenData with
  | None => withoutExpiry
  | Some expiry =>
      if (expiry =? 0)%Z then withoutExpiry
      else
        let fiveMinutesFromNow := (now + 5 * 60 * 1000)%Z in
        (expiry <? fiveMinutesFromNow)%Z
  end.

(** The outcome of [oauth2Client.refreshAccessToken()]: it throws, or
    resolves to credentials whose access token may be absent. *)
Inductive Refreshed : Type :=
| RefreshThrows (message : option string)
| Credentials (access_token : option string).



(** A token issued at [issued] that expires an hour later. *)
Definition sampleToken (issued : Z) : TokenData :=
  mkTokenData "ya29.old" (Some "1//refresh") (Some (issued + 3600000)%Z) (Some issued).

Definition sampleEnv : Env := mkEnv None (Some "client") (Some "secret").

Definition sampleRefresh (refreshToken : string) : Refreshed :=
  if String.eqb refreshToken "1//refresh" then Credentials (Some "ya29.new")
  else RefreshThrows (Some "invalid_grant").

Definition sampleParse (json : string) : option TokenData :=
  if String.eqb json "{}" then Some (sampleToken 1000) else None.

End TokenManager.

(** ** app/page.tsx: what the page sends to the endpoints *)

Module Page.
Import Js.

(** [textFields] of [generateAll], for the category the page holds. *)
Definition textFields (category : string) : list string :=
  ["title"; "intro"]
  ++ (if String.eqb category "with subtopics" then ["subtopics"] else [])
  ++ ["cost"; "why"; "faq"].

(** [generateField] sends a field to the single-field endpoint unless its
    id starts with pic. *)
Definition usesBoxEndpoint (fieldId : string) : bool :=
  negb (startsWith fieldId "pic").

(** The keyword, the flow and the token of the body [generateField]
    posts. *)
Definition fieldRequest (keyword category : string) (accessToken : option string)
  : GenerateBox.Request :=
  GenerateBox.mkRequest (VString (trim keyword)) (VString category) accessToken.

(** The text [handleClassify] puts in the competitor box for the body of
    an accepted competitor response. *)
Definition competitorBox (found : bool) (competitorUrls : list string) : string :=
  if found && (0 <? List.length competitorUrls) then join nl competitorUrls
  else EmptyString.

(** [competitorUrls.split('\n').filter(url => url.trim())] *)
Definition urlsSent (competitorUrls : string) : list string :=
  filter (fun url => truthy (trim url)) (split (ascii_of_nat 10) competitorUrls).

End Page.

(* ================================================================== *)
(** * Part II: theorems *)
(* ================================================================== *)

(** ** Facts about the string primitives *)

Section JsFacts.
Import Js.

Lemma truthy_true_iff (s : string) : truthy s = true <-> s <> EmptyString.
Proof. destruct s; simpl; split; congruence. Qed.

Lemma truthy_false_iff (s : string) : truthy s = false <-> s = EmptyString.
Proof. destruct s; simpl; split; congruence. Qed.

Lemma trimStart_noLeadingSpace (s : string) : noLeadingSpace (trimStart s).
Proof.
  induction s as [|c s IH]; simpl; [exact I|].
  destruct (isWhiteSpace c) eqn:E; [exact IH | exact E].
Qed.

Lemma trimStart_fixed (s : string) : noLeadingSpace s -> trimStart s = s.
Proof. destruct s as [|c s]; simpl; [reflexivity|]. now intros ->. Qed.

Lemma trimEnd_noLeadingSpace (s : string) :
  noLeadingSpace s -> noLeadingSpace (trimEnd s).
Proof.
  destruct s as [|c s]; simpl; [trivial|].
  intros Hc. destruct (trimEnd s); simpl; [rewrite Hc|]; exact Hc.
Qed.

Lemma trimEnd_idempotent (s : string) : trimEnd (trimEnd s) = trimEnd s.
Proof.
  induction s as [|c s IH]; simpl; [reflexivity|].
  destruct (trimEnd s) as [|d r] eqn:E.
  - destruct (isWhiteSpace c) eqn:Ec; simpl; [reflexivity|]. now rewrite Ec.
  - change (trimEnd (String c (String d r))) with
      (match trimEnd (String d r) with
       | EmptyString => if isWhiteSpace c then EmptyString else String c EmptyString
       | x => String c x
       end).
    now rewrite IH.
Qed.

Lemma trim_idempotent (s : string) : trim (trim s) = trim s.
Proof.
  unfold trim.
  rewrite (trimStart_fixed (trimEnd (trimStart s))).
  - apply trimEnd_idempotent.
  - apply trimEnd_noLeadingSpace, trimStart_noLeadingSpace.
Qed.

Lemma findFrom_index {A} (p : A -> bool) (l : list A) (k i : nat) (x : A) :
  findFrom p k l = Some (i, x) ->
  k <= i /\ nth_error l (i - k) = Some x /\ p x = true /\
  forall j y, j < i - k -> nth_error l j = Some y -> p y = false.
Proof.
  revert k. induction l as [|a l IH]; simpl; intros k H; [discriminate|].
  destruct (p a) eqn:Ea.
  - injection H as <- <-. rewrite Nat.sub_diag. simpl.
    repeat split; auto. intros j y Hj. lia.
  - destruct (IH _ H) as (Hk & Hn & Hp & Hall).
    replace (i - k) with (S (i - S k)) by lia. simpl.
    repeat split; auto; [lia|].
    intros [|j] y Hj Hy; simpl in Hy.
    + now injection Hy as <-.
    + apply (Hall j); [lia | exact Hy].
Qed.

Lemma findFrom_first {A} (p : A -> bool) (l : list A) (k i : nat) (x : A) :
  nth_error l i = Some x -> p x = true ->
  (forall j y, j < i -> nth_error l j = Some y -> p y = false) ->
  findFrom p k l = Some (k + i, x).
Proof.
  revert k i. induction l as [|a l IH]; intros k i Hn Hp Hall.
  - destruct i; discriminate.
  - destruct i as [|i]; simpl in *.
    + injection Hn as ->. rewrite Hp. now rewrite Nat.add_0_r.
    + rewrite (Hall 0 a) by (simpl; auto; lia).
      rewrite (IH (S k) i Hn Hp).
      * f_equal. f_equal. lia.
      * intros j y Hj Hy. apply (Hall (S j)); [lia | exact Hy].
Qed.

Lemma findFrom_none {A} (p : A -> bool) (l : list A) (k : nat) :
  findFrom p k l = None <-> forallb (fun x => negb (p x)) l = true.
Proof.
  revert k. induction l as [|a l IH]; simpl; intros k; [tauto|].
  destruct (p a); simpl; [split; discriminate | apply IH].
Qed.

Lemma prefix_append (p s : string) : String.prefix p (p +++ s) = true.
Proof.
  induction p as [|c p IH]; simpl; [now destruct s|].
  destruct (ascii_dec c c); [exact IH | congruence].
Qed.

Lemma includes_prefix (s sub : string) :
  String.prefix sub s = true -> includes s sub = true.
Proof. intros H. destruct s; cbn [includes]; now rewrite H. Qed.

Lemma includes_append (a s sub : string) :
  includes s sub = true -> includes (a +++ s) sub = true.
Proof.
  intros H. induction a as [|c a IH]; [exact H|].
  cbn [String.append includes]. rewrite IH. apply orb_true_r.
Qed.

Lemma prefix_self (s : string) : String.prefix s s = true.
Proof.
  induction s as [|c s IH]; simpl; [reflexivity|].
  destruct (ascii_dec c c); [exact IH | congruence].
Qed.

Lemma includes_self (s : string) : includes s s = true.
Proof. apply includes_prefix, prefix_self. Qed.

(** A string that is spliced into a text is included in it. *)
Lemma includes_middle (a b c : string) : includes (a +++ b +++ c) b = true.
Proof. apply includes_append, includes_prefix, prefix_append. Qed.

End JsFacts.

(** ** The document classifier *)

Section GoogleDocFacts.
Import Js GoogleDoc.

(** Flattening emits trimmed, non-empty texts only. *)
Lemma extractParagraph_texts (p : Paragraph) :
  Forall (fun e => truthy (trim (text e)) = true) (extractParagraph p).
Proof.
  unfold extractParagraph. destruct (headingOf p) as [h lv].
  destruct (truthy (trim (paragraphText p))) eqn:E; constructor; [|constructor].
  simpl. now rewrite trim_idempotent.
Qed.

Lemma Forall_flat_map {A B} (P : B -> Prop) (f : A -> list B) (l : list A) :
  Forall (fun a => Forall P (f a)) l -> Forall P (flat_map f l).
Proof.
  induction 1; simpl; [constructor|]. apply Forall_app; split; assumption.
Qed.

Lemma extractContentFromElement_texts (element : StructuralElement) :
  Forall (fun e => truthy (trim (text e)) = true) (extractContentFromElement element).
Proof.
  revert element.
  fix IH 1. intros [paragraph table]. simpl. apply Forall_app. split.
  - destruct paragraph; [apply extractParagraph_texts | constructor].
  - destruct table as [rows|]; [|constructor].
    apply Forall_flat_map.
    induction rows as [|row rows IHrows]; constructor; [|exact IHrows].
    apply Forall_flat_map.
    induction row as [|cell row IHrow]; constructor; [|exact IHrow].
    apply Forall_flat_map.
    induction cell as [|e cell IHcell]; constructor; [apply IH | exact IHcell].
Qed.

Lemma flatten_texts (content : list StructuralElement) :
  Forall (fun e => truthy (trim (text e)) = true) (flatten content).
Proof.
  unfold flatten. apply Forall_flat_map.
  induction content; constructor; [apply extractContentFromElement_texts | assumption].
Qed.

Lemma Forall_skipn {A} (P : A -> Prop) (n : nat) (l : list A) :
  Forall P l -> Forall P (skipn n l).
Proof.
  revert l. induction n as [|n IH]; intros l H; simpl; [exact H|].
  destruct H; [constructor | now apply IH].
Qed.

(** On texts that survive trimming, the collecting loop is a filter of the
    run of elements before the next heading. *)
Lemma collectSubtopics_filter (keyword : string) (rest : list DocumentTextElement) :
  Forall (fun e => truthy (trim (text e)) = true) rest ->
  collectSubtopics keyword rest =
  map (fun e => trim (text e))
      (filter (fun e => negb (equalsKeyword keyword e)) (beforeNextHeading rest)).
Proof.
  induction 1 as [|e rest He _ IH]; simpl; [reflexivity|].
  destruct (isHeading e) eqn:Eh; simpl; [reflexivity|].
  rewrite He. unfold equalsKeyword at 1.
  destruct (negb _); simpl; now rewrite IH.
Qed.

Lemma firstMatchAt_find (keyword : string) (els : list DocumentTextElement)
    (i : nat) (e : DocumentTextElement) :
  firstMatchAt keyword els i e <->
  find (containsKeyword keyword) els = Some (i, e).
Proof.
  unfold firstMatchAt, find. split.
  - intros (Hn & Hp & Hall).
    now rewrite (findFrom_first _ els 0 i e Hn Hp Hall).
  - intros H. apply findFrom_index in H.
    rewrite Nat.sub_0_r in H. tauto.
Qed.

Lemma classify_heading (keyword : string) (els : list DocumentTextElement)
    (i : nat) (e : DocumentTextElement) :
  find (containsKeyword keyword) els = Some (i, e) -> isHeading e = true ->
  classify els keyword =
  let subs := collectSubtopics keyword (skipn (i + 1) els) in
  mkResult (Some WithSubtopics)
    (dquote +++ keyword +++ dquote +++ " found as heading level "
       +++ numberToString (level e) +++ " (with subtopics)")
    (Some (text e)) (Some (i + 1))
    (if 0 <? List.length subs then Some subs else None).
Proof. intros H Hh. unfold classify. now rewrite H, Hh. Qed.

Lemma classify_not_heading (keyword : string) (els : list DocumentTextElement)
    (i : nat) (e : DocumentTextElement) :
  find (containsKeyword keyword) els = Some (i, e) -> isHeading e = false ->
  category (classify els keyword) = Some NoSubtopics /\
  subtopics (classify els keyword) = None.
Proof. intros H Hh. unfold classify. rewrite H, Hh. split; reflexivity. Qed.

Lemma classify_no_match (keyword : string) (els : list DocumentTextElement) :
  find (containsKeyword keyword) els = None ->
  classify els keyword =
  failure ("Keyword " +++ dquote +++ keyword +++ dquote +++ " not found in document").
Proof. intros H. unfold classify. now rewrite H. Qed.

(** C1.  In a flattened document, when the first element that contains the
    lower-cased trimmed keyword is a heading, the category is with
    subtopics and the subtopics are the trimmed texts, in order, of the
    elements strictly between that heading and the next one (or the end),
    without those whose trimmed text equals the trimmed keyword up to case.
    The list is returned as an absent field when it is empty. *)
Theorem classify_heading_subtopics
    (content : list StructuralElement) (keyword : string)
    (i : nat) (e : DocumentTextElement) :
  firstMatchAt keyword (flatten content) i e ->
  isHeading e = true ->
  let result := classify (flatten content) keyword in
  let expected := expectedSubtopics keyword i (flatten content) in
  category result = Some WithSubtopics /\
  subtopics result = match expected with [] => None | _ => Some expected end.
Proof.
  intros Hfirst Hh result expected. subst result expected.
  apply firstMatchAt_find in Hfirst.
  rewrite (classify_heading _ _ _ _ Hfirst Hh). cbn beta zeta. simpl category. simpl subtopics.
  split; [reflexivity|].
  unfold expectedSubtopics.
  rewrite <- collectSubtopics_filter by apply Forall_skipn, flatten_texts.
  now destruct (collectSubtopics keyword (skipn (i + 1) (flatten content))).
Qed.

Lemma classify_heading_subtopics_witness :
  let result := classify (flatten sampleContent) "mattress removal" in
  category result = Some WithSubtopics /\
  subtopics result =
    Some ["Queen mattress pickup"; "Box spring disposal"; "Same day haul away"].
Proof.
  apply (classify_heading_subtopics sampleContent "mattress removal" 1
           (mkText "Mattress Removal" true 2)).
  - split; [reflexivity|]. split; [reflexivity|].
    intros j other Hj. assert (j = 0) as -> by lia.
    simpl. intros H. injection H as <-. reflexivity.
  - reflexivity.
Defined.

Lemma fetchedElements_texts env documentsGet docUrl els :
  fetchedElements env documentsGet docUrl = Some els ->
  Forall (fun e => truthy (trim (text e)) = true) els.
Proof.
  unfold fetchedElements.
  destruct (resolveDocumentId env docUrl); [|discriminate].
  destruct (documentsGet _) as [|[d|]]; try discriminate.
  destruct (body d) as [[c|]|]; try discriminate; intros H; injection H as <-.
  - apply flatten_texts.
  - constructor.
Qed.

(** The guards of [detectCategoryFromDoc], then the classification. *)
Lemma detectCategoryFromDoc_cases env documentsGet docUrl keyword accessToken :
  let result := detectCategoryFromDoc env documentsGet docUrl keyword accessToken in
  (hardError env documentsGet docUrl accessToken = true /\
   category result = None /\ subtopics result = None) \/
  (hardError env documentsGet docUrl accessToken = false /\
   exists els, fetchedElements env documentsGet docUrl = Some els /\
               result = classify els keyword).
Proof.
  unfold detectCategoryFromDoc, hardError, fetchedElements.
  destruct (resolveDocumentId env docUrl) as [documentId|]; [|left; auto].
  destruct (truthyOpt (trimmed (GOOGLE_CLIENT_ID env))); simpl; [|left; auto].
  destruct (truthyOpt (trimmed (GOOGLE_CLIENT_SECRET env))); simpl; [|left; auto].
  destruct (truthyOpt accessToken); simpl; [|left; auto].
  destruct (documentsGet (cleanDocumentId documentId)) as [thrown|[d|]].
  - left. destruct (includes _ _); auto.
  - destruct (body d) as [[c|]|]; [right | right | left]; eauto.
  - left; auto.
Qed.

Lemma filter_nonempty_existsb {A} (q : A -> bool) (l : list A) :
  filter q l <> [] <-> existsb q l = true.
Proof.
  induction l as [|a l IH]; simpl; [split; [congruence | discriminate]|].
  destruct (q a); simpl; [split; [reflexivity | discriminate] | exact IH].
Qed.

(** C5.  The category is null exactly when a hard error occurred (no
    document id, no credentials, no token, nothing fetched) or no flattened
    element contains the keyword; and the subtopics field is present exactly
    when the category is with subtopics and some element between the match
    and the next heading differs from the keyword. *)
Theorem category_null_and_subtopics_presence
    (env : Env) (documentsGet : string -> DocsResponse)
    (docUrl keyword : string) (accessToken : option string) :
  let result := detectCategoryFromDoc env documentsGet docUrl keyword accessToken in
  (category result = None <->
     hardError env documentsGet docUrl accessToken = true \/
     exists els, fetchedElements env documentsGet docUrl = Some els /\
       forallb (fun e => negb (containsKeyword keyword e)) els = true)
  /\
  (subtopics result <> None <->
     category result = Some WithSubtopics /\
     exists els i e,
       fetchedElements env documentsGet docUrl = Some els /\
       firstMatchAt keyword els i e /\
       existsb (fun x => negb (equalsKeyword keyword x))
               (beforeNextHeading (skipn (i + 1) els)) = true).
Proof.
  cbv zeta.
  pose proof (detectCategoryFromDoc_cases env documentsGet docUrl keyword accessToken) as H.
  cbv zeta in H.
  remember (detectCategoryFromDoc env documentsGet docUrl keyword accessToken) as result eqn:Hr.
  clear Hr.
  destruct H as [(Hhard & Hcat & Hsub) | (Hhard & els & Hels & Hres)].
  - split.
    + split; auto.
    + rewrite Hcat, Hsub. split; [congruence | intros [? _]; discriminate].
  - subst result.
    pose proof (fetchedElements_texts _ _ _ _ Hels) as Htexts.
    destruct (find (containsKeyword keyword) els) as [[i e]|] eqn:Hfind.
    + pose proof Hfind as Hfirst. apply firstMatchAt_find in Hfirst.
      assert (Hnot : forallb (fun e => negb (containsKeyword keyword e)) els = true -> False).
      { intros Hall. apply (findFrom_none _ _ 0) in Hall. unfold find in Hfind. congruence. }
      destruct (isHeading e) eqn:Hh.
      * rewrite (classify_heading _ _ _ _ Hfind Hh). cbn beta zeta. simpl category. simpl subtopics.
        rewrite collectSubtopics_filter by now apply Forall_skipn.
        split.
        -- split; [discriminate|].
           intros [H | (els' & Hels' & Hall)]; [congruence|].
           rewrite Hels in Hels'. injection Hels' as <-. now apply Hnot in Hall.
        -- set (between := beforeNextHeading (skipn (i + 1) els)).
           pose proof (filter_nonempty_existsb
                         (fun x => negb (equalsKeyword keyword x)) between) as Hne.
           destruct (filter _ between) as [|x xs] eqn:Hf; simpl.
           ++ split; [congruence|].
              intros (_ & els' & i' & e' & Hels' & Hfirst' & Hex).
              rewrite Hels in Hels'. injection Hels' as <-.
              apply firstMatchAt_find in Hfirst'. rewrite Hfind in Hfirst'.
              injection Hfirst' as <- <-. fold between in Hex.
              apply Hne in Hex. congruence.
           ++ split; [|discriminate]. intros _. split; [reflexivity|].
              exists els, i, e. repeat split; try apply Hfirst; auto.
              apply Hne. discriminate.
      * destruct (classify_not_heading _ _ _ _ Hfind Hh) as [Hc Hs].
        rewrite Hc, Hs. split.
        -- split; [discriminate|].
           intros [H | (els' & Hels' & Hall)]; [congruence|].
           rewrite Hels in Hels'. injection Hels' as <-. now apply Hnot in Hall.
        -- split; [congruence | intros [? _]; discriminate].
    + rewrite (classify_no_match _ _ Hfind). simpl. split.
      * split; auto. intros _. right. exists els. split; auto.
        now apply (findFrom_none _ _ 0).
      * split; [congruence | intros [? _]; discriminate].
Qed.

End GoogleDocFacts.

(** ** The competitor lookup *)

Section GoogleSheetsFacts.
Import Js Sheets GoogleSheets.

Lemma find_some_In {A} (p : A -> bool) (l : list A) (i : nat) (x : A) :
  find p l = Some (i, x) -> In x l /\ p x = true.
Proof.
  intros H. apply findFrom_index in H. rewrite Nat.sub_0_r in H.
  destruct H as (_ & Hn & Hp & _). split; [eapply nth_error_In; eauto | exact Hp].
Qed.

Lemma find_none_In {A} (p : A -> bool) (l : list A) (x : A) :
  find p l = None -> In x l -> p x = false.
Proof.
  intros H Hin. apply (findFrom_none p l 0) in H.
  rewrite forallb_forall in H. apply H in Hin. now destruct (p x).
Qed.

(** Once the guards pass, the lookup is the search for the first row whose
    column D contains the keyword. *)
Lemma getCompetitorUrlsFromSheets_read env valuesGet keyword accessToken rows :
  sheetRead env valuesGet accessToken rows ->
  getCompetitorUrlsFromSheets env valuesGet keyword accessToken =
  if List.length rows =? 0
  then mkResult false None None [] (Some "No data found in the spreadsheet")
         0 "Google Sheets API v4 OAuth"
  else match find (rowMatches keyword) rows with
       | Some (i, row) =>
           mkResult true (Some (i + 1)) (Some (cell 0 row)) (urlsOf (cell 4 row))
             None (List.length rows) "Google Sheets API v4 OAuth"
       | None =>
           mkResult false None None []
             (Some ("Keyword " +++ dquote +++ keyword +++ dquote
                      +++ " not found in column D"))
             (List.length rows) "Google Sheets API v4 OAuth"
       end.
Proof.
  intros (Hid & Hsecret & Htoken & sheetId & Hsheet & Htruthy & Hget).
  unfold getCompetitorUrlsFromSheets.
  rewrite Hid, Hsecret, Htoken, Hsheet. simpl.
  destruct sheetId; [discriminate|]. now rewrite Hget.
Qed.

(** C3, as the code has it.  With the guards passed, [found] holds exactly
    when column D of some row contains the keyword up to case; the first
    such row gives the row number, the matched cell and the URLs; when
    that row has the URL cell of the scenario, the URLs are a.com and
    b.com; and a row whose column D equals the keyword up to case is one
    that contains it. *)
Theorem competitor_lookup_first_containing_row
    (env : Env) (valuesGet : string -> string -> Response)
    (keyword : string) (accessToken : option string) (rows : list (list string)) :
  sheetRead env valuesGet accessToken rows ->
  let result := getCompetitorUrlsFromSheets env valuesGet keyword accessToken in
  (found result = true <->
     exists row, In row rows /\ rowMatches keyword row = true)
  /\
  (forall i row, firstRowAt keyword rows i row ->
     found result = true /\
     rowNumber result = Some (i + 1) /\
     keywordCell result = Some (cell 0 row) /\
     competitorUrls result = urlsOf (cell 4 row) /\
     (cell 4 row = "a.com, b.com" -> competitorUrls result = ["a.com"; "b.com"]))
  /\
  (forall row, rowEquals keyword row = true -> rowMatches keyword row = true).
Proof.
  intros Hread result. subst result.
  rewrite (getCompetitorUrlsFromSheets_read _ _ keyword _ _ Hread).
  split; [|split];
    [| | intros row Heq; apply String.eqb_eq in Heq; unfold rowMatches;
         rewrite Heq; apply includes_self].
  - destruct rows as [|r0 rows']; [simpl; split; [discriminate | now intros (? & [] & _)]|].
    cbn [List.length Nat.eqb].
    destruct (find (rowMatches keyword) (r0 :: rows')) as [[i row]|] eqn:Hfind; simpl.
    + split; [|reflexivity]. intros _. exists row. exact (find_some_In _ _ _ _ Hfind).
    + split; [discriminate|]. intros (row & Hin & Hrow).
      rewrite (find_none_In _ _ _ Hfind Hin) in Hrow. discriminate.
  - intros i row (Hn & Hrow & Hfirst).
    assert (Hfind : find (rowMatches keyword) rows = Some (i, row))
      by (unfold find; now rewrite (findFrom_first _ rows 0 i row Hn Hrow Hfirst)).
    rewrite Hfind.
    destruct rows as [|r0 rows']; [destruct i; discriminate|].
    cbn [List.length Nat.eqb found rowNumber keywordCell competitorUrls].
    repeat split. intros ->. reflexivity.
Qed.

Lemma competitor_lookup_first_containing_row_witness :
  let result :=
    getCompetitorUrlsFromSheets sampleEnv (sheetOf sampleRows)
      "mattress removal" (Some "token") in
  found result = true /\ rowNumber result = Some 2 /\
  competitorUrls result = ["https://x.example/king"].
Proof.
  assert (Hread : sheetRead sampleEnv (sheetOf sampleRows) (Some "token") sampleRows).
  { repeat split. exists "sheet-1". repeat split. }
  pose proof (proj1 (proj2 (competitor_lookup_first_containing_row sampleEnv
                       (sheetOf sampleRows) "mattress removal" (Some "token")
                       sampleRows Hread))
                1 ["King mattress removal service"; "10"; ""; ""; "https://x.example/king"])
    as H.
  destruct H as (Hf & Hr & _ & Hu & _).
  - split; [reflexivity|]. split; [reflexivity|].
    intros j other Hj. assert (j = 0) as -> by lia.
    simpl. intros E. injection E as <-. reflexivity.
  - repeat split; assumption.
Defined.

(** The lookup finds a row that merely contains the keyword: no row of
    [partialRows] has a column D equal to it. *)
Lemma competitor_lookup_not_exact :
  ~ (found (getCompetitorUrlsFromSheets sampleEnv (sheetOf partialRows)
              "mattress removal" (Some "token")) = true <->
     exists row, In row partialRows /\ rowEquals "mattress removal" row = true).
Proof.
  intros [H _]. destruct (H eq_refl) as (row & Hin & Heq).
  simpl in Hin. destruct Hin as [<- | [<- | []]]; discriminate.
Qed.

End GoogleSheetsFacts.

(** ** The prompt resolver *)

Section GoogleSheetsPromptsFacts.
Import Js Sheets GoogleSheetsPrompts.

Lemma getPromptFromSheets_guard env valuesGet fieldId accessToken :
  getPromptFromSheets env valuesGet fieldId accessToken =
  match guard env valuesGet accessToken with
  | CredentialsUnset => notFound "Google OAuth credentials not configured"
  | SheetIdUnset => notFound "GOOGLE_SHEET_ID not configured"
  | NoAccessToken => notFound "No access token provided"
  | RequestFailed thrown => notFound (caughtMessage thrown)
  | SheetRead rows =>
      if List.length rows =? 0 then notFound "No data found in Prompts tab"
      else match searchRows fieldId (mapFieldId fieldId) (tl rows) with
           | Some result => result
           | None => notFound (caughtMessage
                                 (Some "mappedFieldId.toLowerCase is not a function"))
           end
  end.
Proof.
  unfold getPromptFromSheets, guard.
  destruct (negb _ || negb _); [reflexivity|].
  destruct (trimmedVar (GOOGLE_SHEET_ID env)) as [[|c sheetId]|]; try reflexivity.
  destruct (negb (truthyOpt accessToken)); [reflexivity|].
  destruct (valuesGet _ _); reflexivity.
Qed.

(** The search loop finds the first row that has two cells and the key. *)
Lemma searchRows_findFrom (fieldId name : string) (rows : list (list string)) (k : nat) :
  searchRows fieldId (MappedName name) rows =
  Some match findFrom (keyedRow name) k rows with
       | None => notFound (noRowError fieldId name)
       | Some (_, row) =>
           if truthy (cell 1 row)
           then mkPromptResult (Some (cell 1 row))
                  (if truthy (cell 2 row) then Some (cell 2 row) else None)
                  true None
           else notFound (emptyPromptError fieldId)
       end.
Proof.
  revert k. induction rows as [|row rows IH]; intros k; [reflexivity|].
  cbn [searchRows findFrom]. unfold keyedRow at 1.
  rewrite Nat.ltb_antisym.
  destruct (2 <=? List.length row); cbn [negb andb]; [|apply IH].
  destruct (String.eqb _ _); [|apply IH].
  now destruct (truthy (cell 1 row)).
Qed.

(** C8, as the code has it.  [found] is false, with an error, when the
    credentials or the sheet id are unset, no token is given, the request
    fails or the tab has no rows; otherwise the first row after the header
    that has at least two cells and whose key equals the mapped name decides:
    none gives the error that names the field, an empty prompt cell the
    distinguished error, and a non-empty one the prompt and the example of
    that row. *)
Theorem prompt_resolver_cases
    (env : Env) (valuesGet : string -> string -> Response)
    (fieldId : string) (accessToken : option string) (name : string) :
  mapFieldId fieldId = MappedName name ->
  let result := getPromptFromSheets env valuesGet fieldId accessToken in
  match guard env valuesGet accessToken with
  | SheetRead (_ :: data) =>
      match find (keyedRow name) data with
      | Some (_, row) =>
          if truthy (cell 1 row)
          then found result = true /\ error result = None /\
               prompt result = Some (cell 1 row) /\
               example result = (if truthy (cell 2 row) then Some (cell 2 row) else None)
          else found result = false /\
               error result = Some (emptyPromptError fieldId)
      | None =>
          found result = false /\
          error result = Some (noRowError fieldId name) /\
          includes (noRowError fieldId name) fieldId = true
      end
  | SheetRead [] =>
      found result = false /\ error result = Some "No data found in Prompts tab"
  | _ => found result = false /\ error result <> None
  end.
Proof.
  intros Hmap result. subst result.
  rewrite getPromptFromSheets_guard, Hmap.
  destruct (guard env valuesGet accessToken) as [| | | thrown | [|header data]];
    try (split; [reflexivity | discriminate]); [split; reflexivity|].
  cbn [List.length Nat.eqb tl]. rewrite (searchRows_findFrom _ _ _ 0). fold (find (keyedRow name) data).
  destruct (find (keyedRow name) data) as [[i row]|].
  - destruct (truthy (cell 1 row)); repeat split.
  - repeat split. unfold noRowError.
    change ("Field " +++ dquote +++ fieldId +++ dquote +++ " (mapped to " +++ dquote
              +++ name +++ dquote +++ ") not found in Prompts tab")
      with (("Field " +++ dquote) +++ fieldId +++ dquote +++ " (mapped to " +++ dquote
              +++ name +++ dquote +++ ") not found in Prompts tab").
    apply includes_middle.
Qed.

Lemma prompt_resolver_cases_witness :
  let result :=
    getPromptFromSheets sampleEnv (sheetOf samplePrompts) "cost" (Some "token") in
  found result = true /\ error result = None /\
  prompt result = Some "What does KEYWORD cost?" /\ example result = None.
Proof.
  exact (prompt_resolver_cases sampleEnv (sheetOf samplePrompts) "cost"
           (Some "token") "Cost" eq_refl).
Defined.

(** Two tabs on which the resolver departs from the rule that a row whose
    key matches and whose prompt cell is empty gives the distinguished
    error.  In [blankCostPrompts] the only cost row has one cell: the error
    is the one for a missing row.  In [samplePrompts] such a row comes
    first and a later row is found. *)
Lemma prompt_resolver_short_row :
  (exists row, hd_error (filter (keyEquals "Cost") (tl blankCostPrompts)) = Some row /\
               cell 1 row = EmptyString) /\
  error (getPromptFromSheets sampleEnv (sheetOf blankCostPrompts) "cost" (Some "token"))
    = Some (noRowError "cost" "Cost") /\
  error (getPromptFromSheets sampleEnv (sheetOf blankCostPrompts) "cost" (Some "token"))
    <> Some (emptyPromptError "cost") /\
  (exists row, hd_error (filter (keyEquals "Cost") (tl samplePrompts)) = Some row /\
               cell 1 row = EmptyString) /\
  found (getPromptFromSheets sampleEnv (sheetOf samplePrompts) "cost" (Some "token"))
    = true.
Proof.
  split; [exists ["Cost"]; split; reflexivity|].
  split; [reflexivity|].
  split; [discriminate|].
  split; [exists ["Cost"]; split; reflexivity | reflexivity].
Qed.

End GoogleSheetsPromptsFacts.

(** ** The loader of the Prompts tab *)

Section PromptsFromSheetsFacts.
Import Js Sheets PromptsFromSheets.

Lemma getPromptsFromSheet_rows env valuesGet accessToken :
  prompts (getPromptsFromSheet env valuesGet accessToken) =
  processRows 0 (rowsRead env valuesGet accessToken).
Proof.
  unfold getPromptsFromSheet, rowsRead.
  destruct (negb _ || negb _); [reflexivity|].
  destruct (GOOGLE_SHEET_ID env) as [[|c sheetId]|]; try reflexivity.
  destruct (negb (truthyOpt accessToken)); [reflexivity|].
  destruct (valuesGet _ _) as [thrown|[[|row rows]|]]; reflexivity.
Qed.

Lemma fieldIdEqb_picture (a b : FieldId) :
  fieldIdEqb a b = true -> isPictureField a = isPictureField b.
Proof.
  destruct a as [x|], b as [y|]; simpl; try discriminate; [|reflexivity].
  now intros ->%String.eqb_eq.
Qed.

(** Row 13 contributes one entry to each picture field and none to any
    other id. *)
Lemma fanOut_count (id : FieldId) (p e : string) :
  List.length
    (filter (nonSentinel id)
       (map (fun picField => mkPromptData (FieldName picField) picField p e false)
            pictureFields))
  = if isPictureField id then 1 else 0.
Proof.
  destruct id as [name|]; [|reflexivity].
  cbv [pictureFields nonSentinel isPictureField arrayIncludes map filter
       fieldId isSubtitlesOnly fieldIdEqb existsb negb].
  rewrite !andb_true_r.
  rewrite (String.eqb_sym "pic1"), (String.eqb_sym "pic2"),
          (String.eqb_sym "pic3"), (String.eqb_sym "pic4").
  destruct (String.eqb_spec name "pic1") as [->|_]; [reflexivity|].
  destruct (String.eqb_spec name "pic2") as [->|_]; [reflexivity|].
  destruct (String.eqb_spec name "pic3") as [->|_]; [reflexivity|].
  destruct (String.eqb_spec name "pic4") as [->|_]; reflexivity.
Qed.

Lemma restrict_row17 (fieldId : string) (mapped : FieldId) :
  restrict true fieldId = Some mapped -> mapped = FieldName "subtopics".
Proof.
  unfold restrict. destruct (String.eqb fieldId "subtopics"); congruence.
Qed.

Lemma processRows_count (id : FieldId) (rows : list (list string)) (i : nat) :
  nonSentinelCount id (processRows i rows) =
  if isPictureField id then fanOutRows i rows else rowsMappedTo id i rows.
Proof.
  unfold nonSentinelCount.
  revert i. induction rows as [|row rows IH]; intros i.
  - simpl. now destruct (isPictureField id).
  - cbn [processRows fanOutRows rowsMappedTo].
    destruct (blankRow row); cbn [negb andb].
    { rewrite IH. now destruct (isPictureField id). }
    destruct (i + 1 =? 13) eqn:E13; cbn [negb andb].
    { rewrite filter_app, length_app, fanOut_count, IH.
      now destruct (isPictureField id). }
    destruct (i + 1 =? 17) eqn:E17; cbn [negb andb].
    { destruct (mapFieldTitleToId (cell 0 row) true) as [mapped|];
        [|rewrite IH; now destruct (isPictureField id)].
      destruct (isPictureField mapped);
        [rewrite IH; now destruct (isPictureField id)|].
      cbn [filter]. unfold nonSentinel at 1. cbn [isSubtitlesOnly negb].
      rewrite andb_false_r, IH. now destruct (isPictureField id). }
    destruct (mapFieldTitleToId (cell 0 row) false) as [mapped|];
      [|rewrite IH; now destruct (isPictureField id)].
    destruct (isPictureField mapped) eqn:Ep.
    + rewrite IH. destruct (fieldIdEqb mapped id) eqn:Ee.
      * apply fieldIdEqb_picture in Ee. rewrite <- Ee, Ep. reflexivity.
      * now destruct (isPictureField id).
    + cbn [filter]. unfold nonSentinel at 1. cbn [fieldId isSubtitlesOnly negb].
      rewrite andb_true_r.
      destruct (fieldIdEqb mapped id) eqn:Ee; cbn [List.length]; rewrite IH.
      * apply fieldIdEqb_picture in Ee. rewrite <- Ee, Ep. reflexivity.
      * now destruct (isPictureField id).
Qed.

Lemma fanOutRows_late (rows : list (list string)) (i : nat) :
  13 <= i -> fanOutRows i rows = 0.
Proof.
  revert i. induction rows as [|row rows IH]; intros i Hi; [reflexivity|].
  cbn [fanOutRows]. rewrite IH by lia.
  replace (i + 1 =? 13) with false by (symmetry; apply Nat.eqb_neq; lia).
  now rewrite andb_false_r.
Qed.

Lemma fanOutRows_le (rows : list (list string)) (i : nat) : fanOutRows i rows <= 1.
Proof.
  revert i. induction rows as [|row rows IH]; intros i; [simpl; lia|].
  cbn [fanOutRows]. destruct (i + 1 =? 13) eqn:E.
  - apply Nat.eqb_eq in E. rewrite fanOutRows_late by lia.
    destruct (negb (blankRow row)); simpl; lia.
  - rewrite andb_false_r. apply IH.
Qed.

(** C7, as the code has it.  The entries without the row 17 mark number,
    for a picture field, the filled rows at row 13, which is at most one;
    and for any other id, the filled rows outside rows 13 and 17 whose title
    maps to it, one entry for each. *)
Theorem prompts_per_field
    (env : Env) (valuesGet : string -> string -> Response)
    (accessToken : option string) (id : FieldId) :
  let rows := rowsRead env valuesGet accessToken in
  let entries := prompts (getPromptsFromSheet env valuesGet accessToken) in
  nonSentinelCount id entries =
    (if isPictureField id then fanOutRows 0 rows else rowsMappedTo id 0 rows)
  /\ fanOutRows 0 rows <= 1.
Proof.
  cbv zeta. rewrite getPromptsFromSheet_rows, processRows_count.
  split; [reflexivity | apply fanOutRows_le].
Qed.

(** Two rows that map to the title give two entries for it. *)
Lemma two_title_entries :
  ~ nonSentinelCount (FieldName "title")
      (prompts (getPromptsFromSheet sampleEnv (sheetOf twoTitleRows) (Some "token")))
    <= 1.
Proof.
  change (nonSentinelCount (FieldName "title")
            (prompts (getPromptsFromSheet sampleEnv (sheetOf twoTitleRows) (Some "token"))))
    with 2.
  lia.
Qed.

End PromptsFromSheetsFacts.

(** ** The generation endpoints *)

Section GenerateFacts.
Import Js.

Variable outage : string -> option (option string).
Variable OPENAI_API_KEY : option string.
Variable sheetsEnv : Sheets.Env.
Variable valuesGet : string -> string -> Sheets.Response.
Variable draft : string -> string -> string -> string -> option string -> option string.

(** A field id outside the list of valid fields is answered with status
    400, whatever the request. *)
Lemma POST_invalid_field (fieldId : string) (request : GenerateBox.Request) :
  arrayIncludes GenerateBox.validFields fieldId = false ->
  GenerateBox.status
    (GenerateBox.POST OPENAI_API_KEY sheetsEnv valuesGet draft fieldId request) = 400.
Proof.
  intros H. unfold GenerateBox.POST.
  destruct (GenerateBox.keywordRejected _); [reflexivity|].
  destruct (GenerateBox.flowRejected _); [reflexivity|].
  rewrite H. reflexivity.
Qed.

Lemma POST_invalid_field_body (fieldId : string) (request : GenerateBox.Request) :
  GenerateBox.keywordRejected (GenerateBox.keyword request) = false ->
  GenerateBox.flowRejected (GenerateBox.flow request) = false ->
  arrayIncludes GenerateBox.validFields fieldId = false ->
  GenerateBox.POST OPENAI_API_KEY sheetsEnv valuesGet draft fieldId request =
  GenerateBox.mkResponse 400
    (GenerateBox.ErrorBody ("Invalid field " +++ dquote +++ fieldId +++ dquote)).
Proof.
  intros Hk Hf H. unfold GenerateBox.POST. now rewrite Hk, Hf, H.
Qed.

Lemma recordSet_keys {V} (key k : string) (value : V) (record : list (string * V)) :
  In k (map fst (recordSet key value record)) <-> k = key \/ In k (map fst record).
Proof.
  induction record as [|[k0 v0] record IH]; simpl; [intuition congruence|].
  destruct (String.eqb_spec k0 key) as [->|Hne]; simpl; [intuition congruence|].
  rewrite IH. tauto.
Qed.

Lemma recordSet_nonempty {V} (key : string) (value : V) (record : list (string * V)) :
  0 < List.length (recordSet key value record).
Proof. destruct record as [|[k v] record]; simpl; [lia|]. destruct (String.eqb k key); simpl; lia. Qed.

Let fetch := GenerateAll.ownFetch outage OPENAI_API_KEY sheetsEnv valuesGet draft.

(** A turn of the loop for an invalid field id records an error for it. *)
Lemma step_invalid (request : GenerateBox.Request) (fieldId : string)
    (results : list (string * option string)) (errors : list (string * string)) :
  GenerateBox.keywordRejected (GenerateBox.keyword request) = false ->
  GenerateBox.flowRejected (GenerateBox.flow request) = false ->
  arrayIncludes GenerateBox.validFields fieldId = false ->
  exists error,
    GenerateAll.step fetch request (results, errors) fieldId =
    (results, recordSet fieldId error errors).
Proof.
  intros Hk Hf H. unfold GenerateAll.step, fetch, GenerateAll.ownFetch.
  destruct (outage fieldId) as [[message|]|]; eauto.
  rewrite (POST_invalid_field_body _ _ Hk Hf H). cbn. eauto.
Qed.

(** The loop over invalid field ids leaves the results as they are and
    gives the errors one more key for each id, in order, when the ids are
    new to them. *)
Lemma fold_step_invalid (request : GenerateBox.Request) (fieldIds : list string)
    (results : list (string * option string)) (errors : list (string * string)) :
  GenerateBox.keywordRejected (GenerateBox.keyword request) = false ->
  GenerateBox.flowRejected (GenerateBox.flow request) = false ->
  forallb (fun fieldId => negb (arrayIncludes GenerateBox.validFields fieldId))
          fieldIds = true ->
  NoDup (map fst errors ++ fieldIds) ->
  exists errors',
    fold_left (GenerateAll.step fetch request) fieldIds (results, errors)
    = (results, errors') /\
    map fst errors' = map fst errors ++ fieldIds.
Proof.
  intros Hk Hf. revert errors.
  induction fieldIds as [|f fieldIds IH]; intros errors Hall Hnd.
  - exists errors. now rewrite app_nil_r.
  - cbn [forallb] in Hall. apply andb_true_iff in Hall. destruct Hall as [Hf0 Hall].
    apply negb_true_iff in Hf0.
    destruct (step_invalid request f results errors Hk Hf Hf0) as (error & Hstep).
    cbn [fold_left]. rewrite Hstep.
    assert (Hkeys : map fst (recordSet f error errors) = map fst errors ++ [f]).
    { apply NoDup_remove_2 in Hnd.
      assert (Hnot : ~ In f (map fst errors)) by (intros Hin; apply Hnd, in_or_app; auto).
      clear - Hnot. induction errors as [|[k v] errors IHe]; [reflexivity|].
      cbn [recordSet map fst] in *.
      destruct (String.eqb_spec k f) as [->|Hne]; [exfalso; apply Hnot; now left|].
      cbn [map fst app]. f_equal. apply IHe. intros Hin. apply Hnot. now right. }
    destruct (IH (recordSet f error errors) Hall) as (errors' & Hfold & Hmap).
    + rewrite Hkeys, <- app_assoc. exact Hnd.
    + exists errors'. split; [exact Hfold|].
      now rewrite Hmap, Hkeys, <- app_assoc.
Qed.

(** A turn of the loop adds no key but its field id, and drops no error. *)
Lemma step_keys (request : GenerateBox.Request) (fieldId k : string)
    (state : list (string * option string) * list (string * string)) :
  let state' := GenerateAll.step fetch request state fieldId in
  (In k (map fst (fst state')) -> k = fieldId \/ In k (map fst (fst state))) /\
  (In k (map fst (snd state)) -> In k (map fst (snd state'))).
Proof.
  destruct state as [results errors]. unfold GenerateAll.step.
  destruct (fetch fieldId request) as [[m|]|response]; cbn [fst snd];
    try (split; [auto | rewrite recordSet_keys; auto]).
  destruct (GenerateBox.body response); destruct (GenerateAll.ok response);
    cbn [fst snd]; rewrite ?recordSet_keys; auto.
Qed.

Lemma fold_step_keys (request : GenerateBox.Request) (fieldIds : list string) (k : string)
    (state : list (string * option string) * list (string * string)) :
  let state' := fold_left (GenerateAll.step fetch request) fieldIds state in
  (In k (map fst (fst state')) -> In k fieldIds \/ In k (map fst (fst state))) /\
  (In k (map fst (snd state)) -> In k (map fst (snd state'))).
Proof.
  revert state. induction fieldIds as [|f fieldIds IH]; intros state; simpl; [auto|].
  destruct (IH (GenerateAll.step fetch request state f)) as [IHr IHe].
  destruct (step_keys request f k state) as [Hr He].
  split.
  - intros H. destruct (IHr H) as [|H']; [auto|]. destruct (Hr H'); auto.
  - auto.
Qed.

(** C2.  Each of the ten field ids of the with subtopics flow, and the id
    entro of the other flow, is answered with status 400 by the single-field
    handler; so for a request the bulk handler accepts in the with subtopics
    flow, the summary has no result, counts no success and holds an error
    for each of the ten ids, whether a request reaches the handler or fails
    on the way; and entro is among the errors of the other flow, never among
    its results. *)
Theorem generate_all_rejects_flow_ids (request : GenerateBox.Request) :
  GenerateBox.keywordRejected (GenerateBox.keyword request) = false ->
  let box := GenerateBox.POST OPENAI_API_KEY sheetsEnv valuesGet draft in
  (forall fieldId any, In fieldId ("entro" :: GenerateAll.withSubtopicsFields) ->
     GenerateBox.status (box fieldId any) = 400)
  /\
  (GenerateBox.flow request = VString "with subtopics" ->
     exists errors,
       GenerateAll.POST fetch request =
         GenerateAll.mkResponse 200
           (GenerateAll.SummaryBody [] (Some errors) "with subtopics" 10 0) /\
       map fst errors = GenerateAll.withSubtopicsFields)
  /\
  (GenerateBox.flow request = VString "no subtopics" ->
     exists results errors,
       GenerateAll.POST fetch request =
         GenerateAll.mkResponse 200
           (GenerateAll.SummaryBody results (Some errors) "no subtopics" 9
              (List.length results)) /\
       In "entro" (map fst errors) /\ ~ In "entro" (map fst results)).
Proof.
  intros Hk box. split; [|split].
  - intros fieldId any Hin. apply POST_invalid_field.
    simpl in Hin.
    repeat (destruct Hin as [<- | Hin]; [reflexivity|]). destruct Hin.
  - intros Hflow.
    assert (Hf : GenerateBox.flowRejected (GenerateBox.flow request) = false)
      by now rewrite Hflow.
    unfold GenerateAll.POST. rewrite Hk, Hf, Hflow.
    cbn [GenerateBox.stringOf].
    change (GenerateAll.fieldIdsOf "with subtopics") with GenerateAll.withSubtopicsFields.
    destruct (fold_step_invalid request GenerateAll.withSubtopicsFields [] []
                Hk Hf eq_refl) as (errors & Hfold & Hkeys).
    { repeat constructor; simpl; intuition discriminate. }
    rewrite Hfold. exists errors. split; [|exact Hkeys].
    destruct errors; [discriminate Hkeys | reflexivity].
  - intros Hflow.
    assert (Hf : GenerateBox.flowRejected (GenerateBox.flow request) = false)
      by now rewrite Hflow.
    unfold GenerateAll.POST. rewrite Hk, Hf, Hflow.
    cbn [GenerateBox.stringOf].
    change (GenerateAll.fieldIdsOf "no subtopics") with GenerateAll.noSubtopicsFields.
    unfold GenerateAll.noSubtopicsFields.
    set (rest := ["pic1"; "pic2"; "pic3"; "pic4"; "cost"; "why"; "faq"]).
    cbn [fold_left].
    destruct (GenerateAll.step fetch request ([], []) "title") as [r1 e1] eqn:E1.
    destruct (step_invalid request "entro" r1 e1 Hk Hf eq_refl) as (error & Hentro).
    rewrite Hentro.
    pose proof (step_keys request "title" "entro" ([], [])) as Htitle.
    cbv zeta in Htitle. rewrite E1 in Htitle. cbn [fst snd map] in Htitle.
    pose proof (fold_step_keys request rest "entro" (r1, recordSet "entro" error e1))
      as Hrest.
    cbv zeta in Hrest.
    destruct (fold_left (GenerateAll.step fetch request) rest _) as [results errors].
    cbn [fst snd] in Hrest. destruct Hrest as [Hr He].
    assert (Hin : In "entro" (map fst errors))
      by (apply He, recordSet_keys; auto).
    exists results, errors. split; [|split].
    + destruct errors; [destruct Hin | reflexivity].
    + exact Hin.
    + intros H. destruct (Hr H) as [Hrest | H1].
      * simpl in Hrest. intuition discriminate.
      * destruct Htitle as [Ht _]. destruct (Ht H1) as [? | []]. discriminate.
Qed.

End GenerateFacts.

Lemma generate_all_rejects_flow_ids_witness :
  exists errors,
    GenerateAll.POST GenerateAll.sampleFetch (GenerateAll.sampleRequest "with subtopics") =
      GenerateAll.mkResponse 200
        (GenerateAll.SummaryBody [] (Some errors) "with subtopics" 10 0) /\
    map fst errors = GenerateAll.withSubtopicsFields.
Proof.
  exact (proj1 (proj2 (generate_all_rejects_flow_ids
                         GenerateAll.sampleOutage
                         (Some "sk-test") GoogleSheetsPrompts.sampleEnv
                         (GoogleSheetsPrompts.sheetOf GoogleSheetsPrompts.samplePrompts)
                         GenerateAll.sampleDraft
                         (GenerateAll.sampleRequest "with subtopics") eq_refl))
           eq_refl).
Defined.

(** ** Title case *)

(** C4.  In the title of the single-field generator a small word that is
    not the first word stays capitalized when the text begins with the same
    letters: the second "the" below. *)
Theorem title_keeps_repeated_small_word :
  GenerateBox.finishContent "title" "junk removal" "the cat and the dog"
  = "The Cat and The Dog".
Proof. reflexivity. Qed.

(** C10.  The title case of the picture batch lowers that word, so the two
    functions differ on this text. *)
Theorem title_case_functions_differ :
  GeneratePictures.titleCaseLine "the cat and the dog" = "The Cat and the Dog" /\
  GenerateBox.applyTitleCase "the cat and the dog"
  <> GeneratePictures.titleCaseLine "the cat and the dog".
Proof. split; [reflexivity | discriminate]. Qed.

Section TitleCaseFacts.
Import Js.

Lemma prefix_empty (s : string) : String.prefix EmptyString s = true.
Proof. now destruct s. Qed.

Lemma prefix_cons (c : ascii) (w s : string) :
  String.prefix (String c w) (String c s) = String.prefix w s.
Proof. simpl. destruct (ascii_dec c c); [reflexivity | congruence]. Qed.

Lemma includes_cons (c : ascii) (s sub : string) :
  includes s sub = true -> includes (String c s) sub = true.
Proof. intros H. cbn [includes]. rewrite H. apply orb_true_r. Qed.

(** The first piece of a split text is at its head. *)
Lemma split_head (sep : ascii) (s : string) :
  exists w ws, split sep s = w :: ws /\ String.prefix w s = true.
Proof.
  induction s as [|c s (w & ws & Hs & Hp)]; [exists EmptyString, []; split; reflexivity|].
  cbn [split]. destruct (Ascii.eqb c sep).
  - exists EmptyString, (split sep s). split; reflexivity.
  - rewrite Hs. exists (String c w), ws. split; [reflexivity | now rewrite prefix_cons].
Qed.

(** Every piece of a split text is a part of it. *)
Lemma split_includes (sep : ascii) (s w : string) :
  In w (split sep s) -> includes s w = true.
Proof.
  revert w. induction s as [|c s IH]; intros w.
  - intros [<- | []]. reflexivity.
  - cbn [split]. destruct (Ascii.eqb c sep).
    + intros [<- | Hin]; [reflexivity | now apply includes_cons, IH].
    + destruct (split_head sep s) as (w0 & ws & Hs & Hp). rewrite Hs in *.
      intros [<- | Hin].
      * apply includes_prefix. now rewrite prefix_cons.
      * apply includes_cons, IH. now right.
Qed.

Lemma indexOfFrom_head (i : Z) (s sub : string) :
  String.prefix sub s = true -> indexOfFrom i s sub = i.
Proof. intros H. destruct s; cbn [indexOfFrom]; now rewrite H. Qed.

Lemma indexOfFrom_later (i : Z) (s sub : string) :
  String.prefix sub s = false -> includes s sub = true ->
  (i < indexOfFrom i s sub)%Z.
Proof.
  revert i. induction s as [|c s IH]; intros i Hp Hin.
  - cbn [includes] in Hin. rewrite Hp in Hin. discriminate.
  - cbn [indexOfFrom includes] in *. rewrite Hp in *. cbn [orb] in Hin.
    destruct (String.prefix sub s) eqn:E.
    + rewrite indexOfFrom_head by exact E. lia.
    + specialize (IH (i + 1)%Z eq_refl Hin). lia.
Qed.

Lemma map_mapIndexed {A B} (f : A -> B) (g : nat -> A -> B) (l : list A) (i : nat) :
  (forall j x, nth_error l j = Some x -> f x = g (i + j) x) ->
  map f l = GeneratePictures.mapIndexed g i l.
Proof.
  revert i. induction l as [|x l IH]; intros i H; [reflexivity|].
  cbn [map GeneratePictures.mapIndexed]. f_equal.
  - rewrite (H 0 x eq_refl). now rewrite Nat.add_0_r.
  - apply IH. intros j y Hj. rewrite (H (S j) y Hj). f_equal. lia.
Qed.

(** The two title-casing functions agree on every text in which no small
    word after the first word is also the beginning of the text. *)
Lemma title_case_functions_agree (content : string) :
  (forall i word,
     nth_error (split " "%char content) i = Some word -> 0 < i ->
     arrayIncludes GenerateBox.smallWords (toLowerCase word) = true ->
     String.prefix word content = false) ->
  GenerateBox.applyTitleCase content = GeneratePictures.titleCaseLine content.
Proof.
  intros H. unfold GenerateBox.applyTitleCase, GeneratePictures.titleCaseLine.
  do 2 f_equal. apply map_mapIndexed. intros j word Hj. cbn [Nat.add].
  unfold GenerateBox.titleWord, GeneratePictures.titleWord.
  destruct (arrayIncludes GenerateBox.smallWords (toLowerCase word)) eqn:Esmall;
    [|reflexivity].
  cbn [andb]. unfold indexOf. destruct j as [|j].
  - destruct (split_head " "%char content) as (w & ws & Hs & Hp).
    rewrite Hs in Hj. injection Hj as ->.
    now rewrite indexOfFrom_head.
  - specialize (H (S j) word Hj ltac:(lia) Esmall).
    assert (Hin : includes content word = true)
      by (eapply split_includes, nth_error_In; exact Hj).
    pose proof (indexOfFrom_later 0 content word H Hin) as Hlt.
    apply Z.ltb_lt in Hlt. now rewrite Hlt.
Qed.

End TitleCaseFacts.

(** ** Keyword substitution *)

Section StringFacts.
Import Js.

Lemma append_assoc (a b c : string) : (a +++ b) +++ c = a +++ b +++ c.
Proof. induction a as [|x a IH]; simpl; [reflexivity | now rewrite IH]. Qed.

Lemma append_empty_r (a : string) : a +++ EmptyString = a.
Proof. induction a as [|x a IH]; simpl; [reflexivity | now rewrite IH]. Qed.

Lemma length_append (a b : string) :
  String.length (a +++ b) = String.length a + String.length b.
Proof. induction a as [|x a IH]; simpl; [reflexivity | now rewrite IH]. Qed.

Lemma mapString_append (f : ascii -> ascii) (a b : string) :
  mapString f (a +++ b) = mapString f a +++ mapString f b.
Proof. induction a as [|x a IH]; simpl; [reflexivity | now rewrite IH]. Qed.

Lemma mapString_length (f : ascii -> ascii) (a : string) :
  String.length (mapString f a) = String.length a.
Proof. induction a as [|x a IH]; simpl; [reflexivity | now rewrite IH]. Qed.

Lemma takeString_mapString (f : ascii -> ascii) (n : nat) (a : string) :
  takeString n (mapString f a) = mapString f (takeString n a).
Proof.
  revert a. induction n as [|n IH]; intros [|x a]; simpl; try reflexivity.
  now rewrite IH.
Qed.

Lemma takeString_cons (n : nat) (c : ascii) (x : string) :
  takeString (S n) (String c x) = String c (takeString n x).
Proof. reflexivity. Qed.

Lemma lastChar_append_char (a : string) (c : ascii) :
  lastChar (a +++ String c EmptyString) = Some c.
Proof.
  induction a as [|x a IH]; [reflexivity|].
  cbn [String.append lastChar]. rewrite IH.
  destruct (a +++ String c EmptyString) eqn:E; [|reflexivity].
  destruct a; discriminate.
Qed.

Lemma lastChar_none (u : string) : lastChar u = None -> u = EmptyString.
Proof.
  induction u as [|x u IH]; [reflexivity|].
  cbn [lastChar]. destruct u as [|y u]; [discriminate|]. intros H.
  specialize (IH H). discriminate.
Qed.

Lemma lastOr_cons (prev : option ascii) (c : ascii) (u : string) :
  lastOr prev (String c u) = lastOr (Some c) u.
Proof.
  unfold lastOr. cbn [lastChar]. destruct u as [|y u]; [reflexivity|].
  destruct (lastChar (String y u)) eqn:E; [reflexivity|].
  apply lastChar_none in E. discriminate.
Qed.

(** [prefix p x] looks at the first characters of [x] only. *)
Lemma prefix_takeString (p x : string) (n : nat) :
  String.length p <= n -> String.prefix p (takeString n x) = String.prefix p x.
Proof.
  revert x n. induction p as [|a p IH]; intros x n Hn.
  - now destruct (takeString n x), x.
  - destruct n as [|n]; [simpl in Hn; lia|].
    destruct x as [|b x]; [reflexivity|]. simpl.
    destruct (ascii_dec a b); [|reflexivity]. apply IH. simpl in Hn. lia.
Qed.

(** A pattern found at the head of [x +++ y] goes along [x], or [x] along
    the pattern. *)
Lemma prefix_append_split (p x y : string) :
  String.prefix p (x +++ y) = true ->
  (String.length x <= String.length p /\
   x = takeString (String.length x) p /\
   String.prefix (dropString (String.length x) p) y = true)
  \/ String.prefix p x = true.
Proof.
  revert x. induction p as [|a p IH]; intros x H.
  - right. now destruct x.
  - destruct x as [|b x].
    + left. simpl. repeat split; [lia | exact H].
    + simpl in H. destruct (ascii_dec a b) as [<-|]; [|discriminate].
      destruct (IH x H) as [(Hl & Hx & Hp) | Hp].
      * left. simpl. repeat split; [lia | now rewrite <- Hx | exact Hp].
      * right. simpl. destruct (ascii_dec a a); [exact Hp | congruence].
Qed.

Lemma prefix_mapString (f : ascii -> ascii) (p x : string) :
  String.prefix p x = true -> String.prefix (mapString f p) (mapString f x) = true.
Proof.
  revert x. induction p as [|a p IH]; intros [|b x] H; simpl in *; try congruence.
  destruct (ascii_dec a b) as [<-|]; [|discriminate].
  destruct (ascii_dec (f a) (f a)); [now apply IH | congruence].
Qed.

Lemma hasChar_append (c : ascii) (a b : string) :
  hasChar c (a +++ b) = hasChar c a || hasChar c b.
Proof.
  induction a as [|x a IH]; simpl; [reflexivity|]. now rewrite IH, orb_assoc.
Qed.

Lemma prefix_hasChar (c : ascii) (p x : string) :
  String.prefix p x = true -> hasChar c p = true -> hasChar c x = true.
Proof.
  revert x. induction p as [|a p IH]; intros [|b x] H Hc; simpl in *; try congruence.
  destruct (ascii_dec a b) as [<-|]; [|discriminate].
  destruct (Ascii.eqb a c); [reflexivity|]. simpl in *. now apply IH.
Qed.

Lemma includes_tail (s sub : string) (c : ascii) :
  includes (String c s) sub = false -> includes s sub = false.
Proof. cbn [includes]. now intros [_ H]%orb_false_iff. Qed.

Lemma includes_head (s sub : string) :
  includes s sub = false -> String.prefix sub s = false.
Proof. destruct s; cbn [includes]; now intros [H _]%orb_false_iff. Qed.

End StringFacts.

Section ScanFacts.
Import Js.

Variable m : Matcher.
Variable k : string.

(** A replacement without a dollar sign is taken as it is. *)
Lemma getSubstitution_literal (matched before after : string) :
  hasChar "$"%char k = false -> getSubstitution matched before after k = k.
Proof.
  induction k as [|c r IH]; [reflexivity|].
  cbn [hasChar getSubstitution]. intros [Hc Hr]%orb_false_iff.
  rewrite Hc. now rewrite IH.
Qed.

Lemma replaceFrom_scan (skip : nat) (before s : string) :
  hasChar "$"%char k = false ->
  replaceFrom m k skip before s = scan m k skip (lastChar before) s.
Proof.
  intros Hk. revert skip before.
  induction s as [|c s IH]; intros skip before; [reflexivity|].
  cbn [replaceFrom scan]. destruct skip as [|j].
  - destruct (m (lastChar before) (String c s)) as [|j];
      rewrite IH, lastChar_append_char; [reflexivity|].
    now rewrite getSubstitution_literal.
  - now rewrite IH, lastChar_append_char.
Qed.

Lemma replaceAll_scan (s : string) :
  hasChar "$"%char k = false -> replaceAll m k s = scan m k 0 None s.
Proof. intros Hk. unfold replaceAll. now rewrite replaceFrom_scan. Qed.

(** Where the expression matches nowhere, the scan changes nothing. *)
Lemma scan_quiet (prev : option ascii) (s : string) :
  quiet m prev s -> scan m k 0 prev s = s.
Proof.
  revert prev. induction s as [|c s IH]; intros prev; [reflexivity|].
  cbn [quiet]. intros [E H]. cbn [scan]. rewrite E. now rewrite IH.
Qed.

(** The output of the scan starts like its input, up to the first match. *)
Lemma scan_shape (s : string) (n : nat) (prev : option ascii) :
  takeString n (scan m k 0 prev s) = takeString n s \/
  exists u v rest,
    String.length u < n /\ s = u +++ v /\
    scan m k 0 prev s = u +++ k +++ rest /\
    m (lastOr prev u) v <> 0.
Proof.
  revert n prev. induction s as [|c s IH]; intros n prev; [now left|].
  destruct n as [|n]; [now left|].
  cbn [scan]. destruct (m prev (String c s)) as [|j] eqn:E.
  - destruct (IH n (Some c)) as [H | (u & v & rest & Hu & Hs & Ho & Hm)].
    + left. cbn [takeString]. now rewrite H.
    + right. exists (String c u), v, rest. rewrite lastOr_cons.
      repeat split; [simpl; lia | now rewrite Hs | now rewrite Ho | exact Hm].
  - right. exists EmptyString, (String c s), (scan m k j (Some c) s).
    repeat split; [simpl; lia|]. unfold lastOr. cbn [lastChar]. rewrite E. discriminate.
Qed.

End ScanFacts.

Section BracesFacts.
Import Js GenerateBox.

Lemma toLowerChar_brace (c b : ascii) :
  isUpper b = false -> isLower b = false ->
  Ascii.eqb (toLowerChar c) b = Ascii.eqb c b.
Proof.
  intros Hu Hl. unfold toLowerChar. destruct (isUpper c) eqn:Ec; [|reflexivity].
  destruct (Ascii.eqb_spec c b) as [->|Hne]; [congruence|].
  apply Ascii.eqb_neq. intros <-.
  revert Ec Hl. clear. destruct c as [[] [] [] [] [] [] [] []]; vm_compute; congruence.
Qed.

Lemma hasChar_toLowerCase (b : ascii) (s : string) :
  isUpper b = false -> isLower b = false ->
  hasChar b (toLowerCase s) = hasChar b s.
Proof.
  intros Hu Hl. induction s as [|c s IH]; [reflexivity|].
  cbn [toLowerCase mapString hasChar]. fold (toLowerCase s).
  now rewrite IH, toLowerChar_brace.
Qed.

Lemma prefix_length (p x : string) :
  String.prefix p x = true -> String.length p <= String.length x.
Proof.
  revert x. induction p as [|a p IH]; intros [|b x] H; simpl in *; try lia; try discriminate.
  destruct (ascii_dec a b); [|discriminate]. apply IH in H. lia.
Qed.

Lemma partsChecked_true : partsChecked = true.
Proof. vm_compute. reflexivity. Qed.

Lemma partChecked_true (i n : nat) : i <= 10 -> n <= 11 -> partChecked i n = true.
Proof.
  intros Hi Hn. pose proof partsChecked_true as H. unfold partsChecked in H.
  rewrite forallb_forall in H. specialize (H i). rewrite in_seq in H.
  specialize (H ltac:(lia)). rewrite forallb_forall in H.
  apply H. apply in_seq. lia.
Qed.

Lemma dropped_placeholder_brace (i : nat) :
  i <= 10 -> hasChar "}"%char (dropString i "{{keyword}}") = true.
Proof.
  intros Hi. do 11 (destruct i as [|i]; [reflexivity|]). lia.
Qed.

Lemma dropString_length (n : nat) (s : string) :
  String.length (dropString n s) = String.length s - n.
Proof.
  revert s. induction n as [|n IH]; intros [|c s]; simpl; try lia. apply IH.
Qed.

Variable k : string.
Hypothesis Hplain : plainKeyword k = true.

Lemma plain_parts :
  hasChar "$"%char k = false /\ hasChar "{"%char k = false /\
  hasChar "}"%char k = false /\ includes "keyword" (toLowerCase k) = false /\
  includes k "KEYWORD" = false.
Proof.
  unfold plainKeyword in Hplain.
  repeat (apply andb_true_iff in Hplain; destruct Hplain as [Hplain ?]).
  repeat split; now apply negb_true_iff.
Qed.

(** No placeholder in braces starts within ten characters before a copy
    of the keyword. *)
Lemma braces_not_across (u rest : string) :
  String.length u <= 10 ->
  String.prefix "{{keyword}}" (toLowerCase (u +++ k +++ rest)) = false.
Proof.
  intros Hu. destruct plain_parts as (_ & Hopen & Hclose & Hpart & _).
  destruct (String.prefix _ _) eqn:E; [exfalso | reflexivity].
  unfold toLowerCase in E. rewrite !mapString_append in E.
  fold (toLowerCase u) (toLowerCase k) (toLowerCase rest) in E.
  assert (Hlu : String.length (toLowerCase u) = String.length u)
    by apply mapString_length.
  apply prefix_append_split in E.
  destruct E as [(_ & _ & E) | E]; [|apply prefix_length in E; simpl in E; lia].
  rewrite Hlu in E. apply prefix_append_split in E.
  destruct E as [(Hlen & Hk & _) | E].
  - pose proof (partChecked_true (String.length u) (String.length (toLowerCase k)) Hu) as Hc.
    rewrite dropString_length in Hlen.
    change (String.length "{{keyword}}") with 11 in Hlen.
    specialize (Hc ltac:(lia)). unfold partChecked, placeholderPart in Hc.
    rewrite <- Hk in Hc.
    rewrite !hasChar_toLowerCase, Hopen, Hclose, Hpart in Hc by reflexivity.
    rewrite !orb_false_r in Hc. apply Nat.eqb_eq in Hc.
    destruct (toLowerCase k); [discriminate Hpart | discriminate Hc].
  - apply (prefix_hasChar "}"%char) in E; [|now apply dropped_placeholder_brace].
    rewrite hasChar_toLowerCase in E by reflexivity. congruence.
Qed.

Lemma braces_window (p q : option ascii) (x y : string) :
  takeString 11 x = takeString 11 y ->
  keywordBracesAnyCase p x = keywordBracesAnyCase q y.
Proof.
  intros H. unfold keywordBracesAnyCase.
  rewrite <- (prefix_takeString "{{keyword}}" (toLowerCase x) 11) by (simpl; lia).
  rewrite <- (prefix_takeString "{{keyword}}" (toLowerCase y) 11) by (simpl; lia).
  unfold toLowerCase. now rewrite !takeString_mapString, H.
Qed.

Lemma braces_not_at (p : option ascii) (c : ascii) (x : string) :
  Ascii.eqb c "{"%char = false -> keywordBracesAnyCase p (String c x) = 0.
Proof.
  intros Hc. unfold keywordBracesAnyCase.
  cbn [toLowerCase mapString String.prefix].
  destruct (ascii_dec "{"%char (toLowerChar c)) as [E|]; [|reflexivity].
  rewrite <- (toLowerChar_brace c) in Hc by reflexivity.
  rewrite <- E in Hc. discriminate.
Qed.

Lemma quiet_braces_prev (p q : option ascii) (s : string) :
  quiet keywordBracesAnyCase p s -> quiet keywordBracesAnyCase q s.
Proof. destruct s; [trivial | exact (fun H => H)]. Qed.

(** A copy of the keyword holds no start of a placeholder in braces. *)
Lemma quiet_braces_block (b rest : string) (p q : option ascii) :
  hasChar "{"%char b = false ->
  quiet keywordBracesAnyCase q rest ->
  quiet keywordBracesAnyCase p (b +++ rest).
Proof.
  revert p. induction b as [|c b IH]; intros p Hb Hrest.
  - exact (quiet_braces_prev _ _ _ Hrest).
  - cbn [hasChar] in Hb. apply orb_false_iff in Hb. destruct Hb as [Hc Hb].
    cbn [String.append quiet]. split; [now apply braces_not_at | now apply IH].
Qed.

(** Whatever expression the scan replaces by the keyword, a placeholder in
    braces is in its output only where one was left in its input. *)
Lemma scan_quiet_braces (m : Matcher) (s : string) (skip : nat)
    (prev p : option ascii) :
  quiet (unlessMatched m keywordBracesAnyCase) prev s ->
  quiet keywordBracesAnyCase p (scan m k skip prev s).
Proof.
  destruct plain_parts as (_ & Hopen & _).
  revert skip prev p. induction s as [|c s IH]; intros skip prev p; [intros _; exact I|].
  cbn [quiet scan]. intros [Hhere Hs].
  destruct skip as [|j]; [|now apply IH].
  unfold unlessMatched in Hhere.
  destruct (m prev (String c s)) as [|j].
  - cbn [quiet]. split; [|now apply IH].
    destruct (scan_shape m k s 10 (Some c)) as [H | (u & v & rest & Hu & _ & Ho & _)].
    + etransitivity; [|exact Hhere].
      apply braces_window. now rewrite !(takeString_cons 10), H.
    + rewrite Ho. unfold keywordBracesAnyCase.
      change (String c (u +++ k +++ rest)) with (String c u +++ k +++ rest).
      rewrite braces_not_across; [reflexivity | simpl; lia].
  - apply quiet_braces_block with (q := None); [exact Hopen | now apply IH].
Qed.

End BracesFacts.

Section WordFacts.
Import Js GenerateBox.

Lemma get_takeString (i n : nat) (x : string) :
  i < n -> String.get i (takeString n x) = String.get i x.
Proof.
  revert i x. induction n as [|n IH]; intros i x Hi; [lia|].
  destruct x as [|c x]; [reflexivity|].
  destruct i as [|i]; [reflexivity|]. cbn [takeString String.get]. apply IH. lia.
Qed.

Lemma get_dropString (n : nat) (x : string) :
  String.get n x = match dropString n x with
                   | EmptyString => None
                   | String c _ => Some c
                   end.
Proof.
  revert x. induction n as [|n IH]; intros [|c x]; try reflexivity. apply IH.
Qed.

Lemma isWordAt_headNonWord (n : nat) (x : string) :
  isWordAt n x = false -> headNonWord (dropString n x).
Proof.
  unfold isWordAt. rewrite get_dropString.
  destruct (dropString n x); [intros _; exact I | exact (fun H => H)].
Qed.

Lemma word_window (p : option ascii) (x y : string) :
  takeString 8 x = takeString 8 y -> keywordWord p x = keywordWord p y.
Proof.
  intros H. unfold keywordWord, isWordAt.
  rewrite <- (prefix_takeString "KEYWORD" x 8) by (simpl; lia).
  rewrite <- (prefix_takeString "KEYWORD" y 8) by (simpl; lia).
  rewrite <- (get_takeString 7 8 x), <- (get_takeString 7 8 y) by lia.
  now rewrite H.
Qed.

(** What a match of the word tells. *)
Lemma word_match (p : option ascii) (x : string) :
  keywordWord p x <> 0 ->
  keywordWord p x = 7 /\ String.prefix "KEYWORD" x = true /\
  isWordBefore p = false /\ headNonWord (dropString 7 x).
Proof.
  unfold keywordWord.
  destruct (String.prefix "KEYWORD" x); [|intros []; reflexivity].
  destruct (isWordBefore p); [intros []; reflexivity|].
  destruct (isWordAt 7 x) eqn:E; [intros []; reflexivity|].
  intros _. repeat split. now apply isWordAt_headNonWord.
Qed.

Lemma word_not_at (p : option ascii) (x : string) :
  headNonWord x -> keywordWord p x = 0.
Proof.
  destruct x as [|c x]; [reflexivity|]. cbn [headNonWord]. intros Hc.
  unfold keywordWord. cbn [String.prefix].
  destruct (ascii_dec "K"%char c) as [<-|]; [discriminate | reflexivity].
Qed.

Lemma prefix_whole (p x : string) :
  String.prefix p x = true -> String.length x <= String.length p -> x = p.
Proof.
  revert x. induction p as [|a p IH]; intros [|b x] H Hl; simpl in *;
    try reflexivity; try discriminate; try lia.
  destruct (ascii_dec a b) as [<-|]; [|discriminate]. f_equal. apply IH; [exact H | lia].
Qed.

(** Before a match of the word that starts within [x], the last character
    of [x] is a letter of the word. *)
Lemma word_prefix_last (x y : string) :
  String.prefix "KEYWORD" (x +++ y) = true ->
  1 <= String.length x <= 7 ->
  isWordBefore (lastChar x) = true.
Proof.
  intros H Hx. apply prefix_append_split in H.
  destruct H as [(_ & -> & _) | H].
  - destruct Hx as [H1 H7]. revert H1 H7. generalize (String.length x). intros n H1 H7.
    do 8 (destruct n as [|n]; [try lia; reflexivity|]). lia.
  - apply prefix_whole in H; [|simpl; lia]. now subst x.
Qed.

Lemma word_not_across (b rest : string) :
  includes b "KEYWORD" = false -> headNonWord rest ->
  String.prefix "KEYWORD" (b +++ rest) = false.
Proof.
  intros Hb Hrest. destruct (String.prefix _ _) eqn:E; [exfalso | reflexivity].
  apply prefix_append_split in E. destruct E as [(Hl & Hx & Hp) | E].
  - revert Hl Hx Hp. generalize (String.length b) as n. intros n Hl Hx Hp.
    change (String.length "KEYWORD") with 7 in Hl.
    destruct rest as [|d rest].
    + do 7 (destruct n as [|n]; [discriminate Hp|]).
      assert (n = 0) as -> by lia. subst b. discriminate Hb.
    + cbn [headNonWord] in Hrest.
      do 7 (destruct n as [|n];
            [cbn [dropString String.prefix] in Hp;
             match type of Hp with
             | context [ascii_dec ?a d] => destruct (ascii_dec a d) as [<-|]
             end; discriminate|]).
      assert (n = 0) as -> by lia. subst b. discriminate Hb.
  - apply includes_head in Hb. congruence.
Qed.

Variable k : string.
Hypothesis Hword : includes k "KEYWORD" = false.

Lemma scan_headNonWord (s : string) (skip : nat) (prev : option ascii) :
  headNonWord (dropString skip s) -> headNonWord (scan keywordWord k skip prev s).
Proof.
  revert skip prev. induction s as [|c s IH]; intros skip prev; [intros _; exact I|].
  destruct skip as [|j]; cbn [dropString scan]; [|apply IH].
  intros Hc. rewrite word_not_at by exact Hc. exact Hc.
Qed.

(** A copy of the keyword, followed by what is no word character, holds
    no match of the word. *)
Lemma quiet_word_block (b rest : string) (p : option ascii) :
  includes b "KEYWORD" = false -> headNonWord rest ->
  (forall q, quiet keywordWord q rest) ->
  quiet keywordWord p (b +++ rest).
Proof.
  intros Hb Hhead Hrest. revert p Hb.
  induction b as [|c b IH]; intros p Hb; [apply Hrest|].
  cbn [String.append quiet]. split.
  - unfold keywordWord.
    change (String c (b +++ rest)) with (String c b +++ rest).
    now rewrite word_not_across.
  - apply IH. now apply includes_tail in Hb.
Qed.

(** The output of the replacement of the word holds no match of it. *)
Lemma scan_quiet_word (s : string) (skip : nat) (prev p : option ascii) :
  match skip with
  | 0 => p = prev \/ headNonWord s
  | S _ => headNonWord (dropString skip s)
  end ->
  quiet keywordWord p (scan keywordWord k skip prev s).
Proof.
  revert skip prev p. induction s as [|c s IH]; intros skip prev p Hstate; [exact I|].
  destruct skip as [|j].
  - cbn [scan]. destruct (keywordWord prev (String c s)) as [|j] eqn:E.
    + cbn [quiet]. split; [|apply IH; now left].
      destruct Hstate as [-> | Hhead]; [|now apply word_not_at].
      destruct (scan_shape keywordWord k s 7 (Some c))
        as [H | (u & v & rest & Hu & _ & Ho & Hm)].
      * etransitivity; [|exact E].
        apply word_window. now rewrite !(takeString_cons 7), H.
      * rewrite Ho. apply word_match in Hm. destruct Hm as (_ & _ & Hlast & _).
        unfold keywordWord.
        destruct (String.prefix "KEYWORD" (String c (u +++ k +++ rest))) eqn:Ep;
          [|reflexivity].
        change (String c (u +++ k +++ rest)) with (String c u +++ k +++ rest) in Ep.
        apply word_prefix_last in Ep; [|simpl; lia].
        rewrite <- (lastOr_cons None) in Hlast. unfold lastOr in Hlast.
        destruct (lastChar (String c u)); [congruence | discriminate Ep].
    + assert (Hm : keywordWord prev (String c s) <> 0) by (rewrite E; discriminate).
      apply word_match in Hm. destruct Hm as (H7 & _ & _ & Hhead).
      rewrite E in H7. injection H7 as ->. cbn [dropString] in Hhead.
      apply quiet_word_block; [exact Hword | now apply scan_headNonWord |].
      intros q. now apply IH.
  - cbn [scan]. cbn [dropString] in Hstate. apply IH.
    destruct j; [now right | exact Hstate].
Qed.

End WordFacts.

Section SubstituteFacts.
Import Js GenerateBox.

Lemma quiet_weaken (m m' : Matcher) :
  (forall p x, m p x = 0 -> m' p x = 0) ->
  forall p s, quiet m p s -> quiet m' p s.
Proof.
  intros Himp p s. revert p. induction s as [|c s IH]; intros p; [trivial|].
  cbn [quiet]. intros [H Hs]. split; [now apply Himp | now apply IH].
Qed.

Lemma quiet_never (m : Matcher) :
  (forall p x, m p x = 0) -> forall p s, quiet m p s.
Proof.
  intros H p s. revert p. induction s as [|c s IH]; intros p; [exact I|].
  split; [apply H | apply IH].
Qed.

Lemma braces_upper_any (p : option ascii) (x : string) :
  keywordBracesAnyCase p x = 0 -> keywordBracesUpper p x = 0.
Proof.
  unfold keywordBracesAnyCase, keywordBracesUpper.
  destruct (String.prefix "{{KEYWORD}}" x) eqn:E; [|reflexivity].
  apply (prefix_mapString toLowerChar) in E.
  change (mapString toLowerChar "{{KEYWORD}}") with "{{keyword}}" in E.
  unfold toLowerCase. now rewrite E.
Qed.

(** C9, as the code has it.  For a keyword without a dollar sign or a
    brace, that is no part of the word keyword in any case and does not
    contain KEYWORD, substituting twice gives what substituting once
    gives, on every text. *)
Theorem substituteKeyword_idempotent (text keyword : string) :
  plainKeyword keyword = true ->
  substituteKeyword (substituteKeyword text keyword) keyword
  = substituteKeyword text keyword.
Proof.
  intros Hplain.
  destruct (plain_parts keyword Hplain) as (Hdollar & _ & _ & _ & Hword).
  unfold substituteKeyword. rewrite !replaceAll_scan by exact Hdollar.
  set (t1 := scan keywordBracesAnyCase keyword 0 None text).
  assert (Q1 : quiet keywordBracesAnyCase None t1).
  { apply (scan_quiet_braces keyword Hplain). apply quiet_never.
    intros p x. unfold unlessMatched. now destruct (keywordBracesAnyCase p x) eqn:E. }
  assert (E2 : scan keywordBracesUpper keyword 0 None t1 = t1).
  { apply scan_quiet. revert Q1. apply quiet_weaken, braces_upper_any. }
  rewrite E2.
  set (t3 := scan keywordWord keyword 0 None t1).
  assert (Q31 : quiet keywordBracesAnyCase None t3).
  { apply (scan_quiet_braces keyword Hplain). revert Q1. apply quiet_weaken.
    intros p x H. unfold unlessMatched. now destruct (keywordWord p x). }
  assert (Q33 : quiet keywordWord None t3).
  { apply (scan_quiet_word keyword Hword). now left. }
  rewrite (scan_quiet keywordBracesAnyCase keyword None t3 Q31).
  rewrite (scan_quiet keywordBracesUpper keyword None t3)
    by (revert Q31; apply quiet_weaken, braces_upper_any).
  now apply scan_quiet.
Qed.

Lemma substituteKeyword_idempotent_witness :
  substituteKeyword
    (substituteKeyword "Write about {{Keyword}}: why KEYWORD, not KEYWORDS." "junk removal")
    "junk removal"
  = "Write about junk removal: why junk removal, not KEYWORDS.".
Proof.
  rewrite (substituteKeyword_idempotent _ "junk removal" eq_refl). reflexivity.
Defined.

(** A keyword that holds the word KEYWORD is substituted again on the
    second pass. *)
Lemma substituteKeyword_not_idempotent :
  substituteKeyword (substituteKeyword "Write about KEYWORD." "KEYWORD research")
                    "KEYWORD research"
  <> substituteKeyword "Write about KEYWORD." "KEYWORD research".
Proof. vm_compute. discriminate. Qed.

End SubstituteFacts.

(** ** The picture batch *)

Section GeneratePicturesFacts.
Import Js GeneratePictures.

Lemma randomIndex_below (bound : nat) (r : Q) :
  (0 <= r)%Q -> (r < 1)%Q -> 0 < bound -> randomIndex bound r < bound.
Proof.
  intros H0 H1 Hb. unfold randomIndex.
  set (b := inject_Z (Z.of_nat bound)).
  assert (Hbpos : (inject_Z 0 < b)%Q) by (unfold b; rewrite <- Zlt_Qlt; lia).
  assert (Hlt : (Qfloor (r * b) < Z.of_nat bound)%Z).
  { rewrite Zlt_Qlt. fold b.
    apply Qle_lt_trans with (r * b)%Q; [apply Qfloor_le|].
    rewrite <- (Qmult_1_l b) at 2. now apply Qmult_lt_compat_r. }
  assert (Hge : (0 <= Qfloor (r * b))%Z).
  { change 0%Z with (Qfloor (inject_Z 0)). apply Qfloor_resp_le.
    apply Qmult_le_0_compat; [exact H0 | now apply Qlt_le_weak]. }
  lia.
Qed.

Lemma setAdd_In (i j : nat) (selected : list nat) :
  In j (setAdd i selected) <-> j = i \/ In j selected.
Proof.
  unfold setAdd. destruct (existsb (Nat.eqb i) selected) eqn:E.
  - apply existsb_exists in E. destruct E as (x & Hx & ->%Nat.eqb_eq).
    split; [auto | intros [-> | H]; auto].
  - rewrite in_app_iff. simpl. intuition congruence.
Qed.

Lemma setAdd_selection (bound i : nat) (selected : list nat) :
  selection bound selected -> List.length selected < 4 -> i < bound ->
  selection bound (setAdd i selected).
Proof.
  intros (Hnd & Hlen & Hall) Hlt Hi. unfold setAdd.
  destruct (existsb (Nat.eqb i) selected) eqn:E; [repeat split; assumption|].
  repeat split.
  - apply NoDup_app; repeat split; auto.
    + constructor; [intros [] | constructor].
    + intros x Hx [Hix | []]. subst x.
      assert (existsb (Nat.eqb i) selected = true)
        by (apply existsb_exists; exists i; split; [exact Hx | apply Nat.eqb_refl]).
      congruence.
  - rewrite length_app. simpl. lia.
  - apply Forall_app. split; [exact Hall | repeat constructor; exact Hi].
Qed.

(** When the loop ends on at least four candidates, it has selected four
    distinct indices below the bound. *)
Lemma selectIndices_selection (count : nat) (draws : list Q)
    (selected result : list nat) :
  4 <= count -> unitDraws draws ->
  selection (Nat.min count 13) selected ->
  selectIndices count draws selected = Some result ->
  selection (Nat.min count 13) result /\ List.length result = 4.
Proof.
  intros Hcount Hdraws. revert selected.
  induction Hdraws as [|r draws [Hr0 Hr1] _ IH]; intros selected Hsel; simpl.
  - destruct (List.length selected <? 4) eqn:E4; simpl.
    + replace (List.length selected <? count) with true; [discriminate|].
      symmetry. apply Nat.ltb_lt. apply Nat.ltb_lt in E4. lia.
    + intros H. injection H as <-. apply Nat.ltb_ge in E4.
      destruct Hsel as (? & ? & ?). repeat split; auto. lia.
  - destruct (List.length selected <? 4) eqn:E4; simpl.
    + replace (List.length selected <? count) with true
        by (symmetry; apply Nat.ltb_lt; apply Nat.ltb_lt in E4; lia).
      apply IH. apply setAdd_selection; auto.
      * now apply Nat.ltb_lt.
      * apply randomIndex_below; auto. lia.
    + intros H. injection H as <-. apply Nat.ltb_ge in E4.
      destruct Hsel as (? & ? & ?). repeat split; auto. lia.
Qed.

Lemma nodup_length_incl (l l' : list nat) :
  incl l l' ->
  List.length (nodup Nat.eq_dec l) <= List.length (nodup Nat.eq_dec l').
Proof.
  intros H. apply NoDup_incl_length; [apply NoDup_nodup|].
  intros x Hx. apply nodup_In. apply H. now apply nodup_In in Hx.
Qed.

(** The loop ends once the selected indices and those of the draws left
    are four or more. *)
Lemma selectIndices_ends (count : nat) (draws : list Q) (selected : list nat) :
  4 <= count -> NoDup selected ->
  4 <= List.length
         (nodup Nat.eq_dec
            (selected ++ map (randomIndex (Nat.min count 13)) draws)) ->
  exists result, selectIndices count draws selected = Some result.
Proof.
  intros Hcount. revert selected.
  induction draws as [|r draws IH]; intros selected Hnd Hfour; simpl.
  - rewrite app_nil_r, nodup_fixed_point in Hfour by exact Hnd.
    replace (List.length selected <? 4) with false
      by (symmetry; apply Nat.ltb_ge; exact Hfour).
    simpl. eauto.
  - destruct (List.length selected <? 4) eqn:E4; simpl; [|eauto].
    replace (List.length selected <? count) with true
      by (symmetry; apply Nat.ltb_lt; apply Nat.ltb_lt in E4; lia).
    apply IH.
    + unfold setAdd. destruct (existsb _ selected) eqn:E; [exact Hnd|].
      apply NoDup_app; repeat split; auto.
      * constructor; [intros [] | constructor].
      * intros x Hx [Hix | []]. subst x.
        match type of E with existsb (Nat.eqb ?i) _ = _ =>
          assert (existsb (Nat.eqb i) selected = true)
            by (apply existsb_exists; exists i; split; [exact Hx | apply Nat.eqb_refl])
        end.
        congruence.
    + eapply Nat.le_trans; [exact Hfour|]. apply nodup_length_incl.
      intros x Hx. apply in_app_iff in Hx. apply in_app_iff.
      simpl in Hx. rewrite setAdd_In. intuition auto.
Qed.

Lemma respond_selected (combinations : list Combination) (draws : list Q)
    (i1 i2 i3 i4 : nat) :
  4 <= List.length combinations ->
  selectIndices (List.length combinations) draws [] = Some [i1; i2; i3; i4] ->
  Forall (fun i => i < List.length combinations) [i1; i2; i3; i4] ->
  exists response,
    respond combinations draws = Some response /\
    carries combinations response i1 i2 i3 i4.
Proof.
  intros Hlen Hsel Hall. unfold respond.
  replace (List.length combinations <? 4) with false
    by (symmetry; apply Nat.ltb_ge; exact Hlen).
  rewrite Hsel.
  inversion Hall as [|? ? H1 Hall1]; subst.
  inversion Hall1 as [|? ? H2 Hall2]; subst.
  inversion Hall2 as [|? ? H3 Hall3]; subst.
  inversion Hall3 as [|? ? H4 _]; subst.
  destruct (nth_error combinations i1) as [c1|] eqn:E1;
    [|apply nth_error_None in E1; lia].
  destruct (nth_error combinations i2) as [c2|] eqn:E2;
    [|apply nth_error_None in E2; lia].
  destruct (nth_error combinations i3) as [c3|] eqn:E3;
    [|apply nth_error_None in E3; lia].
  destruct (nth_error combinations i4) as [c4|] eqn:E4;
    [|apply nth_error_None in E4; lia].
  cbn [map]. rewrite E1, E2, E3, E4.
  eexists. split; [reflexivity|].
  exists c1, c2, c3, c4. repeat split; assumption.
Qed.

(** C6.  On draws of the random generator: with fewer than four
    combinations the handler answers with an error and no outputs; with
    four or more, every answer carries the outputs of four pairwise
    distinct indices below the smaller of the number of combinations and
    13, mapped to pic1 to pic4 in the order selected, and there is an
    answer as soon as the draws hit four different indices. *)
Theorem picture_selection (combinations : list Combination) (draws : list Q) :
  unitDraws draws ->
  (List.length combinations < 4 ->
     exists error, respond combinations draws = Some (mkResponse 500 (ErrorBody error)))
  /\
  (4 <= List.length combinations ->
     (forall response, respond combinations draws = Some response ->
        exists i1 i2 i3 i4,
          NoDup [i1; i2; i3; i4] /\
          Forall (fun i => i < Nat.min (List.length combinations) 13) [i1; i2; i3; i4] /\
          carries combinations response i1 i2 i3 i4)
     /\
     (fourDistinct (List.length combinations) draws ->
        exists response, respond combinations draws = Some response)).
Proof.
  intros Hdraws. split.
  - intros Hlt. unfold respond.
    replace (List.length combinations <? 4) with true
      by (symmetry; apply Nat.ltb_lt; exact Hlt).
    eauto.
  - intros Hlen.
    assert (Hinit : selection (Nat.min (List.length combinations) 13) [])
      by (repeat split; [constructor | simpl; lia | constructor]).
    assert (Hshape : forall result,
               selectIndices (List.length combinations) draws [] = Some result ->
               exists i1 i2 i3 i4, result = [i1; i2; i3; i4] /\
                 NoDup [i1; i2; i3; i4] /\
                 Forall (fun i => i < Nat.min (List.length combinations) 13)
                        [i1; i2; i3; i4]).
    { intros result Hres.
      destruct (selectIndices_selection _ _ _ _ Hlen Hdraws Hinit Hres)
        as ((Hnd & _ & Hall) & Hfour).
      destruct result as [|i1 [|i2 [|i3 [|i4 [|]]]]]; try discriminate.
      exists i1, i2, i3, i4. auto. }
    assert (Hbelow : forall l,
               Forall (fun i => i < Nat.min (List.length combinations) 13) l ->
               Forall (fun i => i < List.length combinations) l).
    { intros l. apply Forall_impl. intros. lia. }
    split.
    + intros response Hresp.
      destruct (selectIndices (List.length combinations) draws []) as [result|] eqn:Hsel.
      * destruct (Hshape result eq_refl) as (i1 & i2 & i3 & i4 & -> & Hnd & Hall).
        destruct (respond_selected _ _ _ _ _ _ Hlen Hsel (Hbelow _ Hall))
          as (response' & Hresp' & Hcarries).
        rewrite Hresp in Hresp'. injection Hresp' as <-.
        exists i1, i2, i3, i4. auto.
      * unfold respond in Hresp. rewrite Hsel in Hresp.
        replace (List.length combinations <? 4) with false in Hresp
          by (symmetry; apply Nat.ltb_ge; exact Hlen).
        discriminate.
    + intros Hfour.
      destruct (selectIndices_ends (List.length combinations) draws [] Hlen)
        as (result & Hsel); [constructor | exact Hfour |].
      destruct (Hshape result Hsel) as (i1 & i2 & i3 & i4 & -> & _ & Hall).
      destruct (respond_selected _ _ _ _ _ _ Hlen Hsel (Hbelow _ Hall))
        as (response & Hresp & _).
      eauto.
Qed.

Lemma picture_selection_witness :
  exists response, respond sampleCombinations sampleDraws = Some response.
Proof.
  assert (Hdraws : unitDraws sampleDraws).
  { repeat constructor; unfold Qle, Qlt; simpl; lia. }
  apply (proj2 (proj2 (picture_selection sampleCombinations sampleDraws Hdraws)
                  ltac:(simpl; lia))).
  unfold fourDistinct. vm_compute. lia.
Defined.

End GeneratePicturesFacts.

(** ** The loaded prompts and the prompt of one field *)

Section PromptForFieldFacts.
Import Js Sheets PromptsFromSheets PromptForField.

Lemma trim_truthy_nonempty (s : string) : truthy (trim s) = true -> trim s <> EmptyString.
Proof. now intros H%truthy_true_iff. Qed.

Lemma restrict_picture (flag : bool) (id : string) (mapped : FieldId) :
  restrict flag id = Some mapped -> flag = true -> mapped = FieldName "subtopics".
Proof. intros H ->. now apply restrict_row17 in H. Qed.

(** Under the row 17 restriction a title maps to the subtopics field or to
    nothing. *)
Lemma mapFieldTitleToId_row17 (fieldTitle : string) (mapped : FieldId) :
  mapFieldTitleToId fieldTitle true = Some mapped -> mapped = FieldName "subtopics".
Proof.
  unfold mapFieldTitleToId.
  destruct (recordGet titleMappings _) as [id| |].
  - apply restrict_row17.
  - discriminate.
  - destruct (partialMatch _ _) as [id|]; [apply restrict_row17 | discriminate].
Qed.

Lemma blankRow_false (row : list string) :
  blankRow row = false ->
  trim (cell 0 row) <> EmptyString /\ trim (cell 1 row) <> EmptyString.
Proof.
  unfold blankRow. intros [H0 H1]%orb_false_iff.
  apply negb_false_iff in H0, H1. split; now apply trim_truthy_nonempty.
Qed.

Lemma processRows_wellFormed (rows : list (list string)) (i : nat) :
  Forall wellFormed (processRows i rows).
Proof.
  revert i. induction rows as [|row rows IH]; intros i; [constructor|].
  cbn [processRows]. destruct (blankRow row) eqn:Eb; [apply IH|].
  destruct (blankRow_false row Eb) as [Htitle Hprompt].
  destruct (i + 1 =? 13).
  - apply Forall_app. split; [|apply IH].
    unfold pictureFields. cbn [map].
    repeat constructor;
      cbn [prompt example fieldTitle isSubtitlesOnly fieldId];
      auto using trim_idempotent; try discriminate.
  - destruct (mapFieldTitleToId (cell 0 row) (i + 1 =? 17)) as [mapped|] eqn:Em; [|apply IH].
    destruct (isPictureField mapped) eqn:Ep; [apply IH|].
    constructor; [|apply IH].
    unfold wellFormed. cbn [prompt example fieldTitle isSubtitlesOnly fieldId].
    repeat split; auto using trim_idempotent.
    + intros E17. rewrite E17 in Em. now apply mapFieldTitleToId_row17 in Em.
    + congruence.
    + congruence.
Qed.

(** X1.  Every prompt the loader returns is filled and trimmed, its example
    is trimmed, its title is filled, the row 17 mark goes with the subtopics
    field only, and an entry of a picture field carries no mark and the name
    of the field as its title. *)
Theorem loaded_prompts_well_formed
    (env : Env) (valuesGet : string -> string -> Response)
    (accessToken : option string) :
  Forall wellFormed (prompts (getPromptsFromSheet env valuesGet accessToken)).
Proof. rewrite getPromptsFromSheet_rows. apply processRows_wellFormed. Qed.

Lemma processRows_no_mark_late (rows : list (list string)) (i : nat) :
  17 <= i -> filter isSubtitlesOnly (processRows i rows) = [].
Proof.
  revert i. induction rows as [|row rows IH]; intros i Hi; [reflexivity|].
  cbn [processRows]. destruct (blankRow row); [apply IH; lia|].
  replace (i + 1 =? 13) with false by (symmetry; apply Nat.eqb_neq; lia).
  replace (i + 1 =? 17) with false by (symmetry; apply Nat.eqb_neq; lia).
  destruct (mapFieldTitleToId (cell 0 row) false) as [mapped|]; [|apply IH; lia].
  destruct (isPictureField mapped); [apply IH; lia|].
  cbn [filter isSubtitlesOnly]. apply IH. lia.
Qed.

Lemma processRows_one_mark (rows : list (list string)) (i : nat) :
  List.length (filter isSubtitlesOnly (processRows i rows)) <= 1.
Proof.
  revert i. induction rows as [|row rows IH]; intros i; [simpl; lia|].
  cbn [processRows]. destruct (blankRow row); [apply IH|].
  destruct (i + 1 =? 13).
  - rewrite filter_app. unfold pictureFields. cbn [map filter isSubtitlesOnly app]. apply IH.
  - destruct (i + 1 =? 17) eqn:E17.
    + apply Nat.eqb_eq in E17.
      destruct (mapFieldTitleToId (cell 0 row) true) as [mapped|]; [|apply IH].
      destruct (isPictureField mapped); [apply IH|].
      cbn [filter isSubtitlesOnly]. cbn [List.length].
      rewrite processRows_no_mark_late by lia. simpl. lia.
    + destruct (mapFieldTitleToId (cell 0 row) false) as [mapped|]; [|apply IH].
      destruct (isPictureField mapped); [apply IH|].
      cbn [filter isSubtitlesOnly]. apply IH.
Qed.

(** X2.  At most one loaded prompt carries the row 17 mark. *)
Theorem loaded_prompts_one_marked
    (env : Env) (valuesGet : string -> string -> Response)
    (accessToken : option string) :
  List.length
    (filter isSubtitlesOnly (prompts (getPromptsFromSheet env valuesGet accessToken)))
  <= 1.
Proof. rewrite getPromptsFromSheet_rows. apply processRows_one_mark. Qed.

Lemma findFrom_ext {A} (p q : A -> bool) (l : list A) (k : nat) :
  Forall (fun x => p x = q x) l -> findFrom p k l = findFrom q k l.
Proof.
  intros H. revert k. induction H as [|x l Hx _ IH]; intros k; [reflexivity|].
  cbn [findFrom]. rewrite Hx. destruct (q x); [reflexivity | apply IH].
Qed.

Lemma getPromptsFromSheet_error_rows env valuesGet accessToken :
  truthyOpt (error (getPromptsFromSheet env valuesGet accessToken)) = true ->
  rowsRead env valuesGet accessToken = [].
Proof.
  unfold getPromptsFromSheet, rowsRead.
  destruct (negb _ || negb _); [reflexivity|].
  destruct (GOOGLE_SHEET_ID env) as [[|c sheetId]|]; try reflexivity.
  destruct (negb (truthyOpt accessToken)); [reflexivity|].
  destruct (valuesGet _ _) as [thrown|[[|row rows]|]]; try reflexivity.
  discriminate.
Qed.

Lemma getPromptForField_served env valuesGet fieldId flow accessToken :
  let r := getPromptForField env valuesGet fieldId flow accessToken in
  (fieldPrompt r, fieldExample r) =
  match served (find (serves fieldId flow)
                  (processRows 0 (rowsRead env valuesGet accessToken))) with
  | Some pe => pe
  | None => (EmptyString, EmptyString)
  end.
Proof.
  unfold getPromptForField.
  destruct (truthyOpt (error _)) eqn:E.
  - now rewrite (getPromptsFromSheet_error_rows _ _ _ E).
  - rewrite getPromptsFromSheet_rows.
    now destruct (find _ _) as [[k p]|].
Qed.

(** The entries of a picture field come from row 13 alone. *)
Lemma picture_served (name : string) (flow : GoogleDoc.Category)
    (rows : list (list string)) (i k : nat) :
  arrayIncludes pictureFields name = true ->
  served (findFrom (serves name flow) k (processRows i rows)) = fanOutPrompt i rows.
Proof.
  intros Hname. revert i k. induction rows as [|row rows IH]; intros i k; [reflexivity|].
  cbn [processRows fanOutPrompt]. destruct (blankRow row); cbn [negb andb]; [apply IH|].
  destruct (i + 1 =? 13).
  - clear IH. revert Hname. unfold arrayIncludes, pictureFields. cbn [existsb].
    destruct (String.eqb_spec name "pic1") as [->|_]; [reflexivity|].
    destruct (String.eqb_spec name "pic2") as [->|_]; [reflexivity|].
    destruct (String.eqb_spec name "pic3") as [->|_]; [reflexivity|].
    destruct (String.eqb_spec name "pic4") as [->|_]; [reflexivity | discriminate].
  - destruct (mapFieldTitleToId (cell 0 row) (i + 1 =? 17)) as [mapped|]; [|apply IH].
    destruct (isPictureField mapped) eqn:Ep; [apply IH|].
    cbn [findFrom].
    assert (Hno : serves name flow
                    (mkPromptData mapped (trim (cell 0 row)) (trim (cell 1 row))
                       (trim (cell 2 row)) (i + 1 =? 17)) = false).
    { unfold serves. cbn [isSubtitlesOnly fieldId].
      assert (fieldIdEqb mapped (FieldName name) = false).
      { destruct (fieldIdEqb mapped (FieldName name)) eqn:Ee; [|reflexivity].
        apply fieldIdEqb_picture in Ee. cbn [isPictureField] in Ee. congruence. }
      destruct (i + 1 =? 17), flow; auto. }
    rewrite Hno. apply IH.
Qed.

(** X3.  Whatever the picture field and the flow asked for, the prompt and
    the example returned are those of the filled row 13 of the tab, trimmed
    (and empty when there is none): the four picture fields share them, and
    a row of the tab named after one picture field is never used. *)
Theorem picture_fields_share_row_13
    (env : Env) (valuesGet : string -> string -> Response)
    (name : string) (flow : GoogleDoc.Category) (accessToken : option string) :
  arrayIncludes pictureFields name = true ->
  let r := getPromptForField env valuesGet name flow accessToken in
  (fieldPrompt r, fieldExample r) =
  match fanOutPrompt 0 (rowsRead env valuesGet accessToken) with
  | Some pe => pe
  | None => (EmptyString, EmptyString)
  end.
Proof.
  intros Hname. cbv zeta. rewrite getPromptForField_served.
  unfold find. now rewrite picture_served.
Qed.

Lemma picture_fields_share_row_13_witness :
  let r := getPromptForField sampleEnv (sheetOf fullTab) "pic1"
             GoogleDoc.NoSubtopics (Some "token") in
  (fieldPrompt r, fieldExample r)
  = ("Give 13 titles and summaries for KEYWORD", "Title: summary").
Proof.
  exact (picture_fields_share_row_13 sampleEnv (sheetOf fullTab) "pic1"
           GoogleDoc.NoSubtopics (Some "token") eq_refl).
Defined.

(** X4.  The flow matters for the subtopics field only: for any other
    field the two flows return the same prompt and the same example. *)
Theorem flow_matters_for_subtopics_only
    (env : Env) (valuesGet : string -> string -> Response)
    (fieldId : string) (accessToken : option string) :
  fieldId <> "subtopics" ->
  let withSub := getPromptForField env valuesGet fieldId GoogleDoc.WithSubtopics accessToken in
  let without := getPromptForField env valuesGet fieldId GoogleDoc.NoSubtopics accessToken in
  fieldPrompt withSub = fieldPrompt without /\
  fieldExample withSub = fieldExample without.
Proof.
  intros Hne. cbv zeta.
  pose proof (getPromptForField_served env valuesGet fieldId GoogleDoc.WithSubtopics
                accessToken) as H1.
  pose proof (getPromptForField_served env valuesGet fieldId GoogleDoc.NoSubtopics
                accessToken) as H2.
  cbv zeta in H1, H2.
  assert (E : find (serves fieldId GoogleDoc.WithSubtopics)
                (processRows 0 (rowsRead env valuesGet accessToken))
              = find (serves fieldId GoogleDoc.NoSubtopics)
                  (processRows 0 (rowsRead env valuesGet accessToken))).
  { apply findFrom_ext.
    eapply Forall_impl; [|apply processRows_wellFormed].
    intros p (_ & _ & _ & _ & Hmark & _). unfold serves.
    destruct (isSubtitlesOnly p); [|reflexivity].
    rewrite (Hmark eq_refl). cbn [fieldIdEqb].
    apply String.eqb_neq. congruence. }
  rewrite E in H1. rewrite <- H2 in H1. now injection H1.
Qed.

Lemma flow_matters_for_subtopics_only_witness :
  fieldPrompt (getPromptForField sampleEnv (sheetOf fullTab) "cost"
                 GoogleDoc.WithSubtopics (Some "token"))
  = fieldPrompt (getPromptForField sampleEnv (sheetOf fullTab) "cost"
                   GoogleDoc.NoSubtopics (Some "token")).
Proof.
  apply (flow_matters_for_subtopics_only sampleEnv (sheetOf fullTab) "cost" (Some "token")).
  discriminate.
Defined.

(** X5.  In the no subtopics flow a prompt is never taken from the entry
    that carries the row 17 mark: a result without error comes from an
    unmarked entry of the asked field. *)
Theorem no_subtopics_flow_skips_row_17
    (env : Env) (valuesGet : string -> string -> Response)
    (fieldId : string) (accessToken : option string) :
  let r := getPromptForField env valuesGet fieldId GoogleDoc.NoSubtopics accessToken in
  fieldError r = None ->
  exists entry,
    In entry (prompts (getPromptsFromSheet env valuesGet accessToken)) /\
    isSubtitlesOnly entry = false /\
    PromptsFromSheets.fieldId entry = FieldName fieldId /\
    fieldPrompt r = prompt entry /\ fieldExample r = example entry.
Proof.
  cbv zeta. unfold getPromptForField.
  destruct (truthyOpt (error _)) eqn:E.
  - cbn [fieldError]. intros Herr. rewrite Herr in E. discriminate.
  - destruct (find _ _) as [[k p]|] eqn:Ef; [|discriminate]. intros _.
    apply find_some_In in Ef. destruct Ef as [Hin Hp].
    exists p. unfold serves in Hp.
    destruct (isSubtitlesOnly p); [discriminate|].
    repeat split; auto.
    destruct (PromptsFromSheets.fieldId p) as [n|]; [|discriminate].
    apply String.eqb_eq in Hp. now subst.
Qed.

Lemma no_subtopics_flow_skips_row_17_witness :
  exists entry,
    isSubtitlesOnly entry = false /\
    prompt entry = "What does KEYWORD cost?".
Proof.
  destruct (no_subtopics_flow_skips_row_17 sampleEnv (sheetOf fullTab) "cost"
              (Some "token") eq_refl) as (entry & _ & Hmark & _ & Hp & _).
  exists entry. split; [exact Hmark | now rewrite <- Hp].
Defined.

End PromptForFieldFacts.

(** ** The prompt resolver and the competitor lookup: what every result
    satisfies *)

Section LookupFacts.
Import Js Sheets.

Lemma searchRows_found (fieldId : string) (mapped : GoogleSheetsPrompts.Mapped)
    (rows : list (list string)) (r : GoogleSheetsPrompts.PromptResult) :
  GoogleSheetsPrompts.searchRows fieldId mapped rows = Some r ->
  if GoogleSheetsPrompts.found r
  then (exists p, GoogleSheetsPrompts.prompt r = Some p /\ p <> EmptyString)
       /\ GoogleSheetsPrompts.error r = None
       /\ GoogleSheetsPrompts.example r <> Some EmptyString
  else GoogleSheetsPrompts.prompt r = None
       /\ GoogleSheetsPrompts.example r = None
       /\ exists e, GoogleSheetsPrompts.error r = Some e.
Proof.
  induction rows as [|row rows IH]; cbn [GoogleSheetsPrompts.searchRows].
  - intros [= <-]. cbn. eauto.
  - destruct (List.length row <? 2); [exact IH|].
    destruct mapped as [m|]; [|discriminate].
    destruct (String.eqb _ _); [|exact IH].
    destruct (cell 1 row) as [|c p] eqn:Ep; cbn [truthy negb].
    + intros [= <-]. cbn. eauto.
    + intros [= <-]. cbn. repeat split.
      * eexists. split; [reflexivity | discriminate].
      * destruct (cell 2 row); cbn; discriminate.
Qed.

(** X6.  Every result of the prompt resolver is of one of two shapes:
    found, with a prompt that is not empty, no error, and an example that
    is absent or not empty; or not found, with no prompt, no example and an
    error message. *)
Theorem prompt_result_shape
    (env : Env) (valuesGet : string -> string -> Response)
    (fieldId : string) (accessToken : option string) :
  let r := GoogleSheetsPrompts.getPromptFromSheets env valuesGet fieldId accessToken in
  if GoogleSheetsPrompts.found r
  then (exists p, GoogleSheetsPrompts.prompt r = Some p /\ p <> EmptyString)
       /\ GoogleSheetsPrompts.error r = None
       /\ GoogleSheetsPrompts.example r <> Some EmptyString
  else GoogleSheetsPrompts.prompt r = None
       /\ GoogleSheetsPrompts.example r = None
       /\ exists e, GoogleSheetsPrompts.error r = Some e.
Proof.
  cbv zeta. unfold GoogleSheetsPrompts.getPromptFromSheets.
  destruct (negb _ || negb _); [cbn; eauto|].
  destruct (trimmedVar _) as [[|c sheetId]|]; try (cbn; eauto; fail).
  destruct (negb (truthyOpt accessToken)); [cbn; eauto|].
  destruct (valuesGet _ _) as [thrown|values]; [cbn; eauto|].
  cbv zeta. destruct (List.length _ =? 0); [cbn; eauto|].
  destruct (GoogleSheetsPrompts.searchRows _ _ _) as [r|] eqn:E; [|cbn; eauto].
  exact (searchRows_found _ _ _ _ E).
Qed.

(** *** The URLs of a cell *)

Lemma splitRuns_nonempty (isSep : ascii -> bool) (inSep : bool) (s : string) :
  splitRuns isSep inSep s <> [].
Proof.
  revert inSep. induction s as [|c s IH]; intros inSep; cbn [splitRuns]; [discriminate|].
  destruct (isSep c).
  - destruct inSep; [apply IH | discriminate].
  - destruct (splitRuns isSep false s); discriminate.
Qed.

Lemma splitRuns_pieces (isSep : ascii -> bool) (inSep : bool) (s : string) :
  Forall (fun w => forall c, isSep c = true -> hasChar c w = false)
         (splitRuns isSep inSep s).
Proof.
  revert inSep. induction s as [|d s IH]; intros inSep; cbn [splitRuns].
  - now repeat constructor.
  - destruct (isSep d) eqn:Ed.
    + destruct inSep; [apply IH|]. constructor; [reflexivity | apply IH].
    + specialize (IH false). destruct (splitRuns isSep false s) as [|w ws].
      * repeat constructor. intros c Hc. cbn [hasChar].
        destruct (Ascii.eqb_spec d c) as [->|_]; [congruence | reflexivity].
      * inversion IH as [|? ? Hw Hws]; subst. constructor; [|exact Hws].
        intros c Hc. cbn [hasChar].
        destruct (Ascii.eqb_spec d c) as [->|_]; [congruence | now apply Hw].
Qed.

Lemma hasChar_trimStart (c : ascii) (s : string) :
  hasChar c s = false -> hasChar c (trimStart s) = false.
Proof.
  induction s as [|d s IH]; [trivial|]. cbn [trimStart].
  destruct (isWhiteSpace d); [|trivial].
  cbn [hasChar]. intros [_ H]%orb_false_iff. now apply IH.
Qed.

Lemma hasChar_trimEnd (c : ascii) (s : string) :
  hasChar c s = false -> hasChar c (trimEnd s) = false.
Proof.
  induction s as [|d s IH]; [trivial|]. cbn [trimEnd hasChar].
  intros [Hd Hs]%orb_false_iff. specialize (IH Hs).
  destruct (trimEnd s) as [|e r].
  - destruct (isWhiteSpace d); [reflexivity|]. cbn [hasChar]. now rewrite Hd.
  - change (hasChar c (String d (String e r))) with (Ascii.eqb d c || hasChar c (String e r)).
    now rewrite Hd, IH.
Qed.

Lemma hasChar_trim (c : ascii) (s : string) :
  hasChar c s = false -> hasChar c (trim s) = false.
Proof. intros H. now apply hasChar_trimEnd, hasChar_trimStart. Qed.

Lemma urlsOf_clean (cellH : string) :
  Forall CompetitorsRoute.cleanUrl (GoogleSheets.urlsOf cellH).
Proof.
  unfold GoogleSheets.urlsOf. destruct (truthy (trim cellH)); [|constructor].
  apply Forall_forall. intros url [Hin Hkeep]%filter_In.
  apply in_map_iff in Hin. destruct Hin as (piece & <- & Hpiece).
  apply andb_true_iff in Hkeep. destruct Hkeep as [Hlen Hshape].
  repeat split.
  - intros E. rewrite E in Hlen. discriminate.
  - apply trim_idempotent.
  - intros c Hc. apply hasChar_trim.
    pose proof (splitRuns_pieces GoogleSheets.isUrlSeparator false cellH) as Hall.
    rewrite Forall_forall in Hall. now apply Hall.
  - apply orb_true_iff in Hshape. exact Hshape.
Qed.

(** X7.  Every URL the lookup takes from a cell of column H is not empty,
    has no white space at either end, holds no line break, comma or
    semicolon, and starts with http or holds a dot. *)
Theorem competitor_urls_clean (cellH url : string) :
  In url (GoogleSheets.urlsOf cellH) -> CompetitorsRoute.cleanUrl url.
Proof.
  intros Hin. pose proof (urlsOf_clean cellH) as H.
  rewrite Forall_forall in H. now apply H.
Qed.

Lemma competitor_urls_clean_witness :
  CompetitorsRoute.cleanUrl "b.com".
Proof.
  apply (competitor_urls_clean " a.com ,; b.com" "b.com").
  vm_compute. right. now left.
Defined.

Lemma lookup_consistent
    (env : Env) (valuesGet : string -> string -> Response)
    (keyword : string) (accessToken : option string) :
  let r := GoogleSheets.getCompetitorUrlsFromSheets env valuesGet keyword accessToken in
  CompetitorsRoute.consistent (GoogleSheets.found r) (GoogleSheets.competitorUrls r)
    (GoogleSheets.keywordCell r) (GoogleSheets.rowNumber r) (GoogleSheets.error r)
  /\ (GoogleSheets.found r = true ->
      exists n, GoogleSheets.rowNumber r = Some n /\ n <= GoogleSheets.totalRows r).
Proof.
  assert (Hfail : forall e total method,
    let r := GoogleSheets.mkResult false None None [] (Some e) total method in
    CompetitorsRoute.consistent (GoogleSheets.found r) (GoogleSheets.competitorUrls r)
      (GoogleSheets.keywordCell r) (GoogleSheets.rowNumber r) (GoogleSheets.error r)
    /\ (GoogleSheets.found r = true ->
        exists n, GoogleSheets.rowNumber r = Some n /\ n <= GoogleSheets.totalRows r)).
  { intros e total method. cbn. unfold CompetitorsRoute.consistent.
    repeat split; try discriminate; auto. }
  cbv zeta. unfold GoogleSheets.getCompetitorUrlsFromSheets.
  destruct (negb _ || negb _); [apply Hfail|].
  destruct (trimmedVar _) as [[|c sheetId]|]; try apply Hfail.
  destruct (negb (truthyOpt accessToken)); [apply Hfail|].
  destruct (valuesGet _ _) as [thrown|values]; [apply Hfail|].
  cbv zeta. destruct (List.length _ =? 0); [apply Hfail|].
  destruct (find _ _) as [[i row]|] eqn:E; [|apply Hfail].
  cbn. unfold CompetitorsRoute.consistent.
  apply findFrom_index in E. destruct E as (_ & Hnth & _).
  rewrite Nat.sub_0_r in Hnth.
  assert (i < List.length (match values with Some rows => rows | None => [] end))
    by (apply nth_error_Some; congruence).
  repeat split; try discriminate; eauto using urlsOf_clean.
  - exists (i + 1). split; [reflexivity | lia].
  - intros _. exists (i + 1). split; [reflexivity | lia].
Qed.

(** X8.  Every result of the competitor lookup is consistent: it is found
    exactly when it has no error; when it is not found it has no URL, no
    matched cell and no row number; when it is found it has a matched cell
    and a row number from 1 to the number of rows read; and its URLs are
    clean. *)
Theorem competitor_result_consistent
    (env : Env) (valuesGet : string -> string -> Response)
    (keyword : string) (accessToken : option string) :
  let r := GoogleSheets.getCompetitorUrlsFromSheets env valuesGet keyword accessToken in
  CompetitorsRoute.consistent (GoogleSheets.found r) (GoogleSheets.competitorUrls r)
    (GoogleSheets.keywordCell r) (GoogleSheets.rowNumber r) (GoogleSheets.error r)
  /\ (GoogleSheets.found r = true ->
      exists n, GoogleSheets.rowNumber r = Some n /\ n <= GoogleSheets.totalRows r).
Proof. apply lookup_consistent. Qed.

(** X9.  The competitor endpoint answers 500 to a body it cannot read, 400
    to a keyword that is no string or is blank, and 200 to everything else:
    a lookup that fails (no credentials, no token, an API error, no row) is
    reported with status 200, [found] false, its error and no URL. *)
Theorem competitors_route_status
    (env : Env) (valuesGet : string -> string -> Response)
    (request : option (Value * option string)) :
  let response := CompetitorsRoute.POST env valuesGet request in
  match CompetitorsRoute.body response with
  | CompetitorsRoute.ErrorBody _ =>
      CompetitorsRoute.status response =
        match request with None => 500 | Some _ => 400 end
      /\ match request with
         | None => True
         | Some (keyword, _) => forall k, keyword = VString k -> trim k = EmptyString
         end
  | CompetitorsRoute.LookupBody found urls matched row error =>
      CompetitorsRoute.status response = 200
      /\ CompetitorsRoute.consistent found urls matched row error
      /\ exists k token, request = Some (VString k, token) /\ trim k <> EmptyString
  end.
Proof.
  cbv zeta. unfold CompetitorsRoute.POST.
  destruct request as [[keyword token]|]; [|cbn; auto].
  destruct (GenerateBox.keywordRejected keyword) eqn:Ek.
  - cbn. split; [reflexivity|]. intros k ->. cbn in Ek.
    destruct k as [|c k]; [reflexivity|]. cbn [truthy negb orb] in Ek.
    apply Nat.eqb_eq in Ek. now destruct (trim (String c k)).
  - cbn [CompetitorsRoute.body CompetitorsRoute.status]. split; [reflexivity|].
    split; [apply lookup_consistent|].
    destruct keyword as [| |b|n|k|]; try discriminate.
    exists k, token. split; [reflexivity|]. cbn in Ek.
    apply orb_false_iff in Ek. destruct Ek as [_ Ek].
    intros E. rewrite E in Ek. discriminate.
Qed.

End LookupFacts.

(** ** The configuration and the classification endpoint *)

Section ApiKeysFacts.
Import Js ApiKeys.

Lemma truthy_orDefault_empty (v : option string) :
  truthy (orDefault v EmptyString) = truthyOpt v.
Proof. destruct v as [[|c s]|]; reflexivity. Qed.

Lemma orDefault_nonempty (v : option string) (d : string) :
  d <> EmptyString -> orDefault v d <> EmptyString.
Proof. destruct v as [[|c s]|]; cbn; congruence. Qed.

Lemma orDefault_truthy (v : option string) (d : string) :
  truthyOpt v = true -> orDefault v d <> EmptyString.
Proof. destruct v as [[|c s]|]; cbn; congruence. Qed.

Lemma missingKeys_unconfigured (env : Env) :
  missingKeys (requiredKeys env) = unconfigured env true.
Proof.
  unfold missingKeys, requiredKeys, pushMissing, unconfigured, getKeyStatus, statusOf.
  cbn [googleDocUrl freepikWebhookSecret freepikApiKey anthropicApiKey].
  rewrite !truthy_orDefault_empty.
  cbn [filter isRequired snd type configured Bool.eqb andb map fst].
  destruct (truthyOpt (env "ANTHROPIC_API_KEY")), (truthyOpt (env "FREEPIK_API_KEY")),
    (truthyOpt (env "FREEPIK_WEBHOOK_SECRET")), (truthyOpt (env "GOOGLE_DOC_URL"));
    reflexivity.
Qed.

Lemma unconfigured_required (env : Env) :
  unconfigured env true = [] <->
  forall name, In name ClassifyRoute.requiredNames -> truthyOpt (env name) = true.
Proof.
  unfold unconfigured, getKeyStatus, statusOf, ClassifyRoute.requiredNames.
  cbn [filter isRequired snd type configured Bool.eqb andb map fst In].
  destruct (truthyOpt (env "ANTHROPIC_API_KEY")) eqn:E1,
    (truthyOpt (env "FREEPIK_API_KEY")) eqn:E2,
    (truthyOpt (env "FREEPIK_WEBHOOK_SECRET")) eqn:E3,
    (truthyOpt (env "GOOGLE_DOC_URL")) eqn:E4; cbn [negb map fst];
    (split;
     [ try discriminate;
       intros _ name [<- | [<- | [<- | [<- | []]]]]; assumption
     | intros H; try reflexivity; exfalso;
       first [ specialize (H _ (or_introl eq_refl)); congruence
             | specialize (H _ (or_intror (or_introl eq_refl))); congruence
             | specialize (H _ (or_intror (or_intror (or_introl eq_refl)))); congruence
             | specialize (H _ (or_intror (or_intror (or_intror (or_introl eq_refl)))));
               congruence ] ]).
Qed.

Lemma getApiKeys_cases (env : Env) :
  (unconfigured env true = [] /\ getApiKeys env = Returned (requiredKeys env)) \/
  (unconfigured env true <> [] /\
   getApiKeys env = Thrown (missingMessage (unconfigured env true))).
Proof.
  unfold getApiKeys. cbv zeta. rewrite missingKeys_unconfigured.
  destruct (unconfigured env true) as [|name names]; [left | right]; cbn; split;
    congruence.
Qed.

(** X10.  [getApiKeys] throws exactly when one of the four required
    variables is unset or empty, and its message lists the missing ones in
    the order of [getKeyStatus]; the keys it returns hold a value that is
    not empty in every field but the password and the origin allow-list. *)
Theorem getApiKeys_exact (env : Env) :
  match getApiKeys env with
  | Returned keys =>
      (forall name, In name ClassifyRoute.requiredNames -> truthyOpt (env name) = true)
      /\ anthropicApiKey keys <> EmptyString /\ anthropicModel keys <> EmptyString
      /\ freepikApiKey keys <> EmptyString /\ freepikWebhookSecret keys <> EmptyString
      /\ freepikImageModel keys <> EmptyString /\ freepikAspectRatio keys <> EmptyString
      /\ googleDocUrl keys <> EmptyString /\ appPublicUrl keys <> EmptyString
  | Thrown message =>
      unconfigured env true <> []
      /\ message = missingMessage (unconfigured env true)
  end.
Proof.
  destruct (getApiKeys_cases env) as [[Hnone ->] | [Hsome ->]]; [|now split].
  pose proof (proj1 (unconfigured_required env) Hnone) as Hall; clear Hnone; rename Hall into Hnone. split; [exact Hnone|].
  unfold requiredKeys, ClassifyRoute.requiredNames in *. cbn [In] in Hnone.
  cbn [anthropicApiKey anthropicModel freepikApiKey freepikWebhookSecret
       freepikImageModel freepikAspectRatio googleDocUrl appPublicUrl].
  repeat split;
    first [ apply orDefault_nonempty; discriminate
          | apply orDefault_truthy, Hnone; tauto ].
Qed.

(** X11.  The startup validation agrees with the key status: it is valid
    exactly when the status reports every required variable as configured,
    and exactly when it has no error; when valid, its warnings are one for
    each optional variable the status reports as not configured, in that
    order, each starting with the name of its variable; when not valid it
    has no warning and one error, which lists the required variables not
    configured. *)
Theorem startup_validation_agrees (env : Env) :
  let v := validateStartupKeys env in
  (isValid v = true <-> unconfigured env true = []) /\
  (isValid v = true <-> errors v = []) /\
  (isValid v = true ->
     Forall2 (fun warning name => startsWith warning (name +++ " not set") = true)
             (warnings v) (unconfigured env false)) /\
  (isValid v = false ->
     warnings v = [] /\ errors v = [missingMessage (unconfigured env true)]).
Proof.
  cbv zeta. unfold validateStartupKeys.
  destruct (getApiKeys_cases env) as [[Hnone ->] | [Hsome ->]].
  - cbn [isValid errors warnings]. repeat split; auto; try discriminate.
    intros _. unfold pushWarning, unconfigured, getKeyStatus, statusOf.
    cbn [filter isRequired snd type configured Bool.eqb andb map fst].
    destruct (truthyOpt (env "APP_PASSWORD")), (truthyOpt (env "ORIGIN_ALLOWLIST")),
      (truthyOpt (env "ANTHROPIC_MODEL")), (truthyOpt (env "FREEPIK_IMAGE_MODEL")),
      (truthyOpt (env "FREEPIK_ASPECT_RATIO"));
      cbn [negb List.app map fst]; repeat constructor.
  - cbn [isValid errors warnings]. repeat split; auto; try discriminate.
    all: intros E; now elim Hsome.
Qed.

(** X12.  [validateApiKey] answers false for every key and sub-key as soon
    as one of the four required variables is unset or empty, whichever key
    is asked for. *)
Theorem validateApiKey_needs_every_required_key
    (env : Env) (keyName : KeyName) (subKey : option string) :
  validateApiKey env keyName subKey = true ->
  forall name, In name ClassifyRoute.requiredNames -> truthyOpt (env name) = true.
Proof.
  unfold validateApiKey.
  destruct (getApiKeys_cases env) as [[Hnone ->] | [Hsome ->]]; [|discriminate].
  intros _. now apply (proj1 (unconfigured_required env)).
Qed.

Lemma validateApiKey_docUrl (env : Env) :
  validateApiKey env google (Some "docUrl") = true <-> unconfigured env true = [].
Proof.
  unfold validateApiKey.
  destruct (getApiKeys_cases env) as [[Hnone ->] | [Hsome ->]].
  - split; [auto|]. intros _. cbn.
    pose proof (proj1 (unconfigured_required env) Hnone) as Hall.
    rewrite truthy_orDefault_empty. apply Hall.
    unfold ClassifyRoute.requiredNames. cbn. tauto.
  - split; [discriminate | intros E; now elim Hsome].
Qed.

End ApiKeysFacts.

Lemma validateApiKey_needs_every_required_key_witness :
  Js.truthyOpt (ApiKeys.envOf ApiKeys.sampleSettings "FREEPIK_WEBHOOK_SECRET") = true.
Proof.
  apply (validateApiKey_needs_every_required_key (ApiKeys.envOf ApiKeys.sampleSettings)
           ApiKeys.app (Some "publicUrl") eq_refl).
  cbn. tauto.
Defined.

Section ClassifyRouteFacts.
Import Js ApiKeys ClassifyRoute.

Lemma keywordRejected_false (keyword : Value) :
  GenerateBox.keywordRejected keyword = false ->
  exists k, keyword = VString k /\ trim k <> EmptyString.
Proof.
  destruct keyword as [| |b|n|k|]; try discriminate. cbn.
  intros [_ Ek]%orb_false_iff. exists k. split; [reflexivity|].
  intros E. rewrite E in Ek. discriminate.
Qed.

Lemma keywordRejected_true (k : string) :
  GenerateBox.keywordRejected (VString k) = true -> trim k = EmptyString.
Proof.
  cbn. destruct k as [|c k]; [reflexivity|]. cbn [truthy negb orb].
  intros Ek%Nat.eqb_eq. now destruct (trim (String c k)).
Qed.

(** X13.  The classification endpoint answers with a classification, and
    then with status 200, exactly when the keyword is a string that is not
    blank and the four required variables are set: the keys of the two
    image and text services are needed although only the document is read.
    A classification that fails (no credentials, no token, no document, no
    match) is answered with status 200 as well. *)
Theorem classify_route_status
    (env : Env) (documentsGet : string -> GoogleDoc.DocsResponse)
    (request : option (Value * option string)) :
  let response := POST env documentsGet request in
  match body response with
  | ResultBody result =>
      status response = 200
      /\ (forall name, In name requiredNames -> truthyOpt (env name) = true)
      /\ exists k token,
           request = Some (VString k, token) /\ trim k <> EmptyString /\
           result = GoogleDoc.detectCategoryFromDoc (docEnv env) documentsGet
                      (orDefault (env "GOOGLE_DOC_URL") EmptyString) k token
  | ErrorBody _ =>
      (status response = 400 \/ status response = 500)
      /\ (status response = 400 <->
          exists keyword token, request = Some (keyword, token)
                                /\ GenerateBox.keywordRejected keyword = true)
      /\ (status response = 500 ->
          request = None \/
          exists name, In name requiredNames /\ truthyOpt (env name) = false)
  end.
Proof.
  cbv zeta. unfold POST.
  destruct request as [[keyword token]|].
  2:{ cbn. split; [now right|]. split; [|now left].
      split; [discriminate | intros (k & t & [=] & _)]. }
  destruct (GenerateBox.keywordRejected keyword) eqn:Ek.
  { cbn. split; [now left|]. split; [|discriminate].
    split; [intros _; now exists keyword, token | reflexivity]. }
  destruct (validateApiKey env google (Some "docUrl")) eqn:Ev; cbn [negb].
  - pose proof (proj1 (validateApiKey_docUrl env) Ev) as Hnone.
    destruct (getApiKeys_cases env) as [[_ ->] | [Hsome _]]; [|now elim Hsome].
    cbn [body status]. split; [reflexivity|].
    split; [now apply (proj1 (unconfigured_required env))|].
    destruct (keywordRejected_false keyword Ek) as (k & -> & Hk).
    now exists k, token.
  - cbn. split; [now right|]. split.
    + split; [discriminate|]. intros (k & t & [= <- <-] & Hk). congruence.
    + intros _. right.
      assert (Hsome : unconfigured env true <> []).
      { intros E. apply (proj2 (validateApiKey_docUrl env)) in E. congruence. }
      clear Ev. revert Hsome.
      unfold unconfigured, getKeyStatus, statusOf, requiredNames.
      cbn [filter isRequired snd type configured Bool.eqb andb map fst In].
      destruct (truthyOpt (env "ANTHROPIC_API_KEY")) eqn:E1; [|eauto].
      destruct (truthyOpt (env "FREEPIK_API_KEY")) eqn:E2; [|eauto 6].
      destruct (truthyOpt (env "FREEPIK_WEBHOOK_SECRET")) eqn:E3; [|eauto 7].
      destruct (truthyOpt (env "GOOGLE_DOC_URL")) eqn:E4; [|eauto 8].
      cbn. congruence.
Qed.

(** X18.  With a document id set in the environment, the value of the
    document URL is required but not used: two environments that differ
    only in the value of GOOGLE_DOC_URL, not empty in either, give the same
    response to every request. *)
Theorem classify_route_ignores_url_when_id_set
    (env env' : Env) (documentsGet : string -> GoogleDoc.DocsResponse)
    (request : option (Value * option string)) :
  (forall name, name <> "GOOGLE_DOC_URL" -> env' name = env name) ->
  truthyOpt (env "GOOGLE_DOC_URL") = true ->
  truthyOpt (env' "GOOGLE_DOC_URL") = true ->
  GoogleDoc.trimmed (env "GOOGLE_DOC_ID") <> None ->
  POST env' documentsGet request = POST env documentsGet request.
Proof.
  intros Hsame Hurl Hurl' Hid.
  assert (Henv : docEnv env' = docEnv env).
  { unfold docEnv. now rewrite !Hsame by discriminate. }
  assert (Hreq : unconfigured env' true = unconfigured env true).
  { unfold unconfigured, getKeyStatus, statusOf. rewrite Hurl, Hurl'.
    now rewrite !Hsame by discriminate. }
  unfold POST. destruct request as [[keyword token]|]; [|reflexivity].
  destruct (GenerateBox.keywordRejected keyword); [reflexivity|].
  unfold validateApiKey.
  destruct (getApiKeys_cases env) as [[Hnone ->] | [Hsome ->]];
    destruct (getApiKeys_cases env') as [[Hnone' ->] | [Hsome' ->]];
    try congruence.
  cbn [truthyOpt truthy section memberTruthy ownValue String.eqb Ascii.eqb Bool.eqb
       googleDocUrl requiredKeys negb].
  rewrite !truthy_orDefault_empty, Hurl, Hurl'. cbn [negb].
  f_equal. f_equal. rewrite Henv.
  unfold GoogleDoc.detectCategoryFromDoc, GoogleDoc.resolveDocumentId, docEnv.
  cbn [GoogleDoc.GOOGLE_DOC_ID].
  destruct (GoogleDoc.trimmed (env "GOOGLE_DOC_ID")); [reflexivity | congruence].
Qed.

End ClassifyRouteFacts.

Lemma classify_route_ignores_url_when_id_set_witness :
  ClassifyRoute.POST
    (ApiKeys.withSetting "GOOGLE_DOC_URL" "https://example.org/elsewhere"
       (ApiKeys.envOf ApiKeys.sampleSettings))
    GoogleDoc.sampleDocs (Some (Js.VString "mattress removal", Some "token"))
  = ClassifyRoute.POST (ApiKeys.envOf ApiKeys.sampleSettings)
      GoogleDoc.sampleDocs (Some (Js.VString "mattress removal", Some "token")).
Proof.
  apply classify_route_ignores_url_when_id_set.
  - intros name Hname. unfold ApiKeys.withSetting.
    destruct (String.eqb_spec name "GOOGLE_DOC_URL"); [contradiction | reflexivity].
  - reflexivity.
  - reflexivity.
  - discriminate.
Defined.

(** ** The document classifier: the document id, the matched line and the
    parent heading *)

Section DocumentFacts.
Import Js GoogleDoc.

Lemma takeWhile_chars (p : ascii -> bool) (s : string) (c : ascii) :
  hasChar c (takeWhile p s) = true -> p c = true.
Proof.
  induction s as [|d s IH]; cbn [takeWhile]; [discriminate|].
  destruct (p d) eqn:Ed; [|discriminate]. cbn [hasChar].
  destruct (Ascii.eqb_spec d c) as [<-|_]; [now intros _ | exact IH].
Qed.

Lemma prefix_takeWhile_here (p : ascii -> bool) (s : string) :
  String.prefix (takeWhile p s) s = true.
Proof.
  induction s as [|d s IHs]; cbn [takeWhile]; [reflexivity|].
  destruct (p d); [|reflexivity]. cbn [String.prefix].
  now destruct (Ascii.ascii_dec d d).
Qed.

Lemma prefix_takeWhile (p : ascii -> bool) (lit s : string) :
  String.prefix lit s = true ->
  String.prefix (lit +++ takeWhile p (dropString (String.length lit) s)) s = true.
Proof.
  revert s. induction lit as [|c lit IH]; intros s.
  - intros _. cbn [String.append String.length].
    assert (E : dropString 0 s = s) by now destruct s. rewrite E.
    apply prefix_takeWhile_here.
  - destruct s as [|d s]; [discriminate|]. cbn [String.prefix].
    destruct (Ascii.ascii_dec c d); [|discriminate].
    intros H. cbn [String.append String.length dropString String.prefix].
    destruct (Ascii.ascii_dec c d); [now apply IH | contradiction].
Qed.

Lemma matchIdAfter_sound (lit s id : string) :
  matchIdAfter lit s = Some id ->
  id <> EmptyString /\
  (forall c, hasChar c id = true -> isIdChar c = true) /\
  includes s (lit +++ id) = true.
Proof.
  induction s as [|d s IH]; cbn [matchIdAfter].
  - destruct (String.prefix lit EmptyString) eqn:Ep; [|discriminate].
    destruct (truthy _) eqn:Et; [|discriminate]. intros [= <-].
    destruct lit; discriminate.
  - destruct (String.prefix lit (String d s)) eqn:Ep.
    + destruct (truthy (takeWhile isIdChar (dropString (String.length lit) (String d s))))
        eqn:Et.
      * intros [= <-]. split; [now apply truthy_true_iff|].
        split; [intros c; apply takeWhile_chars|].
        apply includes_prefix. now apply prefix_takeWhile.
      * intros H. destruct (IH H) as (H1 & H2 & H3). repeat split; auto.
        cbn [includes]. rewrite H3. apply orb_true_r.
    + intros H. destruct (IH H) as (H1 & H2 & H3). repeat split; auto.
      cbn [includes]. rewrite H3. apply orb_true_r.
Qed.

(** Where the pattern of published documents matches, the plain pattern
    matches as well, with the letter e as the id. *)
Lemma matchIdAfter_published (s id : string) :
  matchIdAfter "/document/d/e/" s = Some id ->
  matchIdAfter "/document/d/" s <> None.
Proof.
  induction s as [|d s IH].
  - cbn. discriminate.
  - intros H.
    destruct (String.prefix "/document/d/e/" (String d s)) eqn:Ep.
    + clear IH H.
      assert (E : exists rest, String d s = "/document/d/e/" +++ rest).
      { revert Ep. generalize (String d s). intros t.
        do 14 (destruct t as [|? t]; [discriminate|]; cbn [String.prefix];
               destruct (Ascii.ascii_dec _ _) as [<-|]; [|discriminate]).
        intros _. now exists t. }
      destruct E as (rest & ->). cbn. discriminate.
    + assert (Hs : matchIdAfter "/document/d/e/" s = Some id).
      { revert H. cbn [matchIdAfter]. now rewrite Ep. }
      specialize (IH Hs). cbn [matchIdAfter].
      destruct (String.prefix "/document/d/" (String d s)); [|exact IH].
      destruct (truthy _); [discriminate | exact IH].
Qed.

Lemma extractDocumentId_first (docUrl : string) :
  extractDocumentId docUrl = matchIdAfter "/document/d/" docUrl.
Proof.
  unfold extractDocumentId, patterns.
  destruct (matchIdAfter "/document/d/" docUrl) as [id|] eqn:E1; [reflexivity|].
  destruct (matchIdAfter "/document/d/e/" docUrl) as [id|] eqn:E2; [|reflexivity].
  apply matchIdAfter_published in E2. congruence.
Qed.

(** X14.  A document id taken from a URL is not empty, is made of
    letters, digits, hyphens and underscores, and follows the text
    /document/d/ somewhere in the URL. *)
Theorem extractDocumentId_sound (docUrl id : string) :
  extractDocumentId docUrl = Some id ->
  id <> EmptyString /\
  (forall c, hasChar c id = true -> isIdChar c = true) /\
  includes docUrl ("/document/d/" +++ id) = true.
Proof. rewrite extractDocumentId_first. apply matchIdAfter_sound. Qed.

Lemma extractDocumentId_sound_witness :
  includes "https://docs.google.com/document/d/1AbC-9_x/edit"
           ("/document/d/" +++ "1AbC-9_x") = true.
Proof.
  apply (extractDocumentId_sound "https://docs.google.com/document/d/1AbC-9_x/edit"
           "1AbC-9_x" eq_refl).
Defined.

(** X15.  The second URL pattern, for published documents, never gives
    the id: the result is always that of the first pattern, and the id
    taken from the URL of a published document is the letter e, whatever
    follows. *)
Theorem extractDocumentId_published (docUrl rest : string) :
  extractDocumentId docUrl = matchIdAfter "/document/d/" docUrl /\
  extractDocumentId ("https://docs.google.com/document/d/e/" +++ rest) = Some "e".
Proof. split; [apply extractDocumentId_first | reflexivity]. Qed.

(** *** The parent heading *)

Lemma findFrom_app {A} (p : A -> bool) (l1 l2 : list A) (x : A) (k : nat) :
  Forall (fun y => p y = false) l1 -> p x = true ->
  findFrom p k (l1 ++ x :: l2) = Some (k + List.length l1, x).
Proof.
  intros H Hx. revert k. induction H as [|y l1 Hy _ IH]; intros k; cbn [List.app findFrom].
  - rewrite Hx. cbn. now rewrite Nat.add_0_r.
  - rewrite Hy, IH. cbn [List.length]. f_equal. f_equal. lia.
Qed.

Lemma parentHeadingOf_app (l1 l2 : list DocumentTextElement) (h : DocumentTextElement) :
  Forall (fun y => isHeading y = false) l1 -> isHeading h = true ->
  parentHeadingOf (l1 ++ h :: l2) = text h.
Proof.
  intros H Hh. induction H as [|y l1 Hy _ IH]; cbn [List.app parentHeadingOf].
  - now rewrite Hh.
  - now rewrite Hy.
Qed.

Lemma parentHeadingOf_none (l : list DocumentTextElement) :
  Forall (fun y => isHeading y = false) l -> parentHeadingOf l = EmptyString.
Proof.
  induction 1 as [|y l Hy _ IH]; cbn [parentHeadingOf]; [reflexivity | now rewrite Hy].
Qed.

Lemma firstn_length_app {A} (l1 l2 : list A) :
  firstn (List.length l1) (l1 ++ l2) = l1.
Proof. induction l1 as [|x l1 IH]; cbn; [now destruct l2 | now rewrite IH]. Qed.

(** X16.  When the first element that contains the keyword is no heading
    and a heading precedes it, the result is no subtopics without a
    subtopics list, with the text of the matched element, its position
    counted from one, and a reason that cites the nearest heading before
    the match. *)
Theorem match_cites_nearest_heading
    (keyword : string)
    (before between rest : list DocumentTextElement) (h e : DocumentTextElement) :
  Forall (fun x => containsKeyword keyword x = false) (before ++ h :: between) ->
  containsKeyword keyword e = true ->
  isHeading e = false ->
  isHeading h = true ->
  text h <> EmptyString ->
  Forall (fun x => isHeading x = false) between ->
  classify (before ++ h :: between ++ e :: rest) keyword =
  mkResult (Some NoSubtopics)
    (dquote +++ keyword +++ dquote +++ " found under heading "
       +++ dquote +++ text h +++ dquote +++ " (no subtopics)")
    (Some (text e))
    (Some (List.length before + List.length between + 2))
    None.
Proof.
  intros Hbefore He Hplain Hh Htext Hbetween.
  unfold classify, find.
  change (before ++ h :: between ++ e :: rest)
    with (before ++ (h :: between) ++ e :: rest).
  rewrite app_assoc.
  rewrite (findFrom_app _ _ _ _ 0 Hbefore He). rewrite Hplain.
  cbn [Nat.add]. rewrite firstn_length_app.
  rewrite rev_app_distr. cbn [rev]. rewrite <- app_assoc. cbn [List.app].
  rewrite parentHeadingOf_app; [| now apply Forall_rev | exact Hh].
  apply truthy_true_iff in Htext. rewrite Htext. cbn [List.length Nat.ltb Nat.leb].
  f_equal. f_equal. rewrite length_app. cbn [List.length]. lia.
Qed.

Lemma match_cites_nearest_heading_witness :
  reason (classify (flatten sampleContent) "couch removal")
  = dquote +++ "couch removal" +++ dquote +++ " found under heading "
      +++ dquote +++ "Other" +++ dquote +++ " (no subtopics)".
Proof.
  change (flatten sampleContent)
    with (firstn 6 (flatten sampleContent) ++ mkText "Other" true 2
            :: [] ++ mkText "Couch removal" false 0 :: []).
  rewrite match_cites_nearest_heading;
    [reflexivity | repeat constructor | reflexivity | reflexivity | reflexivity
    | discriminate | constructor].
Defined.

(** *** The shape of a classification *)

Lemma trim_toLowerCase (s : string) : trim (toLowerCase s) = toLowerCase (trim s).
Proof.
  unfold trim, toLowerCase.
  assert (Hws : forall c, isWhiteSpace (toLowerChar c) = isWhiteSpace c).
  { intros [[] [] [] [] [] [] [] []]; reflexivity. }
  assert (Hstart : forall t, trimStart (mapString toLowerChar t)
                             = mapString toLowerChar (trimStart t)).
  { induction t as [|c t IH]; [reflexivity|]. cbn [mapString trimStart].
    rewrite Hws. now destruct (isWhiteSpace c). }
  assert (Hend : forall t, trimEnd (mapString toLowerChar t)
                           = mapString toLowerChar (trimEnd t)).
  { induction t as [|c t IH]; [reflexivity|]. cbn [mapString trimEnd].
    rewrite IH. destruct (trimEnd t); cbn [mapString]; [|reflexivity].
    rewrite Hws. now destruct (isWhiteSpace c). }
  now rewrite Hstart, Hend.
Qed.

Lemma extractParagraph_trimmed (p : Paragraph) :
  Forall (fun e => text e <> EmptyString /\ trim (text e) = text e) (extractParagraph p).
Proof.
  unfold extractParagraph. destruct (headingOf p) as [h lv].
  destruct (truthy (trim (paragraphText p))) eqn:E; constructor; [|constructor].
  cbn [text]. split; [now apply truthy_true_iff | apply trim_idempotent].
Qed.

Lemma extractContentFromElement_trimmed (element : StructuralElement) :
  Forall (fun e => text e <> EmptyString /\ trim (text e) = text e)
         (extractContentFromElement element).
Proof.
  revert element.
  fix IH 1. intros [paragraph table]. simpl. apply Forall_app. split.
  - destruct paragraph; [apply extractParagraph_trimmed | constructor].
  - destruct table as [rows|]; [|constructor].
    apply Forall_flat_map.
    induction rows as [|row rows IHrows]; constructor; [|exact IHrows].
    apply Forall_flat_map.
    induction row as [|cell row IHrow]; constructor; [|exact IHrow].
    apply Forall_flat_map.
    induction cell as [|e cell IHcell]; constructor; [apply IH | exact IHcell].
Qed.

Lemma flatten_trimmed (content : list StructuralElement) :
  Forall (fun e => text e <> EmptyString /\ trim (text e) = text e) (flatten content).
Proof.
  unfold flatten. apply Forall_flat_map.
  induction content; constructor; [apply extractContentFromElement_trimmed | assumption].
Qed.

Lemma classify_shape (keyword : string) (els : list DocumentTextElement) :
  Forall (fun e => text e <> EmptyString /\ trim (text e) = text e) els ->
  let result := classify els keyword in
  (category result = None /\ matchedLine result = None /\
   lineNumber result = None /\ subtopics result = None)
  \/
  (exists c line n,
     category result = Some c /\ matchedLine result = Some line /\
     lineNumber result = Some n /\ 1 <= n /\
     line <> EmptyString /\ trim line = line /\
     includes (toLowerCase line) (keywordLower keyword) = true).
Proof.
  intros Hels. cbv zeta. unfold classify.
  destruct (find (containsKeyword keyword) els) as [[i e]|] eqn:Ef.
  - right. apply find_some_In in Ef. destruct Ef as [Hin Hp].
    rewrite Forall_forall in Hels. destruct (Hels e Hin) as [Hne Htrim].
    assert (Hinc : includes (toLowerCase (text e)) (keywordLower keyword) = true).
    { unfold containsKeyword in Hp. now rewrite trim_toLowerCase, Htrim in Hp. }
    destruct (isHeading e); cbn [category matchedLine lineNumber];
      eexists; eexists; eexists;
      (split; [reflexivity|]); (split; [reflexivity|]); (split; [reflexivity|]);
      (split; [lia|]); auto.
  - left. cbn. auto.
Qed.

(** X17.  A classification either fails, with no category, no matched
    line, no line number and no subtopics, or succeeds with a category, a
    matched line that is not empty, has no white space at either end and
    contains the lower-cased trimmed keyword up to case, and a line number
    of at least one. *)
Theorem classification_shape
    (env : Env) (documentsGet : string -> DocsResponse)
    (docUrl keyword : string) (accessToken : option string) :
  let result := detectCategoryFromDoc env documentsGet docUrl keyword accessToken in
  (category result = None /\ matchedLine result = None /\
   lineNumber result = None /\ subtopics result = None)
  \/
  (exists c line n,
     category result = Some c /\ matchedLine result = Some line /\
     lineNumber result = Some n /\ 1 <= n /\
     line <> EmptyString /\ trim line = line /\
     includes (toLowerCase line) (keywordLower keyword) = true).
Proof.
  cbv zeta. unfold detectCategoryFromDoc.
  destruct (resolveDocumentId env docUrl); [|left; cbn; auto].
  destruct (negb _ || negb _); [left; cbn; auto|].
  destruct (negb (truthyOpt accessToken)); [left; cbn; auto|].
  destruct (documentsGet _) as [thrown|[document|]]; [| |left; cbn; auto].
  { destruct (includes _ _); left; cbn; auto. }
  destruct (body document) as [content|]; [|left; cbn; auto].
  apply classify_shape. destruct content as [c|]; [apply flatten_trimmed | constructor].
Qed.

End DocumentFacts.

(** ** The access token *)

Section TokenFacts.
Import Js Sheets TokenManager.

(** X19.  A token that counts as expired at one time counts as expired at
    every later time. *)
Theorem expired_stays_expired (now later : Z) (tokenData : TokenData) :
  isTokenExpired now tokenData = true ->
  (now <= later)%Z ->
  isTokenExpired later tokenData = true.
Proof.
  unfold isTokenExpired. cbv zeta.
  destruct (expiryDate tokenData) as [expiry|]; [destruct (expiry =? 0)%Z|];
    rewrite !Z.ltb_lt; lia.
Qed.



End TokenFacts.

Lemma expired_stays_expired_witness :
  TokenManager.isTokenExpired 3400000 (TokenManager.sampleToken 1000) = true.
Proof.
  apply (expired_stays_expired 3301001 3400000 (TokenManager.sampleToken 1000));
    [reflexivity | lia].
Defined.

(** ** The generation endpoints: placeholders, title case and accounting *)

Section PlaceholderFacts.
Import Js GenerateBox.

Lemma quiet_braces_includes (p : option ascii) (s : string) :
  quiet keywordBracesAnyCase p s ->
  includes (toLowerCase s) "{{keyword}}" = false.
Proof.
  revert p. induction s as [|c s IH]; intros p; [reflexivity|].
  intros [Hhere Hrest]. unfold toLowerCase. cbn [mapString includes].
  fold (toLowerCase s). rewrite (IH _ Hrest), orb_false_r.
  unfold keywordBracesAnyCase in Hhere.
  change (toLowerCase (String c s)) with (String (toLowerChar c) (toLowerCase s)) in Hhere.
  destruct (String.prefix "{{keyword}}" (String (toLowerChar c) (toLowerCase s)));
    [discriminate | reflexivity].
Qed.

(** X21.  After the substitution of a plain keyword no placeholder is
    left: the result holds the keyword in braces in no case, and the word
    KEYWORD standing alone nowhere. *)
Theorem substitution_leaves_no_placeholder (text keyword : string) :
  plainKeyword keyword = true ->
  let result := substituteKeyword text keyword in
  includes (toLowerCase result) "{{keyword}}" = false /\
  includes result "{{KEYWORD}}" = false /\
  quiet keywordWord None result.
Proof.
  intros Hplain. cbv zeta.
  destruct (plain_parts keyword Hplain) as (Hdollar & _ & _ & _ & Hword).
  unfold substituteKeyword. rewrite !replaceAll_scan by exact Hdollar.
  set (t1 := scan keywordBracesAnyCase keyword 0 None text).
  assert (Q1 : quiet keywordBracesAnyCase None t1).
  { apply (scan_quiet_braces keyword Hplain). apply quiet_never.
    intros p x. unfold unlessMatched. now destruct (keywordBracesAnyCase p x) eqn:E. }
  assert (E2 : scan keywordBracesUpper keyword 0 None t1 = t1).
  { apply scan_quiet. revert Q1. apply quiet_weaken, braces_upper_any. }
  rewrite E2.
  set (t3 := scan keywordWord keyword 0 None t1).
  assert (Q31 : quiet keywordBracesAnyCase None t3).
  { apply (scan_quiet_braces keyword Hplain). revert Q1. apply quiet_weaken.
    intros p x H. unfold unlessMatched. now destruct (keywordWord p x). }
  assert (Hlower : includes (toLowerCase t3) "{{keyword}}" = false)
    by exact (quiet_braces_includes _ _ Q31).
  split; [exact Hlower|]. split.
  - destruct (includes t3 "{{KEYWORD}}") eqn:E; [|reflexivity].
    assert (Hq : quiet keywordBracesUpper None t3)
      by (revert Q31; apply quiet_weaken, braces_upper_any).
    clear - Hq E. exfalso. revert Hq E. generalize (@None ascii).
    induction t3 as [|c s IH]; intros p; [discriminate|].
    intros [Hhere Hrest]. cbn [includes].
    unfold keywordBracesUpper in Hhere.
    destruct (String.prefix "{{KEYWORD}}" (String c s)); [discriminate|].
    cbn [orb]. intros E. exact (IH _ Hrest E).
  - apply (scan_quiet_word keyword Hword). now left.
Qed.

Lemma replaceFrom_quiet (m : Matcher) (replacement before s : string) :
  quiet m (lastChar before) s -> replaceFrom m replacement 0 before s = s.
Proof.
  revert before. induction s as [|c s IH]; intros before; [reflexivity|].
  intros [Hhere Hrest]. cbn [replaceFrom]. rewrite Hhere. f_equal.
  apply IH. now rewrite lastChar_append_char.
Qed.

Lemma replaceAll_quiet (m : Matcher) (replacement s : string) :
  quiet m None s -> replaceAll m replacement s = s.
Proof. intros H. unfold replaceAll. now apply replaceFrom_quiet. Qed.

(** X22.  A text that holds no opening brace and not the letters KEYWORD
    comes out of the substitution as it went in, whatever the keyword, a
    keyword with dollar signs included. *)
Theorem substitution_keeps_text_without_placeholder (text keyword : string) :
  hasChar "{"%char text = false ->
  includes text "KEYWORD" = false ->
  substituteKeyword text keyword = text.
Proof.
  intros Hbrace Hword. unfold substituteKeyword.
  assert (Q1 : quiet keywordBracesAnyCase None text).
  { rewrite <- (append_empty_r text). apply (quiet_braces_block _ _ _ None Hbrace).
    exact I. }
  assert (Q2 : quiet keywordBracesUpper None text)
    by (revert Q1; apply quiet_weaken, braces_upper_any).
  assert (Q3 : quiet keywordWord None text).
  { rewrite <- (append_empty_r text).
    apply quiet_word_block; [exact Hword | exact I|]. intros q. exact I. }
  rewrite (replaceAll_quiet _ keyword _ Q1), (replaceAll_quiet _ keyword _ Q2).
  exact (replaceAll_quiet _ keyword _ Q3).
Qed.

End PlaceholderFacts.

Lemma substitution_leaves_no_placeholder_witness :
  Js.includes
    (Js.toLowerCase
       (GenerateBox.substituteKeyword "About {{Keyword}} and KEYWORD." "junk removal"))
    "{{keyword}}" = false.
Proof.
  exact (proj1 (substitution_leaves_no_placeholder "About {{Keyword}} and KEYWORD."
                  "junk removal" eq_refl)).
Defined.

Lemma substitution_keeps_text_without_placeholder_witness :
  GenerateBox.substituteKeyword "Fast and fair pricing." "$& removal"
  = "Fast and fair pricing.".
Proof.
  exact (substitution_keeps_text_without_placeholder "Fast and fair pricing."
           "$& removal" eq_refl eq_refl).
Defined.

Section TitleLetterFacts.
Import Js GenerateBox.










Lemma split_nonempty (sep : ascii) (s : string) : split sep s <> [].
Proof.
  induction s as [|c s IH]; cbn [split]; [discriminate|].
  destruct (Ascii.eqb c sep); [discriminate|].
  destruct (split sep s); discriminate.
Qed.

Lemma join_split (sep : ascii) (s : string) :
  join (String sep EmptyString) (split sep s) = s.
Proof.
  unfold join. induction s as [|c s IH]; [reflexivity|]. cbn [split].
  destruct (Ascii.eqb c sep) eqn:Ec.
  - apply Ascii.eqb_eq in Ec. subst c.
    pose proof (split_nonempty sep s) as Hne.
    destruct (split sep s) as [|w ws]; [contradiction|]. cbn in *. now subst.
  - pose proof (split_nonempty sep s) as Hne.
    destruct (split sep s) as [|w [|w' ws]]; [contradiction | |]; cbn in *; now subst.
Qed.



End TitleLetterFacts.

(** ** The bulk endpoint and the page *)

Section AccountingFacts.
Import Js.
Variable fetch : string -> GenerateBox.Request -> GenerateAll.Fetched.
Variable request : GenerateBox.Request.

Lemma recordSet_length_new {V} (key : string) (value : V) (record : list (string * V)) :
  ~ In key (map fst record) ->
  List.length (recordSet key value record) = S (List.length record).
Proof.
  induction record as [|[k v] record IH]; cbn [recordSet map fst In List.length];
    [reflexivity|].
  intros Hnot. destruct (String.eqb_spec k key) as [->|_]; [tauto|].
  cbn [List.length]. rewrite IH; tauto.
Qed.

Lemma recordSet_In {V} (key k : string) (value : V) (record : list (string * V)) :
  In k (map fst (recordSet key value record)) <-> k = key \/ In k (map fst record).
Proof.
  induction record as [|[k' v] record IH]; cbn [recordSet map fst In].
  - intuition auto.
  - destruct (String.eqb_spec k' key) as [->|Hne]; cbn [map fst In].
    + intuition auto.
    + rewrite IH. intuition auto.
Qed.

Lemma step_cases (fieldId : string)
    (results : list (string * option string)) (errors : list (string * string)) :
  (exists output,
     GenerateAll.step fetch request (results, errors) fieldId
     = (recordSet fieldId output results, errors))
  \/
  (exists error,
     GenerateAll.step fetch request (results, errors) fieldId
     = (results, recordSet fieldId error errors)).
Proof.
  unfold GenerateAll.step.
  destruct (fetch fieldId request) as [[m|]|response]; [right; eauto | right; eauto|].
  destruct (GenerateBox.body response); destruct (GenerateAll.ok response); eauto.
Qed.

(** What the loop maintains: no field id still to come is a key yet, and
    no key of the results is a key of the errors. *)
Lemma fold_step_account (fieldIds : list string)
    (results : list (string * option string)) (errors : list (string * string)) :
  NoDup fieldIds ->
  (forall k, In k fieldIds -> ~ In k (map fst results) /\ ~ In k (map fst errors)) ->
  (forall k, In k (map fst results) -> ~ In k (map fst errors)) ->
  let state := fold_left (GenerateAll.step fetch request) fieldIds (results, errors) in
  List.length (fst state) + List.length (snd state)
  = List.length results + List.length errors + List.length fieldIds
  /\ (forall k, In k (map fst (fst state)) \/ In k (map fst (snd state)) <->
                In k (map fst results) \/ In k (map fst errors) \/ In k fieldIds)
  /\ (forall k, In k (map fst (fst state)) -> ~ In k (map fst (snd state))).
Proof.
  revert results errors.
  induction fieldIds as [|fieldId fieldIds IH]; intros results errors Hnodup Hfresh Hdisj.
  - cbn. repeat split; try lia; try tauto; auto.
  - inversion Hnodup as [|? ? Hnotin Hnodup']; subst.
    destruct (Hfresh fieldId (or_introl eq_refl)) as [HnR HnE].
    cbn [fold_left].
    destruct (step_cases fieldId results errors) as [[output ->] | [error ->]].
    + specialize (IH (recordSet fieldId output results) errors Hnodup').
      destruct IH as (Hlen & Hkeys & Hdis).
      * intros k Hk. destruct (Hfresh k (or_intror Hk)) as [A B].
        rewrite recordSet_In. split; [|exact B].
        intros [E | H]; [subst k; contradiction | auto].
      * intros k. rewrite recordSet_In. intros [E | H];
          [subst k; exact HnE | now apply Hdisj].
      * cbv zeta. rewrite Hlen, recordSet_length_new by exact HnR.
        split; [cbn [List.length]; lia|]. split; [|exact Hdis].
        intros k. rewrite Hkeys, recordSet_In. cbn [In]. intuition auto.
    + specialize (IH results (recordSet fieldId error errors) Hnodup').
      destruct IH as (Hlen & Hkeys & Hdis).
      * intros k Hk. destruct (Hfresh k (or_intror Hk)) as [A B].
        rewrite recordSet_In. split; [exact A|].
        intros [E | H]; [subst k; contradiction | auto].
      * intros k Hk. rewrite recordSet_In. intros [E | H];
          [subst k; contradiction | now apply (Hdisj k)].
      * cbv zeta. rewrite Hlen, recordSet_length_new by exact HnE.
        split; [cbn [List.length]; lia|]. split; [|exact Hdis].
        intros k. rewrite Hkeys, recordSet_In. cbn [In]. intuition auto.
Qed.

Lemma fieldIdsOf_NoDup (flow : string) : NoDup (GenerateAll.fieldIdsOf flow).
Proof.
  unfold GenerateAll.fieldIdsOf.
  destruct (String.eqb flow "with subtopics");
    repeat (constructor; [cbn; intuition discriminate|]); constructor.
Qed.

(** X24.  Whatever the field endpoint answers, the bulk endpoint accounts
    for every field of the flow once: each field id is a key of the results
    or of the errors and never of both, so the number of results, reported
    as the success count, and the number of errors add up to the field
    count. *)
Theorem generate_all_accounts_for_every_field :
  GenerateBox.keywordRejected (GenerateBox.keyword request) = false ->
  GenerateBox.flowRejected (GenerateBox.flow request) = false ->
  exists results errors,
    GenerateAll.POST fetch request =
      GenerateAll.mkResponse 200
        (GenerateAll.SummaryBody results
           (match errors with [] => None | _ => Some errors end)
           (GenerateBox.stringOf (GenerateBox.flow request))
           (List.length results + List.length errors) (List.length results))
    /\ (forall fieldId,
          In fieldId (GenerateAll.fieldIdsOf (GenerateBox.stringOf (GenerateBox.flow request)))
          <-> In fieldId (map fst results) \/ In fieldId (map fst errors))
    /\ (forall fieldId, In fieldId (map fst results) -> ~ In fieldId (map fst errors)).
Proof.
  intros Hk Hf. unfold GenerateAll.POST. rewrite Hk, Hf. cbv zeta.
  set (fieldIds := GenerateAll.fieldIdsOf _).
  pose proof (fold_step_account fieldIds [] [] (fieldIdsOf_NoDup _)) as H.
  cbv zeta in H.
  destruct (fold_left (GenerateAll.step fetch request) fieldIds ([], []))
    as [results errors].
  destruct H as (Hlen & Hkeys & Hdis); [cbn; tauto | cbn; tauto|].
  cbn [fst snd List.length Nat.add] in Hlen, Hkeys, Hdis.
  exists results, errors. rewrite <- Hlen. split.
  - f_equal. f_equal. now destruct errors.
  - split; [|exact Hdis]. intros k. rewrite Hkeys. cbn [map In]. tauto.
Qed.

End AccountingFacts.

Lemma generate_all_accounts_for_every_field_witness :
  exists results errors,
    GenerateAll.POST GenerateAll.sampleFetch (GenerateAll.sampleRequest "no subtopics") =
      GenerateAll.mkResponse 200
        (GenerateAll.SummaryBody results
           (match errors with [] => None | _ => Some errors end)
           "no subtopics" (List.length results + List.length errors)
           (List.length results)).
Proof.
  destruct (generate_all_accounts_for_every_field GenerateAll.sampleFetch
              (GenerateAll.sampleRequest "no subtopics") eq_refl eq_refl)
    as (results & errors & H & _).
  now exists results, errors.
Defined.

Section PageFacts.
Import Js.

Lemma keywordRejected_trimmed (keyword : string) :
  trim keyword <> EmptyString ->
  GenerateBox.keywordRejected (VString (trim keyword)) = false.
Proof.
  intros Hne. cbn. rewrite trim_idempotent.
  destruct (trim keyword); [contradiction | reflexivity].
Qed.

(** X25.  Every field the page generates in a bulk run is sent to the
    single-field endpoint and passes its checks of the keyword, the flow
    and the field: with a keyword that is not blank, none of these
    requests is answered with status 400. *)
Theorem page_fields_pass_validation
    (OPENAI_API_KEY : option string)
    (sheetsEnv : Sheets.Env) (valuesGet : string -> string -> Sheets.Response)
    (draft : string -> string -> string -> string -> option string -> option string)
    (keyword : string) (category : GoogleDoc.Category) (accessToken : option string)
    (fieldId : string) :
  trim keyword <> EmptyString ->
  In fieldId (Page.textFields (GoogleDoc.categoryName category)) ->
  Page.usesBoxEndpoint fieldId = true /\
  GenerateBox.status
    (GenerateBox.POST OPENAI_API_KEY sheetsEnv valuesGet draft fieldId
       (Page.fieldRequest keyword (GoogleDoc.categoryName category) accessToken))
  <> 400.
Proof.
  intros Hk Hin.
  assert (Hcases : (fieldId = "subtopics" /\ category = GoogleDoc.WithSubtopics)
                   \/ In fieldId ["title"; "intro"; "cost"; "why"; "faq"]).
  { destruct category; cbn in Hin; cbn; intuition auto. }
  assert (Hpass : forall (flowOk : GenerateBox.flowRejected
                             (VString (GoogleDoc.categoryName category)) = false)
                         (fieldOk : arrayIncludes GenerateBox.validFields fieldId = true)
                         (subOk : String.eqb fieldId "subtopics"
                                  && negb (String.eqb (GoogleDoc.categoryName category)
                                                      "with subtopics") = false),
    GenerateBox.status
      (GenerateBox.POST OPENAI_API_KEY sheetsEnv valuesGet draft fieldId
         (Page.fieldRequest keyword (GoogleDoc.categoryName category) accessToken))
    <> 400).
  { intros flowOk fieldOk subOk. unfold GenerateBox.POST, Page.fieldRequest.
    cbn [GenerateBox.keyword GenerateBox.flow GenerateBox.accessToken GenerateBox.stringOf].
    rewrite (keywordRejected_trimmed keyword Hk), flowOk, fieldOk, subOk. cbn [negb].
    destruct (negb (truthyOpt OPENAI_API_KEY)); [cbn; discriminate|].
    destruct (negb (truthyOpt accessToken)); [cbn; discriminate|].
    destruct (GoogleSheetsPrompts.found _); [|cbn; discriminate].
    destruct (GoogleSheetsPrompts.prompt _) as [[|c p]|]; try (cbn; discriminate).
    destruct (draft _ _ _ _ _); cbn; discriminate. }
  destruct Hcases as [[-> ->] | Hplain].
  - split; [reflexivity|]. now apply Hpass.
  - cbn [In] in Hplain.
    destruct Hplain as [<- | [<- | [<- | [<- | [<- | []]]]]];
      (split; [reflexivity|]); apply Hpass; try reflexivity; now destruct category.
Qed.

Lemma split_join (sep : ascii) (l : list string) :
  Forall (fun w => hasChar sep w = false) l -> l <> [] ->
  split sep (join (String sep EmptyString) l) = l.
Proof.
  unfold join. induction 1 as [|w l Hw Hl IH]; [congruence|]. intros _.
  assert (Hhead : forall rest,
    split sep (w +++ String sep rest) = w :: split sep rest).
  { revert Hw. clear. induction w as [|c w IHw]; intros Hw rest.
    - cbn. now rewrite Ascii.eqb_refl.
    - cbn [hasChar] in Hw. apply orb_false_iff in Hw. destruct Hw as [Hc Hw].
      cbn [String.append split]. rewrite Hc. now rewrite IHw. }
  destruct l as [|w' l].
  - cbn [String.concat]. revert Hw. clear. induction w as [|c w IHw]; [reflexivity|].
    cbn [hasChar split]. intros [Hc Hw]%orb_false_iff. rewrite Hc.
    now rewrite (IHw Hw).
  - change (String.concat (String sep EmptyString) (w :: w' :: l))
      with (w +++ String sep (String.concat (String sep EmptyString) (w' :: l))).
    rewrite Hhead, IH; [reflexivity | discriminate].
Qed.

Lemma filter_all {A} (p : A -> bool) (l : list A) :
  Forall (fun x => p x = true) l -> filter p l = l.
Proof. induction 1 as [|x l Hx _ IH]; cbn; [reflexivity | now rewrite Hx, IH]. Qed.

Lemma urlsSent_clean (urls : list string) :
  Forall CompetitorsRoute.cleanUrl urls ->
  Page.urlsSent (join nl urls) = urls.
Proof.
  intros Hclean. unfold Page.urlsSent. destruct urls as [|url urls]; [reflexivity|].
  unfold nl. rewrite split_join; [| |discriminate].
  - apply filter_all. eapply Forall_impl; [|exact Hclean].
    intros u (Hne & Htrim & _). rewrite Htrim. now apply truthy_true_iff.
  - eapply Forall_impl; [|exact Hclean].
    intros u (_ & _ & Hsep & _). now apply Hsep.
Qed.

(** X26.  The competitor URLs make the round trip through the page
    unchanged: the URLs of an accepted competitor response, put in the
    competitor box one per line, are the URLs the page sends with a field
    request, in the same order. *)
Theorem competitor_urls_round_trip
    (env : Sheets.Env) (valuesGet : string -> string -> Sheets.Response)
    (keyword : string) (accessToken : option string) :
  let result := GoogleSheets.getCompetitorUrlsFromSheets env valuesGet keyword accessToken in
  Page.urlsSent
    (Page.competitorBox (GoogleSheets.found result) (GoogleSheets.competitorUrls result))
  = GoogleSheets.competitorUrls result.
Proof.
  cbv zeta.
  destruct (lookup_consistent env valuesGet keyword accessToken)
    as ((_ & Hnot & _ & Hclean) & _).
  unfold Page.competitorBox.
  destruct (GoogleSheets.found _).
  - cbn [andb]. destruct (GoogleSheets.competitorUrls _) as [|url urls] eqn:E;
      [reflexivity|].
    cbn [List.length Nat.ltb Nat.leb]. now apply urlsSent_clean.
  - destruct (Hnot eq_refl) as (-> & _). reflexivity.
Qed.

End PageFacts.

Lemma page_fields_pass_validation_witness :
  Page.usesBoxEndpoint "subtopics" = true /\
  GenerateBox.status
    (GenerateBox.POST (Some "sk-test") GoogleSheetsPrompts.sampleEnv
       (GoogleSheetsPrompts.sheetOf GoogleSheetsPrompts.samplePrompts)
       GenerateAll.sampleDraft "subtopics"
       (Page.fieldRequest " mattress removal " "with subtopics" (Some "token")))
  <> 400.
Proof.
  apply (page_fields_pass_validation (Some "sk-test") GoogleSheetsPrompts.sampleEnv
           (GoogleSheetsPrompts.sheetOf GoogleSheetsPrompts.samplePrompts)
           GenerateAll.sampleDraft " mattress removal " GoogleDoc.WithSubtopics
           (Some "token") "subtopics").
  - discriminate.
  - cbn. tauto.
Defined.

(** ** The picture batch and the single-field endpoint *)

Section OutputFacts.
Import Js.

Lemma split_line (sep : ascii) (line rest : string) :
  hasChar sep line = false ->
  split sep (line +++ String sep rest) = line :: split sep rest.
Proof.
  induction line as [|c line IH]; intros Hline.
  - cbn. now rewrite Ascii.eqb_refl.
  - cbn [hasChar] in Hline. apply orb_false_iff in Hline. destruct Hline as [Hc Hline].
    cbn [String.append split]. rewrite Hc. now rewrite IH.
Qed.

(** X27.  In a picture output only the title is re-cased: when the title
    holds no line break, the output is the title in title case, a line
    break, and the summary as it was, of however many lines. *)
Theorem picture_output_keeps_summary (c : GeneratePictures.Combination) :
  hasChar GeneratePictures.newline (GeneratePictures.title c) = false ->
  GeneratePictures.properCase (GeneratePictures.formatted c)
  = GeneratePictures.titleCaseLine (GeneratePictures.title c) +++ nl
      +++ GeneratePictures.summary c.
Proof.
  intros Htitle. unfold GeneratePictures.properCase, GeneratePictures.formatted, nl.
  cbn [String.append].
  change (ascii_of_nat 10) with GeneratePictures.newline.
  rewrite (split_line _ _ _ Htitle).
  pose proof (join_split GeneratePictures.newline (GeneratePictures.summary c)) as Hjoin.
  pose proof (split_nonempty GeneratePictures.newline (GeneratePictures.summary c)) as Hne.
  unfold join in *. cbn [String.concat].
  destruct (split GeneratePictures.newline (GeneratePictures.summary c)) as [|w ws];
    [contradiction|].
  now rewrite Hjoin.
Qed.

(** X28.  The single-field endpoint answers with an output exactly when
    its status is 200, and then every check has passed: the keyword is a
    string that is not blank, the flow is one of the two, the field is a
    valid one and is subtopics only in the flow with subtopics, the key of
    the language model and the access token are set, and the prompt
    resolver has found a prompt; the field and the flow are echoed. *)
Theorem box_output_requirements
    (OPENAI_API_KEY : option string)
    (sheetsEnv : Sheets.Env) (valuesGet : string -> string -> Sheets.Response)
    (draft : string -> string -> string -> string -> option string -> option string)
    (box : string) (request : GenerateBox.Request) :
  let response := GenerateBox.POST OPENAI_API_KEY sheetsEnv valuesGet draft box request in
  match GenerateBox.body response with
  | GenerateBox.OutputBody output fieldId flow =>
      GenerateBox.status response = 200
      /\ fieldId = box
      /\ GenerateBox.flow request = VString flow
      /\ (flow = "with subtopics" \/ flow = "no subtopics")
      /\ (exists keyword, GenerateBox.keyword request = VString keyword
                          /\ trim keyword <> EmptyString)
      /\ In box GenerateBox.validFields
      /\ (box = "subtopics" -> flow = "with subtopics")
      /\ truthyOpt OPENAI_API_KEY = true
      /\ truthyOpt (GenerateBox.accessToken request) = true
      /\ GoogleSheetsPrompts.found
           (GoogleSheetsPrompts.getPromptFromSheets sheetsEnv valuesGet box
              (GenerateBox.accessToken request)) = true
  | GenerateBox.ErrorBody _ => GenerateBox.status response <> 200
  end.
Proof.
  cbv zeta. unfold GenerateBox.POST.
  destruct (GenerateBox.keywordRejected _) eqn:Ek; [cbn; discriminate|].
  destruct (GenerateBox.flowRejected _) eqn:Ef; [cbn; discriminate|].
  destruct (arrayIncludes GenerateBox.validFields box) eqn:Ev; [|cbn; discriminate].
  cbn [negb].
  destruct (String.eqb box "subtopics" && _) eqn:Es; [cbn; discriminate|].
  destruct (truthyOpt OPENAI_API_KEY) eqn:Eo; [|cbn; discriminate].
  destruct (truthyOpt (GenerateBox.accessToken request)) eqn:Et; [|cbn; discriminate].
  cbn [negb].
  destruct (GoogleSheetsPrompts.found _) eqn:Efound; [|cbn; discriminate].
  destruct (GoogleSheetsPrompts.prompt _) as [[|c p]|]; try (cbn; discriminate).
  destruct (draft _ _ _ _ _); [|cbn; discriminate].
  cbn [GenerateBox.body GenerateBox.status].
  destruct (keywordRejected_false _ Ek) as (keyword & Hkeyword & Htrim).
  destruct (GenerateBox.flow request) as [| |b|n|flow|]; try discriminate.
  cbn [GenerateBox.stringOf] in *. cbn in Ef.
  apply orb_false_iff in Ef. destruct Ef as [_ Ef].
  assert (Hflow : flow = "with subtopics" \/ flow = "no subtopics").
  { destruct (String.eqb_spec flow "with subtopics"); [now left|].
    destruct (String.eqb_spec flow "no subtopics"); [now right | discriminate]. }
  repeat split; auto.
  - now exists keyword.
  - unfold arrayIncludes in Ev. apply existsb_exists in Ev.
    destruct Ev as (x & Hin & Hx). apply String.eqb_eq in Hx. now subst.
  - intros ->. cbn [String.eqb Ascii.eqb Bool.eqb andb] in Es.
    destruct (String.eqb_spec flow "with subtopics"); [assumption | discriminate].
Qed.

End OutputFacts.

Lemma picture_output_keeps_summary_witness :
  GeneratePictures.properCase
    (GeneratePictures.formatted
       (GeneratePictures.mkCombination "fast pickup for the home" "We arrive the same day."))
  = "Fast Pickup for the Home" +++ Js.nl +++ "We arrive the same day.".
Proof.
  exact (picture_output_keeps_summary
           (GeneratePictures.mkCombination "fast pickup for the home"
              "We arrive the same day.") eq_refl).
Defined.
